(** * CloudPaste WebDAV COPY handler: a shallow embedding and its properties

    The development embeds [handleCopy] (the WebDAV COPY verb handler) as a
    function in a small state-and-exception monad.  The handler talks to
    its collaborators (mount lookup, path normalisation, the S3 client, the
    timestamp propagator, the cache) through a record of operations; every
    call that can touch the outside world is written to a log, so that
    statements such as "no storage call is issued" are statements about
    that log.  A concrete in-memory object store instantiates the record
    and is used to run the handler on explicit requests.

    The second part embeds the file service of the frontend
    ([fileService.js]) in the same style: the HTTP client, the browser's
    upload and the authentication store are collaborators, and every call
    to them is logged. *)

From Stdlib Require Import ZArith String Ascii List Lia Bool.
From stdpp Require Import gmap strings list sorting pretty.

Open Scope string_scope.
Open Scope Z_scope.

(** ** JavaScript string primitives used by the handler

    Strings are sequences of code units; the embedding uses 8-bit units,
    so that on ASCII paths and keys every function below is the
    JavaScript one. *)

Module Js.

(** [s.substring(start, end)]: both indices are clamped to [0, length],
    and swapped when [start > end]; [end] defaults to the length. *)
Definition substring (s : string) (istart : Z) (iend : option Z) : string :=
  let len := Z.of_nat (String.length s) in
  let clamp x := Z.max 0 (Z.min x len) in
  let a := clamp istart in
  let b := match iend with Some e => clamp e | None => len end in
  let lo := Z.min a b in
  let hi := Z.max a b in
  String.substring (Z.to_nat lo) (Z.to_nat (hi - lo)) s.

(** [s.endsWith(suffix)] *)
Definition endsWith (s suffix : string) : bool :=
  let n := String.length s in
  let k := String.length suffix in
  (k <=? n)%nat && String.eqb (String.substring (n - k) k s) suffix.

(** [s.includes(sub)] *)
Fixpoint includes (s sub : string) : bool :=
  String.prefix sub s ||
  match s with
  | EmptyString => false
  | String _ rest => includes rest sub
  end.

(** [s.lastIndexOf(sub)], scanning [s] whose first unit has index [i];
    the result is -1 when [sub] does not occur. *)
Fixpoint lastIndexOf_from (i : Z) (s sub : string) : Z :=
  match s with
  | EmptyString => if String.prefix sub s then i else -1
  | String _ rest =>
      let later := lastIndexOf_from (i + 1) rest sub in
      if 0 <=? later then later
      else if String.prefix sub s then i else -1
  end.

Definition lastIndexOf (s sub : string) : Z := lastIndexOf_from 0 s sub.

(** Truthiness of a value that is a string, [null] or [undefined]. *)
Definition truthy (v : option string) : bool :=
  match v with
  | Some s => negb (String.eqb s "")
  | None => false
  end.

(** [v || dflt] on such a value. *)
Definition or_else (v : option string) (dflt : string) : string :=
  match v with
  | Some s => if String.eqb s "" then dflt else s
  | None => dflt
  end.

(** *** [encodeURIComponent]

    Every unit outside [A-Z a-z 0-9 - _ . ! ~ * ' ( )] is replaced by
    [%XX], its value in upper-case hexadecimal. *)
Definition unreserved (c : ascii) : bool :=
  let n := nat_of_ascii c in
  ((65 <=? n) && (n <=? 90) || (97 <=? n) && (n <=? 122) ||
   (48 <=? n) && (n <=? 57) ||
   (n =? 45) || (n =? 95) || (n =? 46) || (n =? 33) || (n =? 126) ||
   (n =? 42) || (n =? 39) || (n =? 40) || (n =? 41))%nat.

Definition hexDigit (n : nat) : ascii :=
  if (n <? 10)%nat then ascii_of_nat (48 + n) else ascii_of_nat (55 + n).

Definition encodeUnit (c : ascii) (k : string) : string :=
  if unreserved c then String c k
  else
    let n := nat_of_ascii c in
    String "%" (String (hexDigit (n / 16)) (String (hexDigit (n mod 16)) k)).

Fixpoint encodeURIComponent (s : string) : string :=
  match s with
  | EmptyString => EmptyString
  | String c rest => encodeUnit c (encodeURIComponent rest)
  end.

End Js.

(** ** Data of the handler *)

(** The part of the Hono context [c] the handler reads: the three request
    headers ([None] is an absent header). *)
Record Request := {
  hdr_Destination : option string;
  hdr_Depth : option string;
  hdr_Overwrite : option string }.

Record Response := {
  body : option string;
  status : Z;
  headers : list (string * string) }.

(** A thrown value; the handler only ever inspects
    [error.$metadata.httpStatusCode]. [None] stands for an error without
    [$metadata] or without a status code. *)
Record Error := {
  err_name : string;
  httpStatusCode : option Z }.

Definition is404 (e : Error) : bool :=
  match httpStatusCode e with
  | Some c => c =? 404
  | None => false
  end.

Definition TypeError : Error := {| err_name := "TypeError"; httpStatusCode := None |}.

Record Mount := {
  id : string;
  storage_config_id : string }.

Record MountError := {
  me_status : Z;
  me_message : string }.

(** The object returned by [findMountPointByPath]; absent fields are
    [None] (or [false]). *)
Record MountResult := {
  mr_error : option MountError;
  mr_isRoot : bool;
  mr_mount : option Mount;
  mr_subPath : string }.

Record S3Config := {
  bucket_name : string;
  root_prefix : option string }.

Record S3Object := { Key : string }.

(** Commands sent through [s3Client.send]. *)
Inductive Command :=
| HeadObjectCommand (Bucket Key : string)
| PutObjectCommand (Bucket Key Body : string)
    (ContentType : option string) (ContentLength : option Z)
| ListObjectsV2Command (Bucket Prefix : string) (ContinuationToken : option string)
| CopyObjectCommand (Bucket CopySource Key : string).

(** The fields of a command output that the handler reads. *)
Record Output := {
  Contents : option (list S3Object);
  NextContinuationToken : option string }.

Definition noOutput : Output := {| Contents := None; NextContinuationToken := None |}.

Inductive Result (A : Type) : Type :=
| Ok (a : A)
| Err (e : Error).
Arguments Ok {A} a.
Arguments Err {A} e.

(** Calls that reach outside the handler, in the order they are made. *)
Inductive Event :=
| ECheckDirectoryExists (bucket key : string)
| ESend (cmd : Command)
| EUpdateParentDirectoriesModifiedTime (bucket key rootPrefix : string)
| EClearCache (key : string) (isDirectory : bool) (mountId : string)
| EUpdateMountLastUsed (mountId : string).

(** ** Collaborators

    Everything [handleCopy] imports.  Reads of the database see the world
    and leave it as it is; the other calls may change it.  Each call may
    throw. *)
Record Collaborators (World : Type) := {
  findMountPointByPath :
    World -> string -> string -> string -> string -> Result MountResult;
  parseDestinationPath : option string -> option string;
  normalizeS3SubPath : string -> S3Config -> bool -> string;
  selectS3Config : World -> string -> Result (option S3Config);
  createS3Client : World -> S3Config -> Result unit;
  checkDirectoryExists : string -> string -> World -> Result bool * World;
  send : Command -> World -> Result Output * World;
  updateParentDirectoriesModifiedTime :
    string -> string -> string -> World -> Result unit * World;
  clearCacheAfterWebDAVOperation :
    string -> S3Config -> bool -> string -> World -> Result unit * World;
  updateMountLastUsed : string -> World -> Result unit * World;
  handleWebDAVError : string -> Error -> bool -> bool -> Response }.

Arguments findMountPointByPath {World} _ _ _ _ _ _.
Arguments parseDestinationPath {World} _ _.
Arguments normalizeS3SubPath {World} _ _ _ _.
Arguments selectS3Config {World} _ _ _.
Arguments createS3Client {World} _ _ _.
Arguments checkDirectoryExists {World} _ _ _ _.
Arguments send {World} _ _ _.
Arguments updateParentDirectoriesModifiedTime {World} _ _ _ _ _.
Arguments clearCacheAfterWebDAVOperation {World} _ _ _ _ _ _.
Arguments updateMountLastUsed {World} _ _ _.
Arguments handleWebDAVError {World} _ _ _ _ _.

(** ** The monad: state, log, early [return], [throw] *)

Inductive Outcome (A : Type) : Type :=
| Normal (a : A)          (* the statement ran to its end *)
| Returned (r : Response) (* a [return] left the function *)
| Thrown (e : Error)      (* an exception is propagating *)
| Diverged.               (* the loop budget ran out *)
Arguments Normal {A} a.
Arguments Returned {A} r.
Arguments Thrown {A} e.
Arguments Diverged {A}.

Section Monad.
Context {World : Type}.

Definition St : Type := World * list Event.
Definition M (A : Type) : Type := St -> Outcome A * St.

Definition ret {A} (a : A) : M A := fun s => (Normal a, s).

Definition bind {A B} (m : M A) (k : A -> M B) : M B :=
  fun s =>
    match m s with
    | (Normal a, s') => k a s'
    | (Returned r, s') => (Returned r, s')
    | (Thrown e, s') => (Thrown e, s')
    | (Diverged, s') => (Diverged, s')
    end.

Definition return_ {A} (r : Response) : M A := fun s => (Returned r, s).
Definition throw {A} (e : Error) : M A := fun s => (Thrown e, s).
Definition diverge {A} : M A := fun s => (Diverged, s).

(** [try { m } catch (error) { h error }] *)
Definition try_catch {A} (m : M A) (h : Error -> M A) : M A :=
  fun s =>
    match m s with
    | (Thrown e, s') => h e s'
    | other => other
    end.

(** [if (b) { m }] *)
Definition when (b : bool) (m : M unit) : M unit :=
  if b then m else ret tt.

(** A read that may throw. *)
Definition read {A} (f : World -> Result A) : M A :=
  fun s =>
    match f (fst s) with
    | Ok a => (Normal a, s)
    | Err e => (Thrown e, s)
    end.

(** An outside call: logged, then performed. *)
Definition call {A} (ev : Event) (f : World -> Result A * World) : M A :=
  fun s =>
    let '(w, log) := s in
    match f w with
    | (Ok a, w') => (Normal a, (w', (log ++ [ev])%list))
    | (Err e, w') => (Thrown e, (w', (log ++ [ev])%list))
    end.

End Monad.

Arguments St World : clear implicits.
Arguments M World A : clear implicits.

Declare Scope js_scope.
Delimit Scope js_scope with js.
Notation "x <- m ;; k" := (bind m (fun x => k))
  (at level 100, m at next level, right associativity) : js_scope.
Notation "'do' m ;; k" := (bind m (fun _ => k))
  (at level 100, m at next level, right associativity) : js_scope.

(** ** The handler *)

Definition sourceDirectoryMissing : Response :=
  {| body := Some "源目录不存在"; status := 404; headers := [] |}.

Definition sourceFileMissing : Response :=
  {| body := Some "源文件不存在"; status := 404; headers := [] |}.

Section Handler.
Context {World : Type} (C : Collaborators World).
Local Open Scope js_scope.

Definition textPlain : list (string * string) :=
  [("Content-Type", "text/plain")].

(** [await s3Client.send(command)] *)
Definition s3 (cmd : Command) : M World Output := call (ESend cmd) (send C cmd).

Definition clearCache (key : string) (s3Config : S3Config)
    (isDirectory : bool) (mountId : string) : M World unit :=
  call (EClearCache key isDirectory mountId)
       (clearCacheAfterWebDAVOperation C key s3Config isDirectory mountId).

(** The [rootPrefix] expression of lines 254 and 291. *)
Definition rootPrefixOf (s3Config : S3Config) : string :=
  match root_prefix s3Config with
  | Some rp =>
      if String.eqb rp "" then ""
      else if Js.endsWith rp "/" then rp else rp ++ "/"
  | None => ""
  end.

Definition updateParents (s3Config : S3Config) (destS3SubPath : string)
    : M World unit :=
  let rootPrefix := rootPrefixOf s3Config in
  call (EUpdateParentDirectoriesModifiedTime
          (bucket_name s3Config) destS3SubPath rootPrefix)
       (updateParentDirectoriesModifiedTime C
          (bucket_name s3Config) destS3SubPath rootPrefix).

(** Lines 111-136: the destination's parent directory is looked for and,
    when missing, a marker is put; a failure of that put is swallowed. *)
Definition destParentPathOf (destS3SubPath : string) : string :=
  Js.substring destS3SubPath 0 (Some (Js.lastIndexOf destS3SubPath "/" + 1)).

Definition ensureDestParent (s3Config : S3Config) (destS3SubPath : string)
    : M World unit :=
  when (Js.includes destS3SubPath "/")
    (let destParentPath := destParentPathOf destS3SubPath in
     parentExists <-
       call (ECheckDirectoryExists (bucket_name s3Config) destParentPath)
            (checkDirectoryExists C (bucket_name s3Config) destParentPath) ;;
     when (negb parentExists)
       (try_catch
          (do s3 (PutObjectCommand (bucket_name s3Config) destParentPath ""
                    (Some "application/x-directory") None) ;;
           ret tt)
          (fun dirError => ret tt))).

(** Lines 138-154: [destExists]. *)
Definition headDest (s3Config : S3Config) (destS3SubPath : string) : M World bool :=
  try_catch
    (do s3 (HeadObjectCommand (bucket_name s3Config) destS3SubPath) ;;
     ret true)
    (fun error => if negb (is404 error) then throw error else ret false).

(** Lines 184-202: the [do ... while (continuationToken)] loop.  [fuel]
    bounds the number of pages asked for. *)
Fixpoint listObjects (fuel : nat) (s3Config : S3Config)
    (sourceS3SubPath : string) (objects : list S3Object)
    (continuationToken : option string) : M World (list S3Object) :=
  match fuel with
  | O => diverge
  | S fuel' =>
      listResponse <-
        s3 (ListObjectsV2Command (bucket_name s3Config) sourceS3SubPath
              continuationToken) ;;
      let objects :=
        match Contents listResponse with
        | Some contents => (objects ++ contents)%list
        | None => objects
        end in
      let continuationToken := NextContinuationToken listResponse in
      if Js.truthy continuationToken
      then listObjects fuel' s3Config sourceS3SubPath objects continuationToken
      else ret objects
  end.

(** Lines 239-240. *)
Definition newKeyOf (sourceS3SubPath destS3SubPath : string)
    (object : S3Object) : string :=
  let relativePath :=
    Js.substring (Key object)
      (Z.of_nat (String.length sourceS3SubPath)) None in
  destS3SubPath ++ relativePath.

Definition copySourceOf (s3Config : S3Config) (key : string) : string :=
  Js.encodeURIComponent (bucket_name s3Config ++ "/" ++ key).

(** Lines 237-251: [for (const object of objects)]. *)
Fixpoint copyObjects (s3Config : S3Config)
    (sourceS3SubPath destS3SubPath : string) (objects : list S3Object)
    : M World unit :=
  match objects with
  | [] => ret tt
  | object :: rest =>
      do s3 (CopyObjectCommand (bucket_name s3Config)
               (copySourceOf s3Config (Key object))
               (newKeyOf sourceS3SubPath destS3SubPath object)) ;;
      copyObjects s3Config sourceS3SubPath destS3SubPath rest
  end.

Definition putEmpty (s3Config : S3Config) (destS3SubPath : string) : Command :=
  PutObjectCommand (bucket_name s3Config) destS3SubPath "" None (Some 0).

(** Lines 165-261: the directory branch. *)
Definition copyDirectory (fuel : nat) (s3Config : S3Config) (mount : Mount)
    (depth sourceS3SubPath destS3SubPath : string) : M World unit :=
  if String.eqb depth "0" then
    do s3 (putEmpty s3Config destS3SubPath) ;;
    clearCache destS3SubPath s3Config true (id mount)
  else
    objects <- listObjects fuel s3Config sourceS3SubPath [] None ;;
    if (length objects =? 0)%nat then
      try_catch
        (do s3 (HeadObjectCommand (bucket_name s3Config) sourceS3SubPath) ;;
         do s3 (putEmpty s3Config destS3SubPath) ;;
         clearCache destS3SubPath s3Config true (id mount))
        (fun error =>
           if is404 error
           then return_ sourceDirectoryMissing
           else throw error)
    else
      do copyObjects s3Config sourceS3SubPath destS3SubPath objects ;;
      do updateParents s3Config destS3SubPath ;;
      clearCache destS3SubPath s3Config true (id mount).

(** Lines 263-296: the file branch. *)
Definition copyFile (s3Config : S3Config) (mount : Mount)
    (sourceS3SubPath destS3SubPath : string) : M World unit :=
  do try_catch
       (do s3 (HeadObjectCommand (bucket_name s3Config) sourceS3SubPath) ;;
        ret tt)
       (fun error =>
          if is404 error
          then return_ sourceFileMissing
          else throw error) ;;
  do s3 (CopyObjectCommand (bucket_name s3Config)
           (copySourceOf s3Config sourceS3SubPath) destS3SubPath) ;;
  do updateParents s3Config destS3SubPath ;;
  clearCache destS3SubPath s3Config false (id mount).

(** [x.mount]: reading [.id] of a missing mount throws. *)
Definition mountOf (r : MountResult) : M World Mount :=
  match mr_mount r with
  | Some m => ret m
  | None => throw TypeError
  end.

(** What lines 21-109 work out before the first storage call. *)
Record Plan := {
  mount : Mount;
  s3Config : S3Config;
  depth : string;
  isDirectory : bool;
  sourceS3SubPath : string;
  destS3SubPath : string;
  allowOverwrite : bool }.

Definition invalidDepth : Response :=
  {| body := Some "无效的深度头"; status := 400; headers := textPlain |}.

Definition configMissing : Response :=
  {| body := Some "存储配置不存在"; status := 404; headers := [] |}.

Definition errorResponse (e : MountError) : Response :=
  {| body := Some (me_message e); status := me_status e;
     headers := textPlain |}.

(** Lines 21-109: mounts, headers, configuration, keys.  Only reads. *)
Definition resolve (c : Request) (path userId userType : string)
    : M World Plan :=
  sourceMountResult <-
    read (fun db => findMountPointByPath C db path userId userType "operation") ;;
  do match mr_error sourceMountResult with
     | Some e => return_ (errorResponse e)
     | None => ret tt
     end ;;
  let destination := hdr_Destination c in
  let destPath := parseDestinationPath C destination in
  do when (negb (Js.truthy destPath))
       (return_ {| body := Some "缺少目标路径头"; status := 400;
                   headers := textPlain |}) ;;
  let destPath := default "" destPath in
  do when (String.eqb path destPath)
       (return_ {| body := Some "源路径和目标路径相同"; status := 400;
                   headers := textPlain |}) ;;
  destMountResult <-
    read (fun db => findMountPointByPath C db destPath userId userType "operation") ;;
  do when (mr_isRoot destMountResult)
       (return_ {| body := Some "无法复制到根目录"; status := 403;
                   headers := textPlain |}) ;;
  do match mr_error destMountResult with
     | Some e => return_ (errorResponse e)
     | None => ret tt
     end ;;
  sourceMount <- mountOf sourceMountResult ;;
  destMount <- mountOf destMountResult ;;
  do when (negb (String.eqb (id sourceMount) (id destMount)))
       (return_ {| body := Some "不支持在不同挂载点之间复制"; status := 502;
                   headers := textPlain |}) ;;
  let depth := Js.or_else (hdr_Depth c) "infinity" in
  do when (negb (String.eqb depth "0") && negb (String.eqb depth "infinity"))
       (return_ invalidDepth) ;;
  let mount := sourceMount in
  let sourceSubPath := mr_subPath sourceMountResult in
  let destSubPath := mr_subPath destMountResult in
  s3Config <- read (fun db => selectS3Config C db (storage_config_id mount)) ;;
  match s3Config with
  | None =>
      return_ configMissing
  | Some s3Config =>
      do read (fun db => createS3Client C db s3Config) ;;
      let isDirectory := Js.endsWith path "/" in
      let sourceS3SubPath := normalizeS3SubPath C sourceSubPath s3Config isDirectory in
      let destS3SubPath := normalizeS3SubPath C destSubPath s3Config isDirectory in
      let overwrite := hdr_Overwrite c in
      let allowOverwrite := negb (bool_decide (overwrite = Some "F")) in
      ret {| mount := mount; s3Config := s3Config; depth := depth;
             isDirectory := isDirectory;
             sourceS3SubPath := sourceS3SubPath;
             destS3SubPath := destS3SubPath;
             allowOverwrite := allowOverwrite |}
  end.

Definition created : Response :=
  {| body := None; status := 201;
     headers := [("Content-Type", "text/plain"); ("Content-Length", "0")] |}.

Definition preconditionFailed : Response :=
  {| body := Some "目标已存在且不允许覆盖"; status := 412;
     headers := textPlain |}.

(** Lines 111-162: parent directory and overwrite check. *)
Definition prologue (p : Plan) : M World unit :=
  do ensureDestParent (s3Config p) (destS3SubPath p) ;;
  destExists <- headDest (s3Config p) (destS3SubPath p) ;;
  when (destExists && negb (allowOverwrite p)) (return_ preconditionFailed).

(** Lines 164-309: the transfer by kind and depth, the last-used marker
    and the response. *)
Definition dispatch (fuel : nat) (p : Plan) : M World Response :=
  do (if isDirectory p
      then copyDirectory fuel (s3Config p) (mount p) (depth p)
             (sourceS3SubPath p) (destS3SubPath p)
      else copyFile (s3Config p) (mount p)
             (sourceS3SubPath p) (destS3SubPath p)) ;;
  do call (EUpdateMountLastUsed (id (mount p)))
          (updateMountLastUsed C (id (mount p))) ;;
  ret created.

Definition transfer (fuel : nat) (p : Plan) : M World Response :=
  do prologue p ;;
  dispatch fuel p.

(** Lines 21-309: the body of the outer [try]. *)
Definition handleCopy_try (fuel : nat) (c : Request)
    (path userId userType : string) : M World Response :=
  p <- resolve c path userId userType ;;
  transfer fuel p.

(** Lines 19-314: [handleCopy].  [None] is a run whose paging budget ran
    out; otherwise the response comes with the final world and the log
    of outside calls. *)
Definition handleCopy (fuel : nat) (c : Request)
    (path userId userType : string) (db : World)
    : option Response * World * list Event :=
  match handleCopy_try fuel c path userId userType (db, []) with
  | (Normal r, (w, log)) => (Some r, w, log)
  | (Returned r, (w, log)) => (Some r, w, log)
  | (Thrown error, (w, log)) =>
      (Some (handleWebDAVError C "COPY" error false false), w, log)
  | (Diverged, (w, log)) => (None, w, log)
  end.

End Handler.

(** ** A concrete backend

    An in-memory object store with the remaining collaborators, used to
    run the handler.  The store holds the objects of one bucket. *)

Module Backend.

Record Object := {
  content : string;
  contentType : option string }.

Record Db := {
  bucket : string;
  objects : gmap string Object;
  maxKeys : nat;                        (* page size of a listing *)
  mounts : list (string * Mount);       (* mount path, mount *)
  s3_configs : list (string * S3Config);
  touched : list (string * string);     (* refreshed ancestors: key, root *)
  invalidated : list string;
  last_used : list string }.

Definition with_objects (o : gmap string Object) (w : Db) : Db :=
  {| bucket := bucket w; objects := o; maxKeys := maxKeys w;
     mounts := mounts w; s3_configs := s3_configs w; touched := touched w;
     invalidated := invalidated w; last_used := last_used w |}.

Definition notFound (name : string) : Error :=
  {| err_name := name; httpStatusCode := Some 404 |}.

(** *** The object store *)

(** Inverse of [Js.encodeURIComponent] on what it produces. *)
Definition hexValue (c : ascii) : nat :=
  let n := nat_of_ascii c in
  if (n <? 58)%nat then (n - 48)%nat else (n - 55)%nat.

Fixpoint decodeURIComponent (s : string) : string :=
  match s with
  | EmptyString => EmptyString
  | String c rest =>
      if Ascii.eqb c "%" then
        match rest with
        | String h (String l rest') =>
            String (ascii_of_nat (16 * hexValue h + hexValue l))
                   (decodeURIComponent rest')
        | _ => String c (decodeURIComponent rest)
        end
      else String c (decodeURIComponent rest)
  end.

(** [stripPrefix p s] is the rest of [s] after [p], if [s] starts with it. *)
Fixpoint stripPrefix (p s : string) : option string :=
  match p, s with
  | EmptyString, _ => Some s
  | String a p', String b s' =>
      if Ascii.eqb a b then stripPrefix p' s' else None
  | String _ _, EmptyString => None
  end.

(** Keys are listed in binary order. *)
Definition keyOrder (a b : string) : Prop := Is_true (String.leb a b).
#[local] Instance keyOrder_dec a b : Decision (keyOrder a b).
Proof. unfold keyOrder. apply _. Defined.

Definition sortedKeys (o : gmap string Object) : list string :=
  merge_sort keyOrder ((map_to_list o).*1).

Definition keysWithPrefix (o : gmap string Object) (prefix : string)
    : list string :=
  List.filter (String.prefix prefix) (sortedKeys o).

(** Continuation tokens are opaque; this store encodes the number of
    keys already returned as that many ["+"]. *)
Fixpoint tokenOf (n : nat) : string :=
  match n with
  | O => EmptyString
  | S n' => String "+" (tokenOf n')
  end.

Definition offsetOf (token : option string) : nat :=
  match token with
  | Some t => String.length t
  | None => O
  end.

(** One page of a listing: [maxKeys] keys from where the token says, no
    [Contents] when the page is empty, and a next token while keys
    remain. *)
Definition listPage (w : Db) (prefix : string) (token : option string)
    : Output :=
  let all := keysWithPrefix (objects w) prefix in
  let start := offsetOf token in
  let page := take (maxKeys w) (drop start all) in
  {| Contents :=
       match page with
       | [] => None
       | _ => Some (List.map Build_S3Object page)
       end;
     NextContinuationToken :=
       if (start + maxKeys w <? length all)%nat
       then Some (tokenOf (start + maxKeys w))
       else None |}.

(** The client's [send] on the store.  A head of a missing key fails with
    404; a put stores the body; a listing returns a page; a copy reads the
    object named by [CopySource] (decoded, bucket first) and stores it,
    content type included, at the key.  A command for another bucket
    fails with 404. *)
Definition s3_send (cmd : Command) (w : Db) : Result Output * Db :=
  match cmd with
  | HeadObjectCommand b key =>
      if negb (String.eqb b (bucket w)) then (Err (notFound "NoSuchBucket"), w)
      else
        match objects w !! key with
        | Some _ => (Ok noOutput, w)
        | None => (Err (notFound "NotFound"), w)
        end
  | PutObjectCommand b key body ctype _ =>
      if negb (String.eqb b (bucket w)) then (Err (notFound "NoSuchBucket"), w)
      else
        (Ok noOutput,
         with_objects
           (<[key := {| content := body; contentType := ctype |}]> (objects w)) w)
  | ListObjectsV2Command b prefix token =>
      if negb (String.eqb b (bucket w)) then (Err (notFound "NoSuchBucket"), w)
      else (Ok (listPage w prefix token), w)
  | CopyObjectCommand b copySource key =>
      if negb (String.eqb b (bucket w)) then (Err (notFound "NoSuchBucket"), w)
      else
        match stripPrefix (bucket w ++ "/") (decodeURIComponent copySource) with
        | None => (Err (notFound "NoSuchBucket"), w)
        | Some sourceKey =>
            match objects w !! sourceKey with
            | Some o => (Ok noOutput, with_objects (<[key := o]> (objects w)) w)
            | None => (Err (notFound "NoSuchKey"), w)
            end
        end
  end.

(** *** The other collaborators *)

(** The sub-path of [path] under a mount path: the mount path is the
    whole path or is followed by a separator. *)
Definition subPathUnder (mountPath path : string) : option string :=
  match stripPrefix mountPath path with
  | Some rest =>
      if String.eqb rest "" || String.prefix "/" rest then Some rest else None
  | None => None
  end.

Fixpoint longestMatch (ms : list (string * Mount)) (path : string)
    (best : option (string * Mount * string))
    : option (string * Mount * string) :=
  match ms with
  | [] => best
  | (mountPath, m) :: rest =>
      let best' :=
        match subPathUnder mountPath path, best with
        | Some sub, None => Some (mountPath, m, sub)
        | Some sub, Some (bestPath, _, _) =>
            if (String.length bestPath <? String.length mountPath)%nat
            then Some (mountPath, m, sub) else best
        | None, _ => best
        end in
      longestMatch rest path best'
  end.

(** Modelled from the spec: [findMountPointByPath] is not part of the
    handler's file.  The virtual root gives the root signal; otherwise
    the mount with the longest matching path is chosen, and the sub-path
    is what follows the mount path; no mount gives a 404 error.  The
    access decision is left out: every principal holds the capability. *)
Definition findMount (w : Db) (path userId userType permission : string)
    : Result MountResult :=
  if String.eqb path "/" then
    Ok {| mr_error := None; mr_isRoot := true; mr_mount := None;
          mr_subPath := "" |}
  else
    match longestMatch (mounts w) path None with
    | Some (_, m, sub) =>
        Ok {| mr_error := None; mr_isRoot := false; mr_mount := Some m;
              mr_subPath := sub |}
    | None =>
        Ok {| mr_error := Some {| me_status := 404; me_message := "mount not found" |};
              mr_isRoot := false; mr_mount := None; mr_subPath := "" |}
    end.

(** The part of a string from its first separator on. *)
Fixpoint fromFirstSlash (s : string) : string :=
  match s with
  | EmptyString => EmptyString
  | String c rest => if Ascii.eqb c "/" then s else fromFirstSlash rest
  end.

(** Modelled from the spec: [parseDestinationPath] is not part of the
    handler's file.  The header is an absolute URL or a path; of a URL
    the part from the first separator after the host is kept. *)
Definition parseDestination (destination : option string) : option string :=
  match destination with
  | None => None
  | Some d =>
      match stripPrefix "http://" d, stripPrefix "https://" d with
      | Some rest, _ => Some (fromFirstSlash rest)
      | None, Some rest => Some (fromFirstSlash rest)
      | None, None => Some d
      end
  end.

(** Runs of separators become one separator. *)
Fixpoint collapseSlashes (s : string) : string :=
  match s with
  | EmptyString => EmptyString
  | String c rest =>
      match rest with
      | String d _ =>
          if Ascii.eqb c "/" && Ascii.eqb d "/" then collapseSlashes rest
          else String c (collapseSlashes rest)
      | EmptyString => String c EmptyString
      end
  end.

(** Modelled from the spec: [normalizeS3SubPath] is not part of the
    handler's file.  Duplicate separators are collapsed and the leading
    one dropped, the root prefix is put in front with a single
    separator, and a directory key gets a trailing separator. *)
Definition normalize (subPath : string) (s3Config : S3Config)
    (asDirectory : bool) : string :=
  let collapsed := collapseSlashes subPath in
  let relative := default collapsed (stripPrefix "/" collapsed) in
  let rootPrefix :=
    match root_prefix s3Config with
    | Some rp =>
        if String.eqb rp "" then ""
        else if Js.endsWith rp "/" then rp else rp ++ "/"
    | None => ""
    end in
  let key := rootPrefix ++ relative in
  if asDirectory && negb (Js.endsWith key "/") then key ++ "/" else key.

(** Modelled from the spec: the metadata store returns the backend
    configuration by its identifier, or nothing. *)
Definition selectConfig (w : Db) (configId : string)
    : Result (option S3Config) :=
  Ok (snd <$> List.find (fun row => String.eqb (fst row) configId) (s3_configs w)).

(** Modelled from the spec: [checkDirectoryExists] is not part of the
    handler's file.  A directory exists when its marker does, or when a
    listing of its prefix finds an object. *)
Definition directoryExists (b key : string) (w : Db) : Result bool * Db :=
  (Ok (bool_decide (is_Some (objects w !! key)) ||
       negb (bool_decide (keysWithPrefix (objects w) key = []))), w).

(** The proper prefixes of [before ++ rest] that end in a separator and
    are longer than [before]. *)
Fixpoint ancestorsFrom (before rest : string) : list string :=
  match rest with
  | EmptyString => []
  | String c rest' =>
      let here := before ++ String c EmptyString in
      if Ascii.eqb c "/" && negb (String.eqb rest' "")
      then here :: ancestorsFrom here rest'
      else ancestorsFrom here rest'
  end.

Definition ancestorChain (key rootPrefix : string) : list string :=
  List.filter
    (fun dir => String.prefix rootPrefix dir &&
                (String.length rootPrefix <? String.length dir)%nat)
    (ancestorsFrom "" key).

(** Modelled from the spec: [updateParentDirectoriesModifiedTime] is not
    part of the handler's file.  The ancestors of a key are its proper
    prefixes that end in a separator; those strictly below the root
    prefix are refreshed.  The refreshed keys are recorded in [touched]. *)
Definition updateParents (b key rootPrefix : string) (w : Db)
    : Result unit * Db :=
  (Ok tt,
   {| bucket := bucket w; objects := objects w; maxKeys := maxKeys w;
      mounts := mounts w; s3_configs := s3_configs w;
      touched :=
        (touched w ++ List.map (fun dir => (dir, rootPrefix))
                        (ancestorChain key rootPrefix))%list;
      invalidated := invalidated w; last_used := last_used w |}).

(** Modelled from the spec: [clearCacheAfterWebDAVOperation] is not part
    of the handler's file; the invalidated key is recorded. *)
Definition clearCache (key : string) (s3Config : S3Config)
    (isDirectory : bool) (mountId : string) (w : Db) : Result unit * Db :=
  (Ok tt,
   {| bucket := bucket w; objects := objects w; maxKeys := maxKeys w;
      mounts := mounts w; s3_configs := s3_configs w; touched := touched w;
      invalidated := (invalidated w ++ [key])%list;
      last_used := last_used w |}).

(** Modelled from the spec: [updateMountLastUsed] is not part of the
    handler's file; the refreshed mount is recorded. *)
Definition updateLastUsed (mountId : string) (w : Db) : Result unit * Db :=
  (Ok tt,
   {| bucket := bucket w; objects := objects w; maxKeys := maxKeys w;
      mounts := mounts w; s3_configs := s3_configs w; touched := touched w;
      invalidated := invalidated w;
      last_used := (last_used w ++ [mountId])%list |}).

(** Modelled from the spec: [handleWebDAVError] is not part of the
    handler's file; an unexpected failure is answered with its status
    code, or 500 when it has none. *)
Definition webdavError (operation : string) (error : Error)
    (includeDetails useXml : bool) : Response :=
  {| body := Some (err_name error);
     status := default 500 (httpStatusCode error);
     headers := [("Content-Type", "text/plain")] |}.

Definition collaborators : Collaborators Db :=
  {| findMountPointByPath := findMount;
     parseDestinationPath := parseDestination;
     normalizeS3SubPath := normalize;
     selectS3Config := selectConfig;
     createS3Client := fun _ _ => Ok tt;
     checkDirectoryExists := directoryExists;
     send := s3_send;
     updateParentDirectoriesModifiedTime := updateParents;
     clearCacheAfterWebDAVOperation := clearCache;
     updateMountLastUsed := updateLastUsed;
     handleWebDAVError := webdavError |}.

(** *** A sample deployment: two mounts over one bucket *)

Definition file (text : string) : Object :=
  {| content := text; contentType := Some "text/plain" |}.

Definition marker : Object :=
  {| content := ""; contentType := Some "application/x-directory" |}.

Definition sampleDb (o : gmap string Object) : Db :=
  {| bucket := "bkt"; objects := o; maxKeys := 2;
     mounts := [("/m", {| id := "1"; storage_config_id := "cfg" |});
                ("/n", {| id := "2"; storage_config_id := "cfg" |})];
     s3_configs := [("cfg", {| bucket_name := "bkt"; root_prefix := None |})];
     touched := []; invalidated := []; last_used := [] |}.

Definition request (destination depth overwrite : option string) : Request :=
  {| hdr_Destination := destination; hdr_Depth := depth;
     hdr_Overwrite := overwrite |}.

(** The handler on the concrete backend. *)
Definition run (fuel : nat) (c : Request) (path : string) (w : Db)
    : option Response * Db * list Event :=
  handleCopy collaborators fuel c path "admin-id" "admin" w.

(** A second store: its listings leave out the object whose key is the
    listed prefix itself (the directory marker), so that an empty
    directory lists as nothing while its marker answers a head. *)
Definition s3_send_unlisted (cmd : Command) (w : Db) : Result Output * Db :=
  match cmd with
  | ListObjectsV2Command b prefix token =>
      if negb (String.eqb b (bucket w)) then (Err (notFound "NoSuchBucket"), w)
      else (Ok (listPage (with_objects (delete prefix (objects w)) w) prefix token), w)
  | _ => s3_send cmd w
  end.

Definition collaboratorsUnlisted : Collaborators Db :=
  {| findMountPointByPath := findMount;
     parseDestinationPath := parseDestination;
     normalizeS3SubPath := normalize;
     selectS3Config := selectConfig;
     createS3Client := fun _ _ => Ok tt;
     checkDirectoryExists := directoryExists;
     send := s3_send_unlisted;
     updateParentDirectoriesModifiedTime := updateParents;
     clearCacheAfterWebDAVOperation := clearCache;
     updateMountLastUsed := updateLastUsed;
     handleWebDAVError := webdavError |}.

End Backend.

(** ** Facts about strings *)

Section StringFacts.

Lemma prefix_cons a b s1 s2 :
  String.prefix (String a s1) (String b s2) = true <->
  a = b /\ String.prefix s1 s2 = true.
Proof.
  simpl. destruct (ascii_dec a b) as [-> | Hne].
  - split; [intros H; split; [reflexivity | exact H] | intros [_ H]; exact H].
  - split; [discriminate | intros [He _]; contradiction].
Qed.

Lemma prefix_nil_r s : String.prefix s "" = true -> s = "".
Proof. destruct s; [reflexivity | discriminate]. Qed.

Lemma prefix_refl s : String.prefix s s = true.
Proof.
  induction s as [| a s IH]; [reflexivity |].
  apply prefix_cons. split; [reflexivity | exact IH].
Qed.

Lemma prefix_app d r : String.prefix d (d ++ r) = true.
Proof.
  induction d as [| a d IH]; [destruct r; reflexivity |].
  change (String a d ++ r) with (String a (d ++ r)).
  apply prefix_cons. split; [reflexivity | exact IH].
Qed.

Lemma prefix_trans a b c :
  String.prefix a b = true -> String.prefix b c = true ->
  String.prefix a c = true.
Proof.
  revert b c. induction a as [| x a IH]; intros b c Hab Hbc.
  - destruct c; reflexivity.
  - destruct b as [| y b]; [discriminate |].
    destruct c as [| z c]; [discriminate |].
    apply prefix_cons in Hab as [-> Hab].
    apply prefix_cons in Hbc as [-> Hbc].
    apply prefix_cons. split; [reflexivity | eapply IH; eassumption].
Qed.

(** Two prefixes of one string are comparable. *)
Lemma prefix_comparable a b s :
  String.prefix a s = true -> String.prefix b s = true ->
  String.prefix a b = true \/ String.prefix b a = true.
Proof.
  revert b s. induction a as [| x a IH]; intros b s Ha Hb.
  - left. destruct b; reflexivity.
  - destruct b as [| y b]; [right; reflexivity |].
    destruct s as [| z s]; [discriminate |].
    apply prefix_cons in Ha as [-> Ha].
    apply prefix_cons in Hb as [-> Hb].
    destruct (IH b s Ha Hb) as [H | H]; [left | right];
      apply prefix_cons; split; auto.
Qed.

Lemma prefix_spec p s :
  String.prefix p s = true <-> exists r, s = p ++ r.
Proof.
  split.
  - revert s. induction p as [| a p IH]; intros s H.
    + exists s. reflexivity.
    + destruct s as [| b s]; [discriminate |].
      apply prefix_cons in H as [-> H].
      destruct (IH s H) as [r ->]. exists r. reflexivity.
  - intros [r ->]. apply prefix_app.
Qed.

Lemma substring0_prefix n s : String.prefix (String.substring 0 n s) s = true.
Proof.
  revert n. induction s as [| a s IH]; intros [| n]; try reflexivity.
  simpl String.substring. apply prefix_cons. split; [reflexivity | apply IH].
Qed.

(** [s.substring(n)] of a string that starts with [n] units [p]. *)
Lemma substring_drop p r :
  String.substring (String.length p) (String.length r) (p ++ r) = r.
Proof.
  induction p as [| a p IH]; simpl.
  - induction r as [| b r IHr]; [reflexivity |].
    simpl. f_equal. exact IHr.
  - exact IH.
Qed.

Lemma length_app p r :
  String.length (p ++ r) = (String.length p + String.length r)%nat.
Proof. induction p as [| a p IH]; simpl; [reflexivity | now rewrite IH]. Qed.

Lemma js_substring_from p r :
  Js.substring (p ++ r) (Z.of_nat (String.length p)) None = r.
Proof.
  unfold Js.substring. rewrite length_app.
  replace (Z.to_nat _) with (String.length p) by lia.
  replace (Z.to_nat _) with (String.length r) by lia.
  apply substring_drop.
Qed.

Lemma js_substring_to s n :
  String.prefix (Js.substring s 0 (Some n)) s = true.
Proof.
  unfold Js.substring.
  replace (Z.to_nat _) with 0%nat by lia.
  apply substring0_prefix.
Qed.

End StringFacts.

(** ** Running the monad *)

Section Execution.
Context {World : Type} (C : Collaborators World).

(** The source and the destination both resolve to a mount: the lookups
    of lines 22 and 52 return without error, and line 34 yields a
    destination path. *)
Definition ResolvesTo (c : Request) (path userId userType : string)
    (db : World) (source dest : MountResult) (m1 m2 : Mount) : Prop :=
  exists destPath,
    findMountPointByPath C db path userId userType "operation" = Ok source /\
    mr_error source = None /\ mr_mount source = Some m1 /\
    parseDestinationPath C (hdr_Destination c) = Some destPath /\
    destPath <> "" /\
    findMountPointByPath C db destPath userId userType "operation" = Ok dest /\
    mr_isRoot dest = false /\ mr_error dest = None /\
    mr_mount dest = Some m2.

Lemma eqb_false_of_neq (a b : string) : a <> b -> String.eqb a b = false.
Proof. intros H. apply String.eqb_neq. exact H. Qed.

Lemma truthy_nonempty (s : string) : s <> "" -> Js.truthy (Some s) = true.
Proof. intros H. unfold Js.truthy. now rewrite (eqb_false_of_neq _ _ H). Qed.

(** *** Invariants of a run

    [Keeps R m]: every run of [m] relates the state before, the response
    it returned early (if it did) and the state after.  When [R] is
    reflexive without a response and composes to the left with such
    steps, this is closed under the monad's operations; only [return_]
    and [call] have to be justified. *)
Definition returned {A} (o : Outcome A) : option Response :=
  match o with
  | Returned r => Some r
  | _ => None
  end.

Section Keeps.
Variable R : St World -> option Response -> St World -> Prop.
Hypothesis R_refl : forall s, R s None s.
Hypothesis R_trans :
  forall s1 s2 s3 x, R s1 None s2 -> R s2 x s3 -> R s1 x s3.

Definition Keeps {A} (m : M World A) : Prop :=
  forall s, R s (returned (fst (m s))) (snd (m s)).

Lemma Keeps_ret {A} (a : A) : Keeps (ret a).
Proof. intros s. apply R_refl. Qed.

Lemma Keeps_return {A} r :
  (forall s, R s (Some r) s) -> Keeps (@return_ World A r).
Proof. intros H s. apply H. Qed.

Lemma Keeps_throw {A} e : Keeps (@throw World A e).
Proof. intros s. apply R_refl. Qed.

Lemma Keeps_diverge {A} : Keeps (@diverge World A).
Proof. intros s. apply R_refl. Qed.

Lemma Keeps_read {A} (f : World -> Result A) : Keeps (read f).
Proof. intros s. unfold read. destruct (f (fst s)); apply R_refl. Qed.

Lemma Keeps_bind {A B} (m : M World A) (k : A -> M World B) :
  Keeps m -> (forall a, Keeps (k a)) -> Keeps (bind m k).
Proof.
  intros Hm Hk s. unfold bind. specialize (Hm s).
  destruct (m s) as [[a | r | e |] s']; simpl in *; try assumption.
  eapply R_trans; [exact Hm | apply Hk].
Qed.

Lemma Keeps_try_catch {A} (m : M World A) (h : Error -> M World A) :
  Keeps m -> (forall e, Keeps (h e)) -> Keeps (try_catch m h).
Proof.
  intros Hm Hh s. unfold try_catch. specialize (Hm s).
  destruct (m s) as [[a | r | e |] s']; simpl in *; try assumption.
  eapply R_trans; [exact Hm | apply Hh].
Qed.

Lemma Keeps_when b (m : M World unit) : Keeps m -> Keeps (when b m).
Proof. intros Hm. destruct b; simpl; [exact Hm | apply Keeps_ret]. Qed.

Lemma Keeps_call {A} ev (f : World -> Result A * World) :
  (forall w log, R (w, log) None (snd (f w), (log ++ [ev])%list)) ->
  Keeps (call ev f).
Proof.
  intros H [w log]. unfold call. specialize (H w log).
  destruct (f w) as [[a | e] w']; simpl in *; exact H.
Qed.

End Keeps.

End Execution.

Tactic Notation "stepm" :=
  cbn [fst snd negb andb orb from_option Datatypes.id].
Tactic Notation "stepm" "in" hyp(H) :=
  cbn [fst snd negb andb orb from_option Datatypes.id] in H.

Ltac keeps_step :=
  first
    [ apply Keeps_bind; [try assumption .. | | intros ?]
    | apply Keeps_try_catch; [try assumption .. | | intros ?]
    | apply Keeps_when; [try assumption .. | ]
    | apply Keeps_ret; assumption
    | apply Keeps_throw; assumption
    | apply Keeps_diverge; assumption
    | apply Keeps_read; assumption
    | match goal with
      | |- Keeps _ (match ?x with _ => _ end) => destruct x
      | |- Keeps _ (if ?x then _ else _) => destruct x
      end ].

Section Resolve.
Context {World : Type} (C : Collaborators World).

(** [resolve] neither changes the world nor writes to the log. *)
Lemma resolve_pure c path userId userType s :
  snd (resolve C c path userId userType s) = s.
Proof.
  pose (R := fun (s1 : St World) (_ : option Response) (s2 : St World) => s2 = s1).
  assert (Hr : forall s, R s None s) by reflexivity.
  assert (Ht : forall s1 s2 s3 x, R s1 None s2 -> R s2 x s3 -> R s1 x s3)
    by (unfold R; intros; congruence).
  cut (Keeps R (resolve C c path userId userType)); [intros H; apply H |].
  unfold resolve, mountOf.
  repeat first [keeps_step | apply Keeps_return; reflexivity].
Qed.

(** What a request that passes every gate of [resolve] looks like. *)
Lemma resolve_Normal c path userId userType s p s' :
  resolve C c path userId userType s = (Normal p, s') ->
  exists source dest destPath cfg,
    findMountPointByPath C (fst s) path userId userType "operation" = Ok source /\
    mr_error source = None /\
    parseDestinationPath C (hdr_Destination c) = Some destPath /\
    path <> destPath /\
    findMountPointByPath C (fst s) destPath userId userType "operation" = Ok dest /\
    mr_mount source = Some (mount p) /\
    selectS3Config C (fst s) (storage_config_id (mount p)) = Ok (Some cfg) /\
    (depth p = "0" \/ depth p = "infinity") /\
    p = {| mount := mount p; s3Config := cfg;
           depth := Js.or_else (hdr_Depth c) "infinity";
           isDirectory := Js.endsWith path "/";
           sourceS3SubPath :=
             normalizeS3SubPath C (mr_subPath source) cfg (Js.endsWith path "/");
           destS3SubPath :=
             normalizeS3SubPath C (mr_subPath dest) cfg (Js.endsWith path "/");
           allowOverwrite := negb (bool_decide (hdr_Overwrite c = Some "F")) |}.
Proof.
  intros H.
  unfold resolve, bind, read, when, mountOf, ret, return_, throw in H.
  destruct (findMountPointByPath C (fst s) path userId userType "operation")
    as [source | e] eqn:Hs; [| discriminate].
  destruct (mr_error source) eqn:Hse; [discriminate |].
  destruct (parseDestinationPath C (hdr_Destination c)) as [destPath |] eqn:Hp;
    [| discriminate].
  destruct (Js.truthy (Some destPath)) eqn:Htr; [| discriminate].
  stepm in H.
  destruct (String.eqb path destPath) eqn:Hpd; [discriminate |].
  destruct (findMountPointByPath C (fst s) destPath userId userType "operation")
    as [dest | e] eqn:Hd; [| discriminate].
  destruct (mr_isRoot dest) eqn:Hdr; [discriminate |].
  destruct (mr_error dest) eqn:Hde; [discriminate |].
  destruct (mr_mount source) as [m1 |] eqn:Hsm; [| discriminate].
  destruct (mr_mount dest) as [m2 |] eqn:Hdm; [| discriminate].
  destruct (String.eqb (id m1) (id m2)) eqn:Hid; [| discriminate].
  stepm in H.
  destruct (String.eqb (Js.or_else (hdr_Depth c) "infinity") "0") eqn:Hd0;
    stepm in H;
    [| destruct (String.eqb (Js.or_else (hdr_Depth c) "infinity") "infinity")
         eqn:Hdi; stepm in H; [| discriminate]].
  all: destruct (selectS3Config C (fst s) (storage_config_id m1))
         as [[cfg |] | e] eqn:Hc; try discriminate.
  all: destruct (createS3Client C (fst s) cfg) as [[] | e] eqn:Hcl;
         try discriminate.
  all: injection H as Hpl Hst; subst p; cbn [mount depth].
  all: exists source, dest, destPath, cfg.
  all: repeat split; try assumption; try reflexivity.
  all: try (apply String.eqb_neq; assumption).
  - left. apply String.eqb_eq. assumption.
  - right. apply String.eqb_eq. assumption.
Qed.

(** [resolve] from the Depth gate on, once both mounts are found and are
    the same one. *)
Lemma resolve_same_mount c path userId userType db log source dest m1 m2 :
  ResolvesTo C c path userId userType db source dest m1 m2 ->
  parseDestinationPath C (hdr_Destination c) <> Some path ->
  id m1 = id m2 ->
  resolve C c path userId userType (db, log) =
  let depth := Js.or_else (hdr_Depth c) "infinity" in
  if negb (String.eqb depth "0") && negb (String.eqb depth "infinity")
  then (Returned invalidDepth, (db, log))
  else
    match selectS3Config C db (storage_config_id m1) with
    | Err e => (Thrown e, (db, log))
    | Ok None => (Returned configMissing, (db, log))
    | Ok (Some cfg) =>
        match createS3Client C db cfg with
        | Err e => (Thrown e, (db, log))
        | Ok _ =>
            (Normal
               {| mount := m1; s3Config := cfg; depth := depth;
                  isDirectory := Js.endsWith path "/";
                  sourceS3SubPath :=
                    normalizeS3SubPath C (mr_subPath source) cfg
                      (Js.endsWith path "/");
                  destS3SubPath :=
                    normalizeS3SubPath C (mr_subPath dest) cfg
                      (Js.endsWith path "/");
                  allowOverwrite :=
                    negb (bool_decide (hdr_Overwrite c = Some "F")) |},
             (db, log))
        end
    end.
Proof.
  intros (destPath & Hs & Hse & Hsm & Hp & Hne & Hd & Hdr & Hde & Hdm) Hdiff Hid.
  pose proof (truthy_nonempty _ Hne) as Ht.
  assert (Hpd : String.eqb path destPath = false)
    by (apply String.eqb_neq; congruence).
  assert (Hmm : String.eqb (id m1) (id m2) = true)
    by (apply String.eqb_eq; exact Hid).
  unfold resolve, bind, read, when, mountOf, ret, return_.
  repeat (stepm; first [rewrite Hs | rewrite Hse | rewrite Hp | rewrite Ht
                       | rewrite Hpd | rewrite Hd | rewrite Hdr | rewrite Hde
                       | rewrite Hsm | rewrite Hdm | rewrite Hmm]).
  stepm. cbv zeta.
  destruct (negb (String.eqb (Js.or_else (hdr_Depth c) "infinity") "0") &&
            negb (String.eqb (Js.or_else (hdr_Depth c) "infinity") "infinity"));
    [reflexivity |].
  stepm.
  destruct (selectS3Config C db (storage_config_id m1)) as [[cfg |] | e];
    try reflexivity.
  stepm.
  destruct (createS3Client C db cfg) as [[] | e]; reflexivity.
Qed.

End Resolve.

(** ** What [transfer] can do

    The outside calls [transfer] can make for a plan, and the responses it
    can return early. *)

Inductive TransferEvent (p : Plan) : Event -> Prop :=
| TE_checkParent :
    TransferEvent p
      (ECheckDirectoryExists (bucket_name (s3Config p))
         (destParentPathOf (destS3SubPath p)))
| TE_putParent :
    TransferEvent p
      (ESend (PutObjectCommand (bucket_name (s3Config p))
                (destParentPathOf (destS3SubPath p)) ""
                (Some "application/x-directory") None))
| TE_headDest :
    TransferEvent p
      (ESend (HeadObjectCommand (bucket_name (s3Config p)) (destS3SubPath p)))
| TE_putDest :
    isDirectory p = true ->
    TransferEvent p (ESend (putEmpty (s3Config p) (destS3SubPath p)))
| TE_list token :
    isDirectory p = true -> depth p <> "0" ->
    TransferEvent p
      (ESend (ListObjectsV2Command (bucket_name (s3Config p))
                (sourceS3SubPath p) token))
| TE_headSource :
    isDirectory p = false \/ depth p <> "0" ->
    TransferEvent p
      (ESend (HeadObjectCommand (bucket_name (s3Config p)) (sourceS3SubPath p)))
| TE_copyObject object :
    isDirectory p = true -> depth p <> "0" ->
    TransferEvent p
      (ESend (CopyObjectCommand (bucket_name (s3Config p))
                (copySourceOf (s3Config p) (Key object))
                (newKeyOf (sourceS3SubPath p) (destS3SubPath p) object)))
| TE_copyFile :
    isDirectory p = false ->
    TransferEvent p
      (ESend (CopyObjectCommand (bucket_name (s3Config p))
                (copySourceOf (s3Config p) (sourceS3SubPath p))
                (destS3SubPath p)))
| TE_updateParents :
    isDirectory p = false \/ depth p <> "0" ->
    TransferEvent p
      (EUpdateParentDirectoriesModifiedTime (bucket_name (s3Config p))
         (destS3SubPath p) (rootPrefixOf (s3Config p)))
| TE_clearCache :
    TransferEvent p
      (EClearCache (destS3SubPath p) (isDirectory p) (id (mount p)))
| TE_lastUsed :
    TransferEvent p (EUpdateMountLastUsed (id (mount p))).

Inductive TransferReturn : Response -> Prop :=
| TR_precondition : TransferReturn preconditionFailed
| TR_directory : TransferReturn sourceDirectoryMissing
| TR_file : TransferReturn sourceFileMissing.

Section Transfer.
Context {World : Type} (C : Collaborators World).
Variable R : St World -> option Response -> St World -> Prop.
Hypothesis R_refl : forall s, R s None s.
Hypothesis R_trans :
  forall s1 s2 s3 x, R s1 None s2 -> R s2 x s3 -> R s1 x s3.
Variable p : Plan.
Hypothesis R_return : forall r s, TransferReturn r -> R s (Some r) s.
Hypothesis R_call :
  forall ev w w' log,
    TransferEvent p ev -> R (w, log) None (w', (log ++ [ev])%list).

Ltac keeps_call :=
  first
    [ apply Keeps_call; intros; apply R_call; constructor; assumption
    | apply Keeps_return; intros; apply R_return; constructor ].

Lemma listObjects_Keeps fuel objects token :
  isDirectory p = true -> depth p <> "0" ->
  Keeps R (listObjects C fuel (s3Config p) (sourceS3SubPath p) objects token).
Proof.
  intros Hdir Hdepth. revert objects token.
  induction fuel as [| fuel IH]; intros objects token; simpl.
  - apply Keeps_diverge; assumption.
  - unfold s3. repeat first [keeps_step | keeps_call | apply IH].
Qed.

Lemma copyObjects_Keeps objects :
  isDirectory p = true -> depth p <> "0" ->
  Keeps R (copyObjects C (s3Config p) (sourceS3SubPath p) (destS3SubPath p)
             objects).
Proof.
  intros Hdir Hdepth.
  induction objects as [| object rest IH]; simpl.
  - apply Keeps_ret; assumption.
  - unfold s3. repeat first [keeps_step | keeps_call | apply IH].
Qed.

Lemma prologue_Keeps : Keeps R (prologue C p).
Proof.
  unfold prologue, ensureDestParent, headDest, s3.
  repeat first [keeps_step | keeps_call].
Qed.

Lemma dispatch_Keeps fuel : Keeps R (dispatch C fuel p).
Proof.
  unfold dispatch.
  apply Keeps_bind; [assumption | | intros _].
  - destruct (isDirectory p) eqn:Hdir.
    + unfold copyDirectory.
      destruct (String.eqb (depth p) "0") eqn:Hdepth.
      * unfold s3, clearCache. rewrite <- Hdir.
        repeat first [keeps_step | keeps_call].
      * apply String.eqb_neq in Hdepth.
        apply Keeps_bind; [assumption | | intros objects].
        { apply listObjects_Keeps; assumption. }
        destruct (length objects =? 0)%nat.
        -- unfold s3, clearCache. rewrite <- Hdir.
           repeat first [keeps_step | keeps_call].
           all: first [ apply Keeps_call; intros; apply R_call; rewrite ?Hdir;
                        constructor; auto
                      | apply Keeps_return; intros; apply R_return; constructor ].
        -- apply Keeps_bind; [assumption | | intros _].
           { apply copyObjects_Keeps; assumption. }
           unfold updateParents, clearCache. rewrite <- Hdir.
           repeat first [keeps_step | keeps_call].
           all: apply Keeps_call; intros; apply R_call; constructor; auto.
    + unfold copyFile, s3, updateParents, clearCache. rewrite <- Hdir.
      repeat first [keeps_step | keeps_call].
      all: first [ apply Keeps_call; intros; apply R_call; rewrite ?Hdir;
                   constructor; auto
                 | apply Keeps_return; intros; apply R_return; constructor ].
  - repeat first [keeps_step | keeps_call].
Qed.

Lemma transfer_Keeps fuel : Keeps R (transfer C fuel p).
Proof.
  unfold transfer.
  apply Keeps_bind; [assumption | | intros _].
  - apply prologue_Keeps.
  - apply dispatch_Keeps.
Qed.

End Transfer.

(** ** Properties of the handler *)

Section Gates.
Context {World : Type} (C : Collaborators World).

Definition crossMount : Response :=
  {| body := Some "不支持在不同挂载点之间复制"; status := 502;
     headers := textPlain |}.

(** C5.  When the source path and the destination path resolve to two
    different mounts, the handler answers 502 without any outside call:
    the log is empty and the world is the one it was given.  Nothing is
    asked of the Depth or Overwrite headers, of the configuration or of
    the objects. *)
Theorem cross_mount_is_502 (fuel : nat) (c : Request)
    (path userId userType : string) (db : World)
    (source dest : MountResult) (m1 m2 : Mount) :
  ResolvesTo C c path userId userType db source dest m1 m2 ->
  id m1 <> id m2 ->
  handleCopy C fuel c path userId userType db = (Some crossMount, db, []).
Proof.
  intros (destPath & Hs & Hse & Hsm & Hp & Hne & Hd & Hdr & Hde & Hdm) Hid.
  unfold handleCopy, handleCopy_try, resolve.
  pose proof (truthy_nonempty _ Hne) as Ht.
  assert (Hpd : String.eqb path destPath = false).
  { apply String.eqb_neq. intros ->. congruence. }
  pose proof (eqb_false_of_neq _ _ Hid) as Hmm.
  unfold bind, read, when, mountOf, ret, return_.
  repeat (stepm; first [rewrite Hs | rewrite Hse | rewrite Hp | rewrite Ht
                       | rewrite Hpd | rewrite Hd | rewrite Hdr | rewrite Hde
                       | rewrite Hsm | rewrite Hdm | rewrite Hmm]).
  reflexivity.
Qed.

(** C7, as amended.  When the source mount is found without error and
    the parsed Destination path equals the source path, the handler
    answers 400 without any outside call.  (When the source lookup
    reports an error, line 25 answers with that error first.) *)
Theorem same_path_is_400 (fuel : nat) (c : Request)
    (path userId userType : string) (db : World) (source : MountResult) :
  findMountPointByPath C db path userId userType "operation" = Ok source ->
  mr_error source = None ->
  parseDestinationPath C (hdr_Destination c) = Some path ->
  exists r,
    handleCopy C fuel c path userId userType db = (Some r, db, []) /\
    status r = 400.
Proof.
  intros Hs Hse Hp.
  unfold handleCopy, handleCopy_try, resolve.
  unfold bind, read, when, mountOf, ret, return_.
  stepm. rewrite Hs, Hse, Hp.
  destruct (Js.truthy (Some path)) eqn:Ht; stepm.
  - rewrite String.eqb_refl. eexists. split; reflexivity.
  - eexists. split; reflexivity.
Qed.

Definition setDepth (d : option string) (c : Request) : Request :=
  {| hdr_Destination := hdr_Destination c; hdr_Depth := d;
     hdr_Overwrite := hdr_Overwrite c |}.

(** The responses [transfer] returns early are the 412 and the two 404. *)
Lemma transfer_returns fuel p s r s' :
  transfer C fuel p s = (Returned r, s') -> TransferReturn r.
Proof.
  intros H.
  pose (R := fun (_ : St World) (x : option Response) (_ : St World) =>
               forall r, x = Some r -> TransferReturn r).
  assert (HK : Keeps R (transfer C fuel p)).
  { apply transfer_Keeps; unfold R.
    - intros ? ? [=].
    - intros s1 s2 s3 x _ Hx. exact Hx.
    - intros r0 s0 Hr r1 [= <-]. exact Hr.
    - intros ? ? ? ? _ ? [=]. }
  specialize (HK s). rewrite H in HK. apply HK. reflexivity.
Qed.

(** C9.  Past the mount gates (both paths resolve to the same mount and
    the destination path is not the source path):
    a request without a Depth header is handled exactly as one with
    [Depth: infinity]; an early [return] with status 400 happens only
    for an explicit Depth other than "0" and "infinity"; and every
    explicit non-empty Depth other than those two is answered 400
    without any outside call. *)
Theorem absent_depth_is_infinity (fuel : nat) (c : Request)
    (path userId userType : string) (db : World)
    (source dest : MountResult) (m1 m2 : Mount) :
  ResolvesTo C c path userId userType db source dest m1 m2 ->
  parseDestinationPath C (hdr_Destination c) <> Some path ->
  id m1 = id m2 ->
  (hdr_Depth c = None ->
   handleCopy C fuel c path userId userType db =
   handleCopy C fuel (setDepth (Some "infinity") c) path userId userType db) /\
  (forall r s',
     handleCopy_try C fuel c path userId userType (db, []) = (Returned r, s') ->
     status r = 400 ->
     exists d, hdr_Depth c = Some d /\ d <> "" /\ d <> "0" /\ d <> "infinity") /\
  (forall d,
     hdr_Depth c = Some d -> d <> "" -> d <> "0" -> d <> "infinity" ->
     handleCopy C fuel c path userId userType db = (Some invalidDepth, db, [])).
Proof.
  intros Hres Hdiff Hid. split; [| split].
  - intros Hnone. destruct c as [dst dep ovw]. simpl in Hnone. subst dep.
    reflexivity.
  - intros r s' Hrun Hst.
    unfold handleCopy_try, bind in Hrun.
    rewrite (resolve_same_mount C _ _ _ _ _ _ _ _ _ _ Hres Hdiff Hid) in Hrun.
    cbv zeta in Hrun.
    destruct (negb (String.eqb (Js.or_else (hdr_Depth c) "infinity") "0") &&
              negb (String.eqb (Js.or_else (hdr_Depth c) "infinity") "infinity"))
      eqn:Hgate.
    + apply andb_prop in Hgate as [H0 Hinf].
      apply negb_true_iff, String.eqb_neq in H0.
      apply negb_true_iff, String.eqb_neq in Hinf.
      destruct (hdr_Depth c) as [d |]; simpl in *; [| congruence].
      exists d. destruct (String.eqb d "") eqn:He; [congruence |].
      apply String.eqb_neq in He. auto.
    + destruct (selectS3Config C db (storage_config_id m1)) as [[cfg |] | e].
      * destruct (createS3Client C db cfg) as [[] | e].
        -- match type of Hrun with
           | context [transfer C fuel ?p ?s] =>
               destruct (transfer C fuel p s) as [[a | r0 | e |] s0] eqn:Ht
           end; try discriminate.
           injection Hrun as -> _.
           apply transfer_returns in Ht.
           destruct Ht; simpl in Hst; discriminate.
        -- discriminate.
      * injection Hrun as <- _. simpl in Hst. discriminate.
      * discriminate.
  - intros d Hd He H0 Hinf.
    unfold handleCopy, handleCopy_try, bind.
    rewrite (resolve_same_mount C _ _ _ _ _ _ _ _ _ _ Hres Hdiff Hid).
    cbv zeta. rewrite Hd. simpl Js.or_else.
    rewrite (eqb_false_of_neq _ _ He), (eqb_false_of_neq _ _ H0),
      (eqb_false_of_neq _ _ Hinf).
    reflexivity.
Qed.




End Gates.

Section Effects.
Context {World : Type} (C : Collaborators World).

(** The response, world and log [handleCopy] makes of a finished run. *)
Definition finish (x : Outcome Response * St World)
    : option Response * World * list Event :=
  match x with
  | (Normal r, (w, log)) => (Some r, w, log)
  | (Returned r, (w, log)) => (Some r, w, log)
  | (Thrown error, (w, log)) =>
      (Some (handleWebDAVError C "COPY" error false false), w, log)
  | (Diverged, (w, log)) => (None, w, log)
  end.

Lemma handleCopy_unfold fuel c path userId userType db :
  handleCopy C fuel c path userId userType db =
  match fst (resolve C c path userId userType (db, [])) with
  | Normal p => finish (transfer C fuel p (db, []))
  | Returned r => (Some r, db, [])
  | Thrown error => (Some (handleWebDAVError C "COPY" error false false), db, [])
  | Diverged => (None, db, [])
  end.
Proof.
  unfold handleCopy, handleCopy_try, bind.
  pose proof (resolve_pure C c path userId userType (db, [])) as Hpure.
  destruct (resolve C c path userId userType (db, [])) as [o s1].
  simpl in Hpure. subst s1. simpl.
  destruct o as [p | r | e |]; try reflexivity.
Qed.

Lemma finish_log x : snd (finish x) = snd (snd x).
Proof. destruct x as [[r | r | e |] [w log]]; reflexivity. Qed.

(** Every outside call of [transfer] is one of [TransferEvent]. *)
Lemma transfer_log fuel p w log :
  exists evs,
    snd (snd (transfer C fuel p (w, log))) = (log ++ evs)%list /\
    Forall (TransferEvent p) evs.
Proof.
  pose (R := fun (s1 : St World) (_ : option Response) (s2 : St World) =>
               exists evs, snd s2 = (snd s1 ++ evs)%list /\
                           Forall (TransferEvent p) evs).
  assert (HK : Keeps R (transfer C fuel p)).
  { apply transfer_Keeps; unfold R.
    - intros s. exists []. split; [now rewrite app_nil_r | constructor].
    - intros s1 s2 s3 x (e1 & H1 & F1) (e2 & H2 & F2).
      exists (e1 ++ e2)%list. split.
      + rewrite H2, H1. now rewrite <- app_assoc.
      + apply Forall_app; split; assumption.
    - intros r s _. exists []. split; [now rewrite app_nil_r | constructor].
    - intros ev w0 w' log0 Hev. exists [ev]. split; [reflexivity |].
      constructor; [exact Hev | constructor]. }
  exact (HK (w, log)).
Qed.

Lemma handleCopy_log fuel c path userId userType db ev :
  In ev (snd (handleCopy C fuel c path userId userType db)) ->
  exists p s',
    resolve C c path userId userType (db, []) = (Normal p, s') /\
    TransferEvent p ev.
Proof.
  rewrite handleCopy_unfold.
  destruct (resolve C c path userId userType (db, [])) as [o s'] eqn:Hres.
  simpl fst.
  destruct o as [p | r | e |]; try (simpl; contradiction).
  rewrite finish_log.
  destruct (transfer_log fuel p db []) as (evs & Hlog & Hall).
  rewrite Hlog. simpl. intros Hin.
  exists p, s'. split; [reflexivity |].
  rewrite Forall_forall in Hall. apply Hall.
  apply list_elem_of_In. exact Hin.
Qed.

(** The key an outside call writes an object to. *)
Definition writtenKey (ev : Event) : option string :=
  match ev with
  | ESend (PutObjectCommand _ key _ _ _) => Some key
  | ESend (CopyObjectCommand _ _ key) => Some key
  | _ => None
  end.

Lemma destParent_prefix d : String.prefix (destParentPathOf d) d = true.
Proof. apply js_substring_to. Qed.

Lemma newKey_prefix src dst object :
  String.prefix dst (newKeyOf src dst object) = true.
Proof. apply prefix_app. Qed.

(** C8, as amended.  Every outside call of the handler is one of the
    calls of [TransferEvent] for the plan the request resolves to; among
    them is no delete.  Every object it writes (a put or a copy) goes to
    the destination key, to a key that extends it, or to the parent key
    worked out in line 113; and when neither of the source key and the
    destination key is a prefix of the other, no written key lies under
    the source key. *)
Theorem copy_writes_only_at_destination (fuel : nat) (c : Request)
    (path userId userType : string) (db : World) (ev : Event) :
  In ev (snd (handleCopy C fuel c path userId userType db)) ->
  exists p s',
    resolve C c path userId userType (db, []) = (Normal p, s') /\
    TransferEvent p ev /\
    forall k,
      writtenKey ev = Some k ->
      (String.prefix (destS3SubPath p) k = true \/
       k = destParentPathOf (destS3SubPath p)) /\
      (String.prefix (sourceS3SubPath p) (destS3SubPath p) = false ->
       String.prefix (destS3SubPath p) (sourceS3SubPath p) = false ->
       String.prefix (sourceS3SubPath p) k = false).
Proof.
  intros Hin.
  destruct (handleCopy_log _ _ _ _ _ _ _ Hin) as (p & s' & Hres & Hev).
  exists p, s'. split; [exact Hres |]. split; [exact Hev |].
  intros k Hk.
  assert (Hunder : String.prefix (destS3SubPath p) k = true \/
                   k = destParentPathOf (destS3SubPath p)).
  { destruct Hev; simpl in Hk; try discriminate;
      injection Hk as <-.
    - right. reflexivity.
    - left. apply prefix_refl.
    - left. apply newKey_prefix.
    - left. apply prefix_refl. }
  split; [exact Hunder |].
  intros Hsd Hds.
  destruct (String.prefix (sourceS3SubPath p) k) eqn:Hsk; [| reflexivity].
  exfalso. destruct Hunder as [Hdk | ->].
  - destruct (prefix_comparable _ _ _ Hsk Hdk); congruence.
  - pose proof (prefix_trans _ _ _ Hsk (destParent_prefix _)). congruence.
Qed.

Definition isUpdateParents (ev : Event) : bool :=
  match ev with
  | EUpdateParentDirectoriesModifiedTime _ _ _ => true
  | _ => false
  end.

(** X19.  For a directory copied with [Depth: 0] the timestamp propagation
    is never called, whatever the outcome: no
    [updateParentDirectoriesModifiedTime] is in the log. *)
Theorem depth0_never_propagates (fuel : nat) (c : Request)
    (path userId userType : string) (db : World) :
  Js.endsWith path "/" = true ->
  hdr_Depth c = Some "0" ->
  Forall (fun ev => isUpdateParents ev = false)
         (snd (handleCopy C fuel c path userId userType db)).
Proof.
  intros Hdir Hdepth. apply Forall_forall. intros ev Hin.
  apply list_elem_of_In in Hin.
  destruct (handleCopy_log _ _ _ _ _ _ _ Hin) as (p & s' & Hres & Hev).
  apply resolve_Normal in Hres as (? & ? & ? & ? & _ & _ & _ & _ & _ & _ & _ & _ & Heq).
  assert (Hp : isDirectory p = true /\ depth p = "0").
  { rewrite Heq. simpl. rewrite Hdir, Hdepth. split; reflexivity. }
  destruct Hp as [Hpd Hp0].
  destruct Hev as [| | | ? | ? ? ? | ? | ? ? ? | ? | Hor | |]; try reflexivity.
  destruct Hor; congruence.
Qed.

End Effects.

(** ** The paths through [transfer] *)

Ltac run_unfold :=
  unfold transfer, prologue, dispatch, ensureDestParent, headDest,
    copyDirectory, copyFile, updateParents, clearCache, s3,
    bind, call, read, when, try_catch, ret, return_, throw, diverge.

Ltac run_step :=
  match goal with
  | |- context [match ?x with _ => _ end] =>
      lazymatch x with
      | context [match _ with _ => _ end] => fail
      | _ => destruct x eqn:?
      end
  end.

Section Paths.
Context {World : Type} (C : Collaborators World).

Definition checkParentEvent (p : Plan) : Event :=
  ECheckDirectoryExists (bucket_name (s3Config p))
    (destParentPathOf (destS3SubPath p)).

Definition putParentEvent (p : Plan) : Event :=
  ESend (PutObjectCommand (bucket_name (s3Config p))
           (destParentPathOf (destS3SubPath p)) ""
           (Some "application/x-directory") None).

Definition headDestEvent (p : Plan) : Event :=
  ESend (HeadObjectCommand (bucket_name (s3Config p)) (destS3SubPath p)).

Definition putDestEvent (p : Plan) : Event :=
  ESend (putEmpty (s3Config p) (destS3SubPath p)).

Definition clearDirectoryEvent (p : Plan) : Event :=
  EClearCache (destS3SubPath p) true (id (mount p)).

Definition lastUsedEvent (p : Plan) : Event :=
  EUpdateMountLastUsed (id (mount p)).

(** The calls of lines 111-154, in order. *)
Inductive PrologueLog (p : Plan) : list Event -> Prop :=
| PL_noParent : PrologueLog p [headDestEvent p]
| PL_checkOnly : PrologueLog p [checkParentEvent p]
| PL_checked : PrologueLog p [checkParentEvent p; headDestEvent p]
| PL_created :
    PrologueLog p [checkParentEvent p; putParentEvent p; headDestEvent p].

(** The calls of lines 167-180 and 300, in order. *)
Inductive Depth0Log (p : Plan) : list Event -> Prop :=
| D0_none : Depth0Log p []
| D0_put : Depth0Log p [putDestEvent p]
| D0_putClear : Depth0Log p [putDestEvent p; clearDirectoryEvent p]
| D0_all :
    Depth0Log p [putDestEvent p; clearDirectoryEvent p; lastUsedEvent p].

Ltac close_log :=
  eexists; split; [reflexivity |];
  split; [constructor |]; split; [constructor |];
  let Heq := fresh in
  intros ? Heq;
  first [discriminate Heq | injection Heq as <-; split; reflexivity].

Ltac split_log p :=
  first
    [ exists [checkParentEvent p; putParentEvent p; headDestEvent p]; close_log
    | exists [checkParentEvent p; headDestEvent p]; close_log
    | exists [headDestEvent p]; close_log
    | exists [checkParentEvent p]; close_log ].

Lemma depth0_transfer fuel p w :
  isDirectory p = true -> depth p = "0" ->
  exists pre post,
    snd (snd (transfer C fuel p (w, []))) = (pre ++ post)%list /\
    PrologueLog p pre /\ Depth0Log p post /\
    (forall r, fst (transfer C fuel p (w, [])) = Normal r ->
               r = created /\
               post = [putDestEvent p; clearDirectoryEvent p; lastUsedEvent p]).
Proof.
  intros Hdir Hdepth. run_unfold. rewrite Hdir, Hdepth.
  change (String.eqb "0" "0") with true. cbv iota.
  repeat (run_step; cbn [fst snd negb andb app]).
  all: solve [split_log p].
Qed.

(** For a directory copied with [Depth: 0] the outside calls are, in
    order: the calls of the parent check and overwrite check (at most one
    put, of a directory marker at the parent key of line 113), then at
    most the put of the zero-length object at the destination key, the
    cache call and the last-used call.  No listing and no copy is among
    them, and a run that ends in success has made that one put of the
    transfer. *)
Theorem depth0_puts_only_the_marker (fuel : nat) (c : Request)
    (path userId userType : string) (db : World) (p : Plan) (s' : St World) :
  resolve C c path userId userType (db, []) = (Normal p, s') ->
  isDirectory p = true ->
  depth p = "0" ->
  exists pre post,
    snd (handleCopy C fuel c path userId userType db) = (pre ++ post)%list /\
    PrologueLog p pre /\ Depth0Log p post /\
    (forall r s'',
       handleCopy_try C fuel c path userId userType (db, []) = (Normal r, s'') ->
       r = created /\
       post = [putDestEvent p; clearDirectoryEvent p; lastUsedEvent p]).
Proof.
  intros Hres Hdir Hdepth.
  destruct (depth0_transfer fuel p db Hdir Hdepth)
    as (pre & post & Hlog & Hpre & Hpost & Hok).
  exists pre, post.
  pose proof (resolve_pure C c path userId userType (db, [])) as Hpure.
  rewrite Hres in Hpure. simpl in Hpure. subst s'.
  split; [| split; [exact Hpre | split; [exact Hpost |]]].
  - rewrite handleCopy_unfold, Hres. cbn [fst]. cbv iota.
    rewrite finish_log. exact Hlog.
  - intros r s'' Hrun. apply Hok.
    unfold handleCopy_try, bind in Hrun. rewrite Hres in Hrun.
    rewrite Hrun. reflexivity.
Qed.

(** The parent check of line 114 reports the parent present. *)
Definition ParentPresent (p : Plan) (w w1 : World) : Prop :=
  if Js.includes (destS3SubPath p) "/"
  then checkDirectoryExists C (bucket_name (s3Config p))
         (destParentPathOf (destS3SubPath p)) w = (Ok true, w1)
  else w1 = w.

Definition parentCheck (p : Plan) : list Event :=
  if Js.includes (destS3SubPath p) "/" then [checkParentEvent p] else [].

Lemma prologue_existing p w w1 w2 out log :
  ParentPresent p w w1 ->
  send C (HeadObjectCommand (bucket_name (s3Config p)) (destS3SubPath p)) w1
    = (Ok out, w2) ->
  prologue C p (w, log) =
  (if negb (allowOverwrite p) then Returned preconditionFailed else Normal tt,
   (w2, (log ++ parentCheck p ++ [headDestEvent p])%list)).
Proof.
  unfold ParentPresent, parentCheck. intros Hparent Hhead. run_unfold.
  destruct (Js.includes (destS3SubPath p) "/").
  - rewrite Hparent. cbn [negb fst snd]. rewrite Hhead. cbn [andb].
    rewrite <- app_assoc.
    destruct (negb (allowOverwrite p)); reflexivity.
  - subst w1. rewrite Hhead. cbn [andb app].
    destruct (negb (allowOverwrite p)); reflexivity.
Qed.

(** C3.  For a request that passes the gates of [resolve] and whose
    destination key exists (the parent check reports the parent present
    and the head of the destination key succeeds): with [Overwrite: F]
    the answer is 412 and the only outside calls made are that check and
    that head, so nothing is put or copied; with any other Overwrite
    value, or none, the run goes on with the transfer. *)
Theorem overwrite_F_existing_destination (fuel : nat) (c : Request)
    (path userId userType : string) (db w1 w2 : World) (p : Plan)
    (out : Output) :
  resolve C c path userId userType (db, []) = (Normal p, (db, [])) ->
  ParentPresent p db w1 ->
  send C (HeadObjectCommand (bucket_name (s3Config p)) (destS3SubPath p)) w1
    = (Ok out, w2) ->
  (hdr_Overwrite c = Some "F" ->
   handleCopy C fuel c path userId userType db =
   (Some preconditionFailed, w2, (parentCheck p ++ [headDestEvent p])%list)) /\
  (hdr_Overwrite c <> Some "F" ->
   handleCopy C fuel c path userId userType db =
   finish C (dispatch C fuel p (w2, (parentCheck p ++ [headDestEvent p])%list))).
Proof.
  intros Hres Hparent Hhead.
  pose proof (prologue_existing p db w1 w2 out [] Hparent Hhead) as Hpro.
  assert (Hallow : allowOverwrite p = negb (bool_decide (hdr_Overwrite c = Some "F"))).
  { apply resolve_Normal in Hres
      as (? & ? & ? & ? & _ & _ & _ & _ & _ & _ & _ & _ & Heq).
    rewrite Heq. reflexivity. }
  split; intros Hov; rewrite handleCopy_unfold, Hres; cbn [fst]; cbv iota;
    unfold transfer, bind; rewrite Hpro, Hallow.
  - rewrite bool_decide_eq_true_2 by exact Hov. reflexivity.
  - rewrite bool_decide_eq_false_2 by exact Hov. reflexivity.
Qed.

Definition headSourceEvent (p : Plan) : Event :=
  ESend (HeadObjectCommand (bucket_name (s3Config p)) (sourceS3SubPath p)).

(** C4.  For a recursive directory copy that reaches the transfer and
    whose listing yields no object, the handler heads the bare source
    key.  When that head fails with 404 the answer is the 404 "source
    directory does not exist"; when it succeeds (and the put, the cache
    call and the last-used call do), the zero-length object is put at
    the destination key and the answer is 201. *)
Theorem empty_listing_falls_back_to_head (fuel : nat) (c : Request)
    (path userId userType : string) (db w2 w3 : World) (p : Plan)
    (log2 log3 : list Event) :
  resolve C c path userId userType (db, []) = (Normal p, (db, [])) ->
  isDirectory p = true ->
  depth p <> "0" ->
  prologue C p (db, []) = (Normal tt, (w2, log2)) ->
  listObjects C fuel (s3Config p) (sourceS3SubPath p) [] None (w2, log2)
    = (Normal [], (w3, log3)) ->
  (forall e w4,
     send C (HeadObjectCommand (bucket_name (s3Config p)) (sourceS3SubPath p)) w3
       = (Err e, w4) ->
     is404 e = true ->
     handleCopy C fuel c path userId userType db =
     (Some sourceDirectoryMissing, w4, (log3 ++ [headSourceEvent p])%list)) /\
  (forall out out' w4 w5 w6 w7,
     send C (HeadObjectCommand (bucket_name (s3Config p)) (sourceS3SubPath p)) w3
       = (Ok out, w4) ->
     send C (putEmpty (s3Config p) (destS3SubPath p)) w4 = (Ok out', w5) ->
     clearCacheAfterWebDAVOperation C (destS3SubPath p) (s3Config p) true
       (id (mount p)) w5 = (Ok tt, w6) ->
     updateMountLastUsed C (id (mount p)) w6 = (Ok tt, w7) ->
     handleCopy C fuel c path userId userType db =
     (Some created, w7,
      (log3 ++ [headSourceEvent p; putDestEvent p; clearDirectoryEvent p;
                lastUsedEvent p])%list)).
Proof.
  intros Hres Hdir Hdepth Hpro Hlist.
  apply eqb_false_of_neq in Hdepth.
  split.
  - intros e w4 Hhead H404.
    rewrite handleCopy_unfold, Hres. cbn [fst]. cbv iota.
    unfold transfer, bind at 1. rewrite Hpro.
    unfold dispatch, copyDirectory. rewrite Hdir, Hdepth.
    unfold bind. rewrite Hlist. cbn [length Nat.eqb].
    unfold try_catch, bind, s3, call. rewrite Hhead, H404. reflexivity.
  - intros out out' w4 w5 w6 w7 Hhead Hput Hclear Hused.
    rewrite handleCopy_unfold, Hres. cbn [fst]. cbv iota.
    unfold transfer, bind at 1. rewrite Hpro.
    unfold dispatch, copyDirectory. rewrite Hdir, Hdepth.
    unfold bind. rewrite Hlist. cbn [length Nat.eqb].
    unfold try_catch, bind, s3, clearCache, call.
    rewrite Hhead, Hput, Hclear, Hused. cbn [finish ret].
    rewrite <- !app_assoc. reflexivity.
Qed.

Definition copyObjectEvent (p : Plan) (object : S3Object) : Event :=
  ESend (CopyObjectCommand (bucket_name (s3Config p))
           (copySourceOf (s3Config p) (Key object))
           (newKeyOf (sourceS3SubPath p) (destS3SubPath p) object)).

(** Lines 237-251, for any collaborators: the copies are sent in the
    order of the listing, each to its [newKey], up to the first that
    throws; a loop that ends normally has sent one for every object. *)
Lemma copyObjects_sends_in_order p objects w log :
  exists n,
    snd (snd (copyObjects C (s3Config p) (sourceS3SubPath p) (destS3SubPath p)
                objects (w, log)))
    = (log ++ List.map (copyObjectEvent p) (take n objects))%list /\
    (fst (copyObjects C (s3Config p) (sourceS3SubPath p) (destS3SubPath p)
            objects (w, log)) = Normal tt ->
     n = length objects).
Proof.
  revert w log. induction objects as [| object rest IH]; intros w log.
  - exists 0%nat. split; [cbn; now rewrite app_nil_r | reflexivity].
  - cbn [copyObjects]. unfold bind at 1 2, s3, call.
    destruct (send C _ w) as [[out | e] w1].
    + destruct (IH w1 (log ++ [copyObjectEvent p object])%list) as (n & Hlog & Hn).
      exists (S n). split.
      * unfold copyObjectEvent in Hlog at 1. rewrite Hlog.
        cbn [take List.map]. rewrite <- app_assoc. reflexivity.
      * intros Hok. cbn [length]. f_equal. apply Hn. exact Hok.
    + exists 1%nat. split; [reflexivity | discriminate].
Qed.

End Paths.

(** ** The handler on the concrete backend *)

Module BackendFacts.
Import Backend.

Lemma string_app_assoc (a b c : string) : (a ++ b) ++ c = a ++ (b ++ c).
Proof.
  induction a as [| x a IH]; [reflexivity |].
  change (String x ((a ++ b) ++ c) = String x (a ++ (b ++ c))).
  now rewrite IH.
Qed.

Lemma decode_encodeUnit c k :
  decodeURIComponent (Js.encodeUnit c k) = String c (decodeURIComponent k).
Proof. destruct c as [[] [] [] [] [] [] [] []]; reflexivity. Qed.

Lemma decode_encode s :
  decodeURIComponent (Js.encodeURIComponent s) = s.
Proof.
  induction s as [| a s IH]; [reflexivity |].
  cbn [Js.encodeURIComponent]. rewrite decode_encodeUnit, IH. reflexivity.
Qed.

Lemma stripPrefix_app p s : stripPrefix p (p ++ s) = Some s.
Proof.
  induction p as [| a p IH]; simpl; [reflexivity |].
  rewrite Ascii.eqb_refl. exact IH.
Qed.

(** The source of a copy, as the store reads it back. *)
Lemma copySource_key cfg key w :
  bucket_name cfg = bucket w ->
  stripPrefix (bucket w ++ "/") (decodeURIComponent (copySourceOf cfg key))
  = Some key.
Proof.
  intros Hb. unfold copySourceOf. rewrite decode_encode, Hb.
  rewrite <- string_app_assoc. apply stripPrefix_app.
Qed.

Lemma elem_of_keysWithPrefix (o : gmap string Object) prefix k :
  In k (keysWithPrefix o prefix) <->
  is_Some (o !! k) /\ String.prefix prefix k = true.
Proof.
  unfold keysWithPrefix, sortedKeys. rewrite filter_In.
  rewrite <- list_elem_of_In, merge_sort_Permutation.
  rewrite list_elem_of_fmap. split.
  - intros [([k' v] & -> & Hin) Hp]. split; [| exact Hp].
    apply elem_of_map_to_list in Hin. exists v. exact Hin.
  - intros [[v Hv] Hp]. split; [| exact Hp].
    exists (k, v). split; [reflexivity |].
    apply elem_of_map_to_list. exact Hv.
Qed.

Lemma length_tokenOf n : String.length (tokenOf n) = n.
Proof. induction n as [| n IH]; simpl; [reflexivity | now rewrite IH]. Qed.

Lemma truthy_tokenOf n : (0 < n)%nat -> Js.truthy (Some (tokenOf n)) = true.
Proof. destruct n; [lia | reflexivity]. Qed.

Lemma send_same_bucket cfg w :
  bucket_name cfg = bucket w ->
  negb (String.eqb (bucket_name cfg) (bucket w)) = false.
Proof. intros ->. now rewrite String.eqb_refl. Qed.

(** With enough fuel the paging loop returns every key under the
    prefix, and leaves the store as it was. *)
Lemma listObjects_backend fuel cfg src acc token w log :
  bucket_name cfg = bucket w ->
  (1 <= maxKeys w)%nat ->
  (length (keysWithPrefix (objects w) src) - offsetOf token < fuel)%nat ->
  exists evs,
    listObjects collaborators fuel cfg src acc token (w, log) =
    (Normal (acc ++ List.map Build_S3Object
                      (drop (offsetOf token) (keysWithPrefix (objects w) src))),
     (w, log ++ ESend (ListObjectsV2Command (bucket_name cfg) src token) :: evs))%list.
Proof.
  intros Hb Hmax. revert acc token log.
  induction fuel as [| fuel IH]; intros acc token log Hfuel; [lia |].
  cbn [listObjects]. unfold bind, s3, call.
  cbn [send collaborators s3_send].
  rewrite (send_same_bucket _ _ Hb). cbn [listPage Contents NextContinuationToken].
  set (all := keysWithPrefix (objects w) src) in *.
  set (n := offsetOf token) in *.
  assert (Hacc :
    match
      match take (maxKeys w) (drop n all) with
      | [] => None
      | _ :: _ => Some (List.map Build_S3Object (take (maxKeys w) (drop n all)))
      end
    with
    | Some contents => (acc ++ contents)%list
    | None => acc
    end = (acc ++ List.map Build_S3Object (take (maxKeys w) (drop n all)))%list).
  { destruct (take (maxKeys w) (drop n all)); [now rewrite app_nil_r | reflexivity]. }
  rewrite Hacc. clear Hacc.
  destruct (n + maxKeys w <? length all)%nat eqn:Hmore.
  - apply Nat.ltb_lt in Hmore.
    rewrite truthy_tokenOf by lia.
    destruct (IH (acc ++ List.map Build_S3Object (take (maxKeys w) (drop n all)))%list
                (Some (tokenOf (n + maxKeys w)))
                (log ++ [ESend (ListObjectsV2Command (bucket_name cfg) src token)])%list)
      as (evs & Hrun).
    { cbn [offsetOf]. rewrite length_tokenOf. fold all. lia. }
    rewrite Hrun. cbn [offsetOf]. rewrite length_tokenOf. fold all.
    exists (ESend (ListObjectsV2Command (bucket_name cfg) src
                     (Some (tokenOf (n + maxKeys w)))) :: evs).
    rewrite <- (app_assoc log), <- (app_assoc acc), <- map_app.
    rewrite <- drop_drop, take_drop. reflexivity.
  - apply Nat.ltb_ge in Hmore. cbn [Js.truthy]. unfold ret.
    exists []. rewrite take_ge by (rewrite length_drop; lia). reflexivity.
Qed.

Definition copyEvent (cfg : S3Config) (src dst key : string) : Event :=
  ESend (CopyObjectCommand (bucket_name cfg) (copySourceOf cfg key)
           (newKeyOf src dst {| Key := key |})).

(** The copy loop on the store, when every listed key is present, no
    target is a listed key and distinct keys have distinct targets:
    each target ends up with the object of its key, and no other key
    changes. *)
Lemma copyObjects_backend cfg src dst ks w log :
  bucket_name cfg = bucket w ->
  (forall k, In k ks -> is_Some (objects w !! k)) ->
  (forall k k', In k ks -> In k' ks ->
     newKeyOf src dst {| Key := k' |} <> k) ->
  (forall k k', In k ks -> In k' ks ->
     newKeyOf src dst {| Key := k |} = newKeyOf src dst {| Key := k' |} ->
     k = k') ->
  exists o',
    copyObjects collaborators cfg src dst (List.map Build_S3Object ks) (w, log)
    = (Normal tt,
       (with_objects o' w, (log ++ List.map (copyEvent cfg src dst) ks)%list)) /\
    (forall k, In k ks ->
       o' !! newKeyOf src dst {| Key := k |} = objects w !! k) /\
    (forall j, (forall k, In k ks -> newKeyOf src dst {| Key := k |} <> j) ->
       o' !! j = objects w !! j).
Proof.
  intros Hb. revert w log Hb.
  induction ks as [| k ks IH]; intros w log Hb Hpresent Hfresh Hinj.
  - exists (objects w). split; [| split].
    + cbn. rewrite app_nil_r. destruct w; reflexivity.
    + intros k [].
    + reflexivity.
  - destruct (Hpresent k (or_introl eq_refl)) as [v Hv].
    set (t := newKeyOf src dst {| Key := k |}).
    set (w1 := with_objects (<[t := v]> (objects w)) w).
    destruct (IH w1 (log ++ [copyEvent cfg src dst k])%list) as (o' & Hrun & Hcopied & Hframe).
    + exact Hb.
    + intros k' Hk'. cbn [w1 with_objects objects].
      rewrite lookup_insert_ne.
      * apply Hpresent. right. exact Hk'.
      * apply Hfresh; [right; exact Hk' | left; reflexivity].
    + intros k1 k2 H1 H2. apply Hfresh; right; assumption.
    + intros k1 k2 H1 H2. apply Hinj; right; assumption.
    + exists o'. split; [| split].
      * cbn [List.map copyObjects]. unfold bind at 1, s3, call.
        cbn [send collaborators s3_send Key].
        rewrite (send_same_bucket _ _ Hb), (copySource_key _ _ _ Hb), Hv.
        fold t. fold w1.
        change (ESend (CopyObjectCommand (bucket_name cfg) (copySourceOf cfg k) t))
          with (copyEvent cfg src dst k).
        rewrite Hrun. cbn [List.map]. rewrite <- app_assoc. reflexivity.
      * intros k' [<- | Hk'].
        -- destruct (in_dec String.string_dec k ks) as [Hin | Hnot].
           ++ rewrite (Hcopied k Hin). cbn [w1 with_objects objects].
              apply lookup_insert_ne.
              apply Hfresh; left; reflexivity.
           ++ rewrite Hframe.
              ** cbn [w1 with_objects objects]. fold t.
                 rewrite lookup_insert_eq. symmetry. exact Hv.
              ** intros k' Hk' Heq. apply Hnot.
                 rewrite <- (Hinj k' k (or_intror Hk') (or_introl eq_refl) Heq).
                 exact Hk'.
        -- rewrite (Hcopied k' Hk'). cbn [w1 with_objects objects].
           apply lookup_insert_ne.
           apply Hfresh; [right; exact Hk' | left; reflexivity].
      * intros j Hj. rewrite Hframe.
        -- cbn [w1 with_objects objects]. apply lookup_insert_ne.
           apply Hj. left. reflexivity.
        -- intros k' Hk'. apply Hj. right. exact Hk'.
Qed.

Definition directoryMarker : Object :=
  {| content := ""; contentType := Some "application/x-directory" |}.

Lemma with_objects_same w : with_objects (objects w) w = w.
Proof. destruct w; reflexivity. Qed.

Lemma s3_head_backend cfg key w log :
  bucket_name cfg = bucket w ->
  s3 collaborators (HeadObjectCommand (bucket_name cfg) key) (w, log) =
  (match objects w !! key with
   | Some _ => Normal noOutput
   | None => Thrown (notFound "NotFound")
   end,
   (w, (log ++ [ESend (HeadObjectCommand (bucket_name cfg) key)])%list)).
Proof.
  intros Hb. unfold s3, call. cbn [send collaborators s3_send].
  rewrite (send_same_bucket _ _ Hb).
  destruct (objects w !! key); reflexivity.
Qed.

Lemma s3_put_backend cfg key text ctype len w log :
  bucket_name cfg = bucket w ->
  s3 collaborators (PutObjectCommand (bucket_name cfg) key text ctype len) (w, log) =
  (Normal noOutput,
   (with_objects (<[key := {| content := text; contentType := ctype |}]> (objects w)) w,
    (log ++ [ESend (PutObjectCommand (bucket_name cfg) key text ctype len)])%list)).
Proof.
  intros Hb. unfold s3, call. cbn [send collaborators s3_send].
  rewrite (send_same_bucket _ _ Hb). reflexivity.
Qed.

(** Lines 111-136 on the store: at most the parent marker is put. *)
Lemma ensureDestParent_backend cfg dst w log :
  bucket_name cfg = bucket w ->
  exists o2 log2,
    ensureDestParent collaborators cfg dst (w, log) =
    (Normal tt, (with_objects o2 w, log2)) /\
    (forall j, j <> destParentPathOf dst -> o2 !! j = objects w !! j).
Proof.
  intros Hb. unfold ensureDestParent, when.
  destruct (Js.includes dst "/").
  - unfold bind at 1, call.
    cbn [checkDirectoryExists collaborators directoryExists].
    destruct (bool_decide (is_Some (objects w !! destParentPathOf dst))
              || negb (bool_decide
                         (keysWithPrefix (objects w) (destParentPathOf dst) = []))).
    + cbn [negb]. exists (objects w). eexists.
      split; [| reflexivity]. unfold ret. rewrite with_objects_same. reflexivity.
    + cbn [negb]. unfold try_catch, bind.
      rewrite (s3_put_backend _ _ _ _ _ _ _ Hb). unfold ret.
      do 2 eexists. split; [reflexivity |].
      intros j Hj. apply lookup_insert_ne. congruence.
  - exists (objects w), log. split; [| reflexivity].
    unfold ret. rewrite with_objects_same. reflexivity.
Qed.

(** Lines 111-162 on the store: the outcome is either to go on or the
    412, and no key but the parent key has changed. *)
Lemma prologue_backend p w :
  bucket_name (s3Config p) = bucket w ->
  exists o2 log2 out,
    prologue collaborators p (w, []) = (out, (with_objects o2 w, log2)) /\
    (out = Normal tt \/
     (out = Returned preconditionFailed /\ allowOverwrite p = false)) /\
    (forall j, j <> destParentPathOf (destS3SubPath p) ->
               o2 !! j = objects w !! j).
Proof.
  intros Hb.
  destruct (ensureDestParent_backend (s3Config p) (destS3SubPath p) w [] Hb)
    as (o2 & log2 & Hpar & Hframe).
  exists o2. unfold prologue, bind at 1. rewrite Hpar.
  unfold bind at 1, headDest, try_catch, bind at 1.
  rewrite (s3_head_backend (s3Config p) _ (with_objects o2 w) log2 Hb).
  cbn [objects with_objects].
  destruct (o2 !! destS3SubPath p).
  - unfold ret, when. cbn [andb].
    destruct (allowOverwrite p); cbn [negb].
    + do 2 eexists. split; [reflexivity |]. split; [left; reflexivity | exact Hframe].
    + do 2 eexists. split; [reflexivity |].
      split; [right; split; reflexivity | exact Hframe].
  - cbn [is404 notFound httpStatusCode Z.eqb Pos.eqb negb]. unfold ret, when.
    cbn [andb].
    do 2 eexists. split; [reflexivity |]. split; [left; reflexivity | exact Hframe].
Qed.

Lemma app_inv_head_string (d r r' : string) : d ++ r = d ++ r' -> r = r'.
Proof.
  induction d as [| a d IH]; [intros H; exact H |].
  intros H. injection H as H. apply IH. exact H.
Qed.

(** Keys under the source key have distinct targets, each under the
    destination key. *)
Lemma newKey_of_suffix src dst r :
  newKeyOf src dst {| Key := src ++ r |} = dst ++ r.
Proof. unfold newKeyOf. cbn [Key]. now rewrite js_substring_from. Qed.

Lemma newKey_inj src dst k k' :
  String.prefix src k = true -> String.prefix src k' = true ->
  newKeyOf src dst {| Key := k |} = newKeyOf src dst {| Key := k' |} ->
  k = k'.
Proof.
  intros [r ->]%prefix_spec [r' ->]%prefix_spec.
  rewrite !newKey_of_suffix. intros H.
  now rewrite (app_inv_head_string _ _ _ H).
Qed.

Lemma newKey_not_under_source src dst k j :
  String.prefix src dst = false -> String.prefix dst src = false ->
  String.prefix src j = true ->
  newKeyOf src dst {| Key := k |} <> j.
Proof.
  intros Hsd Hds Hj Heq.
  pose proof (newKey_prefix src dst {| Key := k |}) as Hd.
  rewrite Heq in Hd.
  destruct (prefix_comparable _ _ _ Hj Hd); congruence.
Qed.

Lemma parent_not_under_source src dst :
  String.prefix src dst = false ->
  forall j, String.prefix src j = true -> j <> destParentPathOf dst.
Proof.
  intros Hsd j Hj ->.
  pose proof (prefix_trans _ _ _ Hj (destParent_prefix dst)). congruence.
Qed.

(** C1, as amended.  On the object store, for a recursive directory
    copy that reaches the transfer, whose source key has at least one
    object under it, and where neither of the source key and the
    destination key is a prefix of the other: with enough fuel the run
    ends; it ends in 201 when overwriting is allowed; and when it ends
    in 201, every object that was under the source key has been copied
    by a CopyObject to [destS3SubPath + key.substring(sourceS3SubPath.length)],
    that key now holds the same object, and the source object is as it
    was.  The keys come from the listing that starts without a token and
    follows the continuation tokens, whatever the page size. *)
Theorem recursive_copy_reproduces_the_source (c : Request)
    (path userId userType : string) (db : Db) (p : Plan) :
  resolve collaborators c path userId userType (db, []) = (Normal p, (db, [])) ->
  isDirectory p = true ->
  depth p <> "0" ->
  bucket_name (s3Config p) = bucket db ->
  (1 <= maxKeys db)%nat ->
  String.prefix (sourceS3SubPath p) (destS3SubPath p) = false ->
  String.prefix (destS3SubPath p) (sourceS3SubPath p) = false ->
  (exists k, is_Some (objects db !! k) /\
             String.prefix (sourceS3SubPath p) k = true) ->
  exists fuel0,
    forall fuel, (fuel0 <= fuel)%nat ->
    exists r w' log,
      handleCopy collaborators fuel c path userId userType db = (Some r, w', log) /\
      (allowOverwrite p = true -> r = created) /\
      (status r = 201 ->
       In (ESend (ListObjectsV2Command (bucket_name (s3Config p))
                    (sourceS3SubPath p) None)) log /\
       forall k v,
         objects db !! k = Some v ->
         String.prefix (sourceS3SubPath p) k = true ->
         In (copyEvent (s3Config p) (sourceS3SubPath p) (destS3SubPath p) k) log /\
         objects w' !! newKeyOf (sourceS3SubPath p) (destS3SubPath p) {| Key := k |}
           = Some v /\
         objects w' !! k = Some v).
Proof.
  intros Hres Hdir Hdepth Hb Hmax Hsd Hds (k0 & Hk0 & Hk0p).
  destruct (prologue_backend p db Hb) as (o2 & log2 & out & Hpro & Hout & Hpframe).
  pose (src := sourceS3SubPath p). pose (dst := destS3SubPath p).
  pose (ks := keysWithPrefix o2 src).
  assert (Hsame : forall j, String.prefix src j = true -> o2 !! j = objects db !! j).
  { intros j Hj. apply Hpframe. apply (parent_not_under_source src dst Hsd j Hj). }
  exists (S (length ks)). intros fuel Hfuel.
  rewrite handleCopy_unfold, Hres. cbn [fst]. cbv iota.
  unfold transfer, bind at 1. rewrite Hpro.
  destruct Hout as [-> | [-> Hallow]].
  2:{ exists preconditionFailed, (with_objects o2 db), log2.
      split; [reflexivity |]. split; [congruence | discriminate]. }
  unfold dispatch, copyDirectory. rewrite Hdir.
  rewrite (eqb_false_of_neq _ _ Hdepth).
  destruct (listObjects_backend fuel (s3Config p) src [] None
              (with_objects o2 db) log2)
    as (evs & Hlist); [exact Hb | exact Hmax | cbn; fold ks; lia |].
  set (listed :=
         (log2 ++ ESend (ListObjectsV2Command (bucket_name (s3Config p))
                           (sourceS3SubPath p) None) :: evs)%list) in *.
  change (listObjects collaborators fuel (s3Config p) (sourceS3SubPath p) [] None
            (with_objects o2 db, log2) =
          (Normal (List.map Build_S3Object ks),
           (with_objects o2 db, listed))) in Hlist.
  unfold bind at 1, bind at 1. rewrite Hlist.
  assert (Hks : forall k, In k ks <-> is_Some (o2 !! k) /\ String.prefix src k = true)
    by (intros k; apply elem_of_keysWithPrefix).
  assert (Hne : (length (List.map Build_S3Object ks) =? 0)%nat = false).
  { apply Nat.eqb_neq. rewrite length_map.
    assert (In k0 ks) as Hin by (apply Hks; rewrite Hsame; auto).
    destruct ks; [destruct Hin | simpl; lia]. }
  rewrite Hne.
  destruct (copyObjects_backend (s3Config p) src dst ks
              (with_objects o2 db) listed)
    as (o' & Hcopy & Hcopied & Hframe).
  { exact Hb. }
  { intros k Hk. apply Hks in Hk as [Hk _]. exact Hk. }
  { intros k k' Hk _. apply Hks in Hk as [_ Hk].
    apply (newKey_not_under_source src dst k' k Hsd Hds Hk). }
  { intros k k' Hk Hk'. apply Hks in Hk as [_ Hk]. apply Hks in Hk' as [_ Hk'].
    apply newKey_inj; assumption. }
  change (copyObjects collaborators (s3Config p) (sourceS3SubPath p)
            (destS3SubPath p) (List.map Build_S3Object ks)
            (with_objects o2 db, listed) =
          (Normal tt,
           (with_objects o' (with_objects o2 db),
            (listed ++
             List.map (copyEvent (s3Config p) (sourceS3SubPath p) (destS3SubPath p))
               ks)%list))) in Hcopy.
  unfold bind at 1, bind at 1. rewrite Hcopy.
  eexists created, _, _. split; [reflexivity |]. split; [reflexivity |].
  intros _. split.
  { unfold listed. rewrite !in_app_iff. cbn [In]. tauto. }
  intros k v Hv Hp.
  assert (Hin : In k ks) by (apply Hks; rewrite Hsame; eauto).
  cbn [objects with_objects updateParents clearCache updateLastUsed fst snd].
  split; [| split].
  - pose proof (in_map (copyEvent (s3Config p) (sourceS3SubPath p)
                          (destS3SubPath p)) ks k Hin) as Hev.
    rewrite !in_app_iff. tauto.
  - fold src dst. rewrite (Hcopied k Hin). cbn [objects with_objects].
    rewrite Hsame; assumption.
  - rewrite Hframe.
    + cbn [objects with_objects]. rewrite Hsame; assumption.
    + intros k' _. apply (newKey_not_under_source src dst k' k Hsd Hds Hp).
Qed.

(** On the store, a destination key that exists has its parent reported
    present by the parent check. *)
Lemma existing_destination_has_parent b dst w :
  is_Some (objects w !! dst) ->
  directoryExists b (destParentPathOf dst) w = (Ok true, w).
Proof.
  intros Hdst. unfold directoryExists. do 2 f_equal.
  assert (Hin : In dst (keysWithPrefix (objects w) (destParentPathOf dst))).
  { apply elem_of_keysWithPrefix. split; [exact Hdst | apply destParent_prefix]. }
  rewrite (bool_decide_eq_false_2 (keysWithPrefix (objects w) (destParentPathOf dst) = [])).
  - apply orb_true_r.
  - intros Hnil. rewrite Hnil in Hin. destruct Hin.
Qed.

(** On the store, [Overwrite: F] against an existing destination key is
    answered 412 and leaves the whole store as it was: the only outside
    calls are the parent check and the head. *)
Lemma overwrite_F_leaves_the_store (fuel : nat) (c : Request)
    (path userId userType : string) (db : Db) (p : Plan) :
  resolve collaborators c path userId userType (db, []) = (Normal p, (db, [])) ->
  bucket_name (s3Config p) = bucket db ->
  hdr_Overwrite c = Some "F" ->
  is_Some (objects db !! destS3SubPath p) ->
  handleCopy collaborators fuel c path userId userType db =
  (Some preconditionFailed, db,
   (parentCheck p ++ [headDestEvent p])%list).
Proof.
  intros Hres Hb Hov [v Hdst].
  assert (Hallow : allowOverwrite p = false).
  { apply resolve_Normal in Hres
      as (? & ? & ? & ? & _ & _ & _ & _ & _ & _ & _ & _ & Heq).
    rewrite Heq. cbn [allowOverwrite].
    rewrite bool_decide_eq_true_2 by exact Hov. reflexivity. }
  assert (Hparent : ParentPresent collaborators p db db).
  { unfold ParentPresent. destruct (Js.includes (destS3SubPath p) "/");
      [| reflexivity].
    apply existing_destination_has_parent. eauto. }
  assert (Hhead : send collaborators
                    (HeadObjectCommand (bucket_name (s3Config p)) (destS3SubPath p)) db
                  = (Ok noOutput, db)).
  { cbn [send collaborators s3_send].
    rewrite (send_same_bucket _ _ Hb), Hdst. reflexivity. }
  rewrite handleCopy_unfold, Hres. cbn [fst]. cbv iota.
  unfold transfer, bind.
  rewrite (prologue_existing collaborators p db db db noOutput [] Hparent Hhead).
  rewrite Hallow. reflexivity.
Qed.

End BackendFacts.

(** ** The theorems at concrete requests *)

Module Examples.
Import Backend.

(** A directory [a/] with a file and a sub-directory file. *)
Definition store1 : gmap string Object :=
  <["a/" := marker]> (<["a/x" := file "1"]> (<["a/z/x" := file "2"]> ∅)).

Definition db1 : Db := sampleDb store1.

Definition found (m : Mount) (sub : string) : MountResult :=
  {| mr_error := None; mr_isRoot := false; mr_mount := Some m;
     mr_subPath := sub |}.

Definition mount1 : Mount := {| id := "1"; storage_config_id := "cfg" |}.
Definition mount2 : Mount := {| id := "2"; storage_config_id := "cfg" |}.
Definition config1 : S3Config := {| bucket_name := "bkt"; root_prefix := None |}.

(** COPY /m/a/x with Destination /n/x: two mounts. *)
Lemma cross_mount_is_502_witness :
  run 1 (request (Some "/n/x") None None) "/m/a/x" db1 = (Some crossMount, db1, []).
Proof.
  apply (cross_mount_is_502 collaborators 1 (request (Some "/n/x") None None)
           "/m/a/x" "admin-id" "admin" db1
           (found mount1 "/a/x") (found mount2 "/x") mount1 mount2).
  - exists "/n/x". repeat split; try reflexivity; discriminate.
  - discriminate.
Defined.

(** COPY /m/a/x with Destination /m/a/x. *)
Lemma same_path_is_400_witness :
  exists r,
    run 1 (request (Some "/m/a/x") None None) "/m/a/x" db1 = (Some r, db1, []) /\
    status r = 400.
Proof.
  apply (same_path_is_400 collaborators 1 (request (Some "/m/a/x") None None)
           "/m/a/x" "admin-id" "admin" db1 (found mount1 "/a/x"));
    reflexivity.
Defined.

(** COPY /x/a with Destination /x/a, where no mount holds /x: the
    source lookup fails first and the answer is its 404, not 400. *)
Lemma same_path_unknown_mount_is_404 :
  parseDestination (Some "/x/a") = Some "/x/a" /\
  exists r,
    run 1 (request (Some "/x/a") None None) "/x/a" db1 = (Some r, db1, []) /\
    status r = 404 /\ status r <> 400.
Proof.
  split; [reflexivity |]. eexists. split; [reflexivity |].
  split; [reflexivity | discriminate].
Qed.

(** COPY /m/a/ to /m/b/ without a Depth header, and with [Depth: 1]. *)
Lemma absent_depth_is_infinity_witness :
  run 5 (request (Some "/m/b/") None None) "/m/a/" db1 =
  run 5 (request (Some "/m/b/") (Some "infinity") None) "/m/a/" db1 /\
  run 5 (request (Some "/m/b/") (Some "1") None) "/m/a/" db1 =
  (Some invalidDepth, db1, []).
Proof.
  split.
  - apply (absent_depth_is_infinity collaborators 5
             (request (Some "/m/b/") None None) "/m/a/" "admin-id" "admin" db1
             (found mount1 "/a/") (found mount1 "/b/") mount1 mount1).
    + exists "/m/b/". repeat split; try reflexivity; discriminate.
    + discriminate.
    + reflexivity.
    + reflexivity.
  - apply (absent_depth_is_infinity collaborators 5
             (request (Some "/m/b/") (Some "1") None) "/m/a/" "admin-id" "admin" db1
             (found mount1 "/a/") (found mount1 "/b/") mount1 mount1)
      with (d := "1").
    + exists "/m/b/". repeat split; try reflexivity; discriminate.
    + discriminate.
    + reflexivity.
    + reflexivity.
    + discriminate.
    + discriminate.
    + discriminate.
Defined.



Definition plan (d : string) (dir : bool) (src dst : string) (allow : bool)
    : Plan :=
  {| mount := mount1; s3Config := config1; depth := d; isDirectory := dir;
     sourceS3SubPath := src; destS3SubPath := dst; allowOverwrite := allow |}.

(** [store1] with a directory [b/] already there. *)
Definition db2 : Db := sampleDb (<["b/" := marker]> store1).

(** COPY /m/a/ to the existing /m/b/ with [Overwrite: F]. *)
Lemma overwrite_F_existing_destination_witness :
  run 5 (request (Some "/m/b/") None (Some "F")) "/m/a/" db2 =
  (Some preconditionFailed, db2,
   [ECheckDirectoryExists "bkt" "b/"; ESend (HeadObjectCommand "bkt" "b/")]).
Proof.
  refine (proj1 (overwrite_F_existing_destination collaborators 5
                   (request (Some "/m/b/") None (Some "F")) "/m/a/"
                   "admin-id" "admin" db2 db2 db2
                   (plan "infinity" true "a/" "b/" false) noOutput _ _ _) _);
    reflexivity.
Defined.

(** COPY /m/a/ to the new /m/b/ with [Overwrite: F]: the parent step has
    put [b/] by the time it is looked for, and the answer is 412 although
    the destination did not exist. *)
Lemma overwrite_F_new_directory_is_412 :
  objects db1 !! "b/" = None /\
  run 5 (request (Some "/m/b/") None (Some "F")) "/m/a/" db1 =
  (Some preconditionFailed,
   with_objects (<["b/" := BackendFacts.directoryMarker]> store1) db1,
   [ECheckDirectoryExists "bkt" "b/";
    ESend (PutObjectCommand "bkt" "b/" "" (Some "application/x-directory") None);
    ESend (HeadObjectCommand "bkt" "b/")]).
Proof. split; reflexivity. Qed.

(** An empty directory [d/]. *)
Definition db3 : Db := sampleDb (<["d/" := marker]> ∅).

Definition db3_copied : Db :=
  {| bucket := "bkt";
     objects := <["e/" := {| content := ""; contentType := None |}]>
                  (<["d/" := marker]> ∅);
     maxKeys := 2; mounts := mounts db3; s3_configs := s3_configs db3;
     touched := []; invalidated := ["e/"]; last_used := ["1"] |}.

(** COPY /m/d/ to /m/e/ on the store that does not list markers. *)
Lemma empty_listing_falls_back_to_head_witness :
  handleCopy collaboratorsUnlisted 5 (request (Some "/m/e/") None None)
    "/m/d/" "admin-id" "admin" db3 =
  (Some created, db3_copied,
   [ECheckDirectoryExists "bkt" "e/";
    ESend (PutObjectCommand "bkt" "e/" "" (Some "application/x-directory") None);
    ESend (HeadObjectCommand "bkt" "e/");
    ESend (ListObjectsV2Command "bkt" "d/" None);
    ESend (HeadObjectCommand "bkt" "d/");
    ESend (PutObjectCommand "bkt" "e/" "" None (Some 0));
    EClearCache "e/" true "1";
    EUpdateMountLastUsed "1"]).
Proof.
  refine (proj2 (empty_listing_falls_back_to_head collaboratorsUnlisted 5
                   (request (Some "/m/e/") None None) "/m/d/"
                   "admin-id" "admin" db3 _ _
                   (plan "infinity" true "d/" "e/" true)
                   [ECheckDirectoryExists "bkt" "e/";
                    ESend (PutObjectCommand "bkt" "e/" ""
                             (Some "application/x-directory") None);
                    ESend (HeadObjectCommand "bkt" "e/")]
                   [ECheckDirectoryExists "bkt" "e/";
                    ESend (PutObjectCommand "bkt" "e/" ""
                             (Some "application/x-directory") None);
                    ESend (HeadObjectCommand "bkt" "e/");
                    ESend (ListObjectsV2Command "bkt" "d/" None)]
                   _ _ _ _ _)
                noOutput noOutput _ _ _ _ _ _ _ _);
    try reflexivity; discriminate.
Defined.

(** A zero-length object put at a key. *)
Definition putsEmptyAt (key : string) (ev : Event) : bool :=
  match ev with
  | ESend (PutObjectCommand _ k text _ _) => String.eqb k key && String.eqb text ""
  | _ => false
  end.

(** COPY /m/a/ to the new /m/b/ with [Depth: 0]. *)
Lemma depth0_puts_only_the_marker_witness :
  exists pre post,
    snd (run 5 (request (Some "/m/b/") (Some "0") None) "/m/a/" db1)
      = (pre ++ post)%list /\
    PrologueLog (plan "0" true "a/" "b/" true) pre /\
    Depth0Log (plan "0" true "a/" "b/" true) post /\
    (forall r s'',
       handleCopy_try collaborators 5 (request (Some "/m/b/") (Some "0") None)
         "/m/a/" "admin-id" "admin" (db1, []) = (Normal r, s'') ->
       r = created /\
       post = [putDestEvent (plan "0" true "a/" "b/" true);
               clearDirectoryEvent (plan "0" true "a/" "b/" true);
               lastUsedEvent (plan "0" true "a/" "b/" true)]).
Proof.
  apply (depth0_puts_only_the_marker collaborators 5
           (request (Some "/m/b/") (Some "0") None) "/m/a/" "admin-id" "admin"
           db1 (plan "0" true "a/" "b/" true) (db1, []));
    reflexivity.
Defined.

(** C6, where the handler departs from it.  COPY /m/a/ to the new /m/b/
    with [Depth: 0] ends in 201, sends no listing and no copy, but the
    destination key [b/] receives two puts of a zero-length object, not
    exactly one: line 113 takes the key itself as the parent of a key
    that ends in a separator, so line 129 puts the marker at [b/] before
    line 177 puts the object there. *)
Lemma depth0_puts_the_destination_twice :
  fst (fst (run 5 (request (Some "/m/b/") (Some "0") None) "/m/a/" db1))
    = Some created /\
  normalize "/b/" config1 (Js.endsWith "/m/a/" "/") = "b/" /\
  snd (run 5 (request (Some "/m/b/") (Some "0") None) "/m/a/" db1) =
    [ECheckDirectoryExists "bkt" "b/";
     ESend (PutObjectCommand "bkt" "b/" "" (Some "application/x-directory") None);
     ESend (HeadObjectCommand "bkt" "b/");
     ESend (PutObjectCommand "bkt" "b/" "" None (Some 0));
     EClearCache "b/" true "1";
     EUpdateMountLastUsed "1"] /\
  length (List.filter (putsEmptyAt "b/")
            (snd (run 5 (request (Some "/m/b/") (Some "0") None) "/m/a/" db1)))
    <> 1%nat.
Proof.
  split; [reflexivity |]. split; [reflexivity |]. split; [reflexivity |].
  vm_compute. discriminate.
Qed.

(** C2, where the handler departs from it.  COPY /m/a/ to /m/b/ with
    [Depth: 0] ends in 201 and never calls the timestamp propagation,
    while the recursive copy of the same directory does call it. *)
Lemma depth0_copy_skips_propagation :
  fst (fst (run 5 (request (Some "/m/b/") (Some "0") None) "/m/a/" db1))
    = Some created /\
  existsb isUpdateParents
    (snd (run 5 (request (Some "/m/b/") (Some "0") None) "/m/a/" db1)) = false /\
  fst (fst (run 5 (request (Some "/m/b/") None None) "/m/a/" db1))
    = Some created /\
  existsb isUpdateParents
    (snd (run 5 (request (Some "/m/b/") None None) "/m/a/" db1)) = true.
Proof. repeat split; vm_compute; reflexivity. Qed.

(** Nor does the copy of an empty directory (lines 216-228). *)
Lemma empty_directory_copy_skips_propagation :
  let result :=
    handleCopy collaboratorsUnlisted 5 (request (Some "/m/e/") None None)
      "/m/d/" "admin-id" "admin" db3 in
  fst (fst result) = Some created /\
  existsb isUpdateParents (snd result) = false.
Proof. split; vm_compute; reflexivity. Qed.

(** COPY /m/a/ to /m/b/: the put of the parent marker. *)
Lemma copy_writes_only_at_destination_witness :
  exists p s',
    resolve collaborators (request (Some "/m/b/") None None) "/m/a/"
      "admin-id" "admin" (db1, []) = (Normal p, s') /\
    TransferEvent p
      (ESend (PutObjectCommand "bkt" "b/" "" (Some "application/x-directory") None)) /\
    forall k,
      writtenKey
        (ESend (PutObjectCommand "bkt" "b/" "" (Some "application/x-directory") None))
        = Some k ->
      (String.prefix (destS3SubPath p) k = true \/
       k = destParentPathOf (destS3SubPath p)) /\
      (String.prefix (sourceS3SubPath p) (destS3SubPath p) = false ->
       String.prefix (destS3SubPath p) (sourceS3SubPath p) = false ->
       String.prefix (sourceS3SubPath p) k = false).
Proof.
  apply (copy_writes_only_at_destination collaborators 5
           (request (Some "/m/b/") None None) "/m/a/" "admin-id" "admin" db1).
  vm_compute. right. left. reflexivity.
Defined.

(** [store1] with the sub-directory marker [a/z/]. *)
Definition db4 : Db := sampleDb (<["a/z/" := marker]> store1).

(** COPY /m/a/ to the existing /m/a/z/ with [Depth: 0]: the destination
    key [a/z/] is a key under the source key [a/], and the handler puts
    an empty object there, replacing an object of the source subtree. *)
Lemma depth0_copy_into_own_subdirectory_overwrites_a_source_object :
  let result := run 5 (request (Some "/m/a/z/") (Some "0") None) "/m/a/" db4 in
  normalize "/a/" config1 (Js.endsWith "/m/a/" "/") = "a/" /\
  normalize "/a/z/" config1 (Js.endsWith "/m/a/" "/") = "a/z/" /\
  String.prefix "a/" "a/z/" = true /\
  fst (fst result) = Some created /\
  In (ESend (PutObjectCommand "bkt" "a/z/" "" None (Some 0))) (snd result) /\
  objects db4 !! "a/z/" = Some marker /\
  objects (snd (fst result)) !! "a/z/" <> objects db4 !! "a/z/".
Proof.
  split; [reflexivity |]. split; [reflexivity |]. split; [reflexivity |].
  split; [reflexivity |]. split; [vm_compute; tauto |]. split; [reflexivity |].
  vm_compute. discriminate.
Qed.

(** COPY /m/a/ with Destination /m/a and [Depth: 0]: the two paths
    differ, both keys are [a/], and the handler puts an empty object at
    the source key, replacing the source marker. *)
Lemma depth0_copy_onto_itself_overwrites_the_source :
  let result := run 5 (request (Some "/m/a") (Some "0") None) "/m/a/" db1 in
  normalize "/a/" config1 (Js.endsWith "/m/a/" "/") = "a/" /\
  fst (fst result) = Some created /\
  In (ESend (PutObjectCommand "bkt" "a/" "" None (Some 0))) (snd result) /\
  objects db1 !! "a/" = Some marker /\
  objects (snd (fst result)) !! "a/" <> objects db1 !! "a/".
Proof.
  split; [reflexivity |]. split; [reflexivity |].
  split; [vm_compute; tauto |]. split; [reflexivity |].
  vm_compute. discriminate.
Qed.

(** COPY /m/a/ to /m/b/. *)
Lemma recursive_copy_reproduces_the_source_witness :
  exists fuel0,
    forall fuel, (fuel0 <= fuel)%nat ->
    exists r w' log,
      run fuel (request (Some "/m/b/") None None) "/m/a/" db1 = (Some r, w', log) /\
      (true = true -> r = created) /\
      (status r = 201 ->
       In (ESend (ListObjectsV2Command "bkt" "a/" None)) log /\
       forall k v,
         objects db1 !! k = Some v ->
         String.prefix "a/" k = true ->
         In (BackendFacts.copyEvent config1 "a/" "b/" k) log /\
         objects w' !! newKeyOf "a/" "b/" {| Key := k |} = Some v /\
         objects w' !! k = Some v).
Proof.
  apply (BackendFacts.recursive_copy_reproduces_the_source
           (request (Some "/m/b/") None None) "/m/a/" "admin-id" "admin" db1
           (plan "infinity" true "a/" "b/" true)); try reflexivity.
  - discriminate.
  - vm_compute. lia.
  - exists "a/x". split; [| reflexivity]. exists (file "1"). reflexivity.
Defined.

(** COPY /m/a/ to /m/a/z/, a destination inside the source: the run
    ends in 201, [a/z/x] was under the source with content "2", and the
    key it is copied to, [a/z/z/x], does not hold that object (it holds
    the content of [a/x], copied over [a/z/x] one step earlier). *)
Lemma copy_into_own_subdirectory_loses_content :
  let result := run 5 (request (Some "/m/a/z/") None None) "/m/a/" db1 in
  fst (fst result) = Some created /\
  normalize "/a/" config1 true = "a/" /\
  normalize "/a/z/" config1 true = "a/z/" /\
  objects db1 !! "a/z/x" = Some (file "2") /\
  String.prefix "a/" "a/z/x" = true /\
  newKeyOf "a/" "a/z/" {| Key := "a/z/x" |} = "a/z/z/x" /\
  objects (snd (fst result)) !! "a/z/z/x" = Some (file "1") /\
  objects (snd (fst result)) !! newKeyOf "a/" "a/z/" {| Key := "a/z/x" |}
    <> objects db1 !! "a/z/x".
Proof.
  repeat split; try reflexivity. vm_compute. discriminate.
Qed.

(** COPY /m/d/ to /m/e/ where nothing exists at or under [d/]: the
    listing is empty, the head of [d/] answers 404, and so does the
    handler. *)
Lemma missing_source_directory_is_404 :
  fst (fst (run 5 (request (Some "/m/e/") None None) "/m/d/" db1))
    = Some sourceDirectoryMissing /\
  snd (run 5 (request (Some "/m/e/") None None) "/m/d/" db1) =
    [ECheckDirectoryExists "bkt" "e/";
     ESend (PutObjectCommand "bkt" "e/" "" (Some "application/x-directory") None);
     ESend (HeadObjectCommand "bkt" "e/");
     ESend (ListObjectsV2Command "bkt" "d/" None);
     ESend (HeadObjectCommand "bkt" "d/")].
Proof. split; reflexivity. Qed.

(** The other direction: COPY /m/b/a/ to /m/b/, a destination above the
    source.  [b/a/a/y] is copied to [b/a/y] before [b/a/y] is copied to
    [b/y], so [b/y] does not get the content [b/a/y] had. *)
Definition db5 : Db :=
  sampleDb (<["b/a/a/y" := file "4"]> (<["b/a/y" := file "3"]> ∅)).

Lemma copy_into_own_parent_loses_content :
  let result := run 5 (request (Some "/m/b/") None None) "/m/b/a/" db5 in
  fst (fst result) = Some created /\
  objects db5 !! "b/a/y" = Some (file "3") /\
  newKeyOf "b/a/" "b/" {| Key := "b/a/y" |} = "b/y" /\
  objects (snd (fst result)) !! "b/y" = Some (file "4").
Proof. repeat split; reflexivity. Qed.

End Examples.

(** * Further properties of the handler *)

(** ** The gates of lines 21-95 *)

Definition missingDestination : Response :=
  {| body := Some "缺少目标路径头"; status := 400; headers := textPlain |}.

Definition rootDestination : Response :=
  {| body := Some "无法复制到根目录"; status := 403; headers := textPlain |}.

Section MoreGates.
Context {World : Type} (C : Collaborators World).

(** X1.  When the source lookup reports an error, the handler answers
    with that error's status and message and makes no outside call: the
    headers are not read and the destination is not looked up. *)
Theorem source_lookup_error_is_answered (fuel : nat) (c : Request)
    (path userId userType : string) (db : World) (source : MountResult)
    (e : MountError) :
  findMountPointByPath C db path userId userType "operation" = Ok source ->
  mr_error source = Some e ->
  handleCopy C fuel c path userId userType db = (Some (errorResponse e), db, []) /\
  status (errorResponse e) = me_status e /\
  body (errorResponse e) = Some (me_message e).
Proof.
  intros Hs He. split; [| split; reflexivity].
  unfold handleCopy, handleCopy_try, resolve.
  unfold bind, read, when, mountOf, ret, return_.
  stepm. rewrite Hs, He. reflexivity.
Qed.

(** X2.  When the source mount is found and line 34 yields no
    destination path (no header, or an empty path), the handler answers
    400 and makes no outside call. *)
Theorem missing_destination_is_400 (fuel : nat) (c : Request)
    (path userId userType : string) (db : World) (source : MountResult) :
  findMountPointByPath C db path userId userType "operation" = Ok source ->
  mr_error source = None ->
  Js.truthy (parseDestinationPath C (hdr_Destination c)) = false ->
  handleCopy C fuel c path userId userType db = (Some missingDestination, db, []).
Proof.
  intros Hs He Hd.
  unfold handleCopy, handleCopy_try, resolve.
  unfold bind, read, when, mountOf, ret, return_.
  stepm. rewrite Hs, He, Hd. reflexivity.
Qed.

(** X3.  When the destination lookup gives the root signal, the handler
    answers 403 and makes no outside call, whether or not the lookup
    result carries an error of its own. *)
Theorem root_destination_is_403 (fuel : nat) (c : Request)
    (path userId userType destPath : string) (db : World)
    (source dest : MountResult) :
  findMountPointByPath C db path userId userType "operation" = Ok source ->
  mr_error source = None ->
  parseDestinationPath C (hdr_Destination c) = Some destPath ->
  destPath <> "" -> path <> destPath ->
  findMountPointByPath C db destPath userId userType "operation" = Ok dest ->
  mr_isRoot dest = true ->
  handleCopy C fuel c path userId userType db = (Some rootDestination, db, []).
Proof.
  intros Hs He Hp Hne Hdiff Hd Hroot.
  pose proof (truthy_nonempty _ Hne) as Ht.
  pose proof (eqb_false_of_neq _ _ Hdiff) as Hpd.
  unfold handleCopy, handleCopy_try, resolve.
  unfold bind, read, when, mountOf, ret, return_.
  repeat (stepm; first [rewrite Hs | rewrite He | rewrite Hp | rewrite Ht
                       | rewrite Hpd | rewrite Hd | rewrite Hroot]).
  reflexivity.
Qed.

(** X4.  When the destination lookup reports an error (and no root
    signal), the handler answers with that error's status and message and
    makes no outside call. *)
Theorem destination_lookup_error_is_answered (fuel : nat) (c : Request)
    (path userId userType destPath : string) (db : World)
    (source dest : MountResult) (e : MountError) :
  findMountPointByPath C db path userId userType "operation" = Ok source ->
  mr_error source = None ->
  parseDestinationPath C (hdr_Destination c) = Some destPath ->
  destPath <> "" -> path <> destPath ->
  findMountPointByPath C db destPath userId userType "operation" = Ok dest ->
  mr_isRoot dest = false ->
  mr_error dest = Some e ->
  handleCopy C fuel c path userId userType db = (Some (errorResponse e), db, []).
Proof.
  intros Hs He Hp Hne Hdiff Hd Hroot Hde.
  pose proof (truthy_nonempty _ Hne) as Ht.
  pose proof (eqb_false_of_neq _ _ Hdiff) as Hpd.
  unfold handleCopy, handleCopy_try, resolve.
  unfold bind, read, when, mountOf, ret, return_.
  repeat (stepm; first [rewrite Hs | rewrite He | rewrite Hp | rewrite Ht
                       | rewrite Hpd | rewrite Hd | rewrite Hroot | rewrite Hde]).
  reflexivity.
Qed.

(** X5.  A lookup result that carries neither an error nor a mount (the
    root signal alone, for the source path) is not answered by a gate:
    reading [.mount.id] throws, and the answer is whatever
    [handleWebDAVError] makes of that TypeError; no outside call is
    made. *)
Theorem source_without_mount_is_a_TypeError (fuel : nat) (c : Request)
    (path userId userType destPath : string) (db : World)
    (source dest : MountResult) :
  findMountPointByPath C db path userId userType "operation" = Ok source ->
  mr_error source = None ->
  mr_mount source = None ->
  parseDestinationPath C (hdr_Destination c) = Some destPath ->
  destPath <> "" -> path <> destPath ->
  findMountPointByPath C db destPath userId userType "operation" = Ok dest ->
  mr_isRoot dest = false ->
  mr_error dest = None ->
  handleCopy C fuel c path userId userType db =
  (Some (handleWebDAVError C "COPY" TypeError false false), db, []).
Proof.
  intros Hs He Hm Hp Hne Hdiff Hd Hroot Hde.
  pose proof (truthy_nonempty _ Hne) as Ht.
  pose proof (eqb_false_of_neq _ _ Hdiff) as Hpd.
  unfold handleCopy, handleCopy_try, resolve.
  unfold bind, read, when, mountOf, ret, return_, throw.
  repeat (stepm; first [rewrite Hs | rewrite He | rewrite Hp | rewrite Ht
                       | rewrite Hpd | rewrite Hd | rewrite Hroot | rewrite Hde
                       | rewrite Hm]).
  reflexivity.
Qed.


(** X7.  A request that does not pass every gate of lines 21-98 (an
    early answer, or an exception in a lookup) is answered without any
    outside call and leaves the world as it was. *)
Theorem rejected_request_changes_nothing (fuel : nat) (c : Request)
    (path userId userType : string) (db : World) :
  (forall p, fst (resolve C c path userId userType (db, [])) <> Normal p) ->
  exists r, handleCopy C fuel c path userId userType db = (Some r, db, []).
Proof.
  intros Hrej. rewrite handleCopy_unfold.
  assert (Hnd : fst (resolve C c path userId userType (db, [])) <> Diverged).
  { unfold resolve, bind, read, when, mountOf, ret, return_, throw.
    repeat
      match goal with
      | |- context [match ?x with _ => _ end] =>
          lazymatch x with
          | context [match _ with _ => _ end] => fail
          | _ => destruct x
          end
      end; cbn; discriminate. }
  destruct (fst (resolve C c path userId userType (db, []))) as [p | r | e |].
  - exfalso. apply (Hrej p). reflexivity.
  - eexists. reflexivity.
  - eexists. reflexivity.
  - contradiction.
Qed.

End MoreGates.

(** ** The file branch and the overwrite check *)

Section MorePaths.
Context {World : Type} (C : Collaborators World).

Definition copyFileEvent (p : Plan) : Event :=
  ESend (CopyObjectCommand (bucket_name (s3Config p))
           (copySourceOf (s3Config p) (sourceS3SubPath p)) (destS3SubPath p)).

Definition updateParentsEvent (p : Plan) : Event :=
  EUpdateParentDirectoriesModifiedTime (bucket_name (s3Config p))
    (destS3SubPath p) (rootPrefixOf (s3Config p)).

Definition clearFileEvent (p : Plan) : Event :=
  EClearCache (destS3SubPath p) false (id (mount p)).

(** The calls of lines 263-296 and 300, in order. *)
Inductive FileLog (p : Plan) : list Event -> Prop :=
| FL_none : FileLog p []
| FL_head : FileLog p [headSourceEvent p]
| FL_copy : FileLog p [headSourceEvent p; copyFileEvent p]
| FL_parents :
    FileLog p [headSourceEvent p; copyFileEvent p; updateParentsEvent p]
| FL_cache :
    FileLog p [headSourceEvent p; copyFileEvent p; updateParentsEvent p;
               clearFileEvent p]
| FL_all :
    FileLog p [headSourceEvent p; copyFileEvent p; updateParentsEvent p;
               clearFileEvent p; lastUsedEvent p].

Ltac close_file_log :=
  eexists; split; [reflexivity |];
  split; [constructor |]; split; [constructor |];
  let Heq := fresh in
  intros ? Heq;
  first [discriminate Heq | injection Heq as <-; split; reflexivity].

Ltac split_file_log p :=
  first
    [ exists [checkParentEvent p; putParentEvent p; headDestEvent p]; close_file_log
    | exists [checkParentEvent p; headDestEvent p]; close_file_log
    | exists [headDestEvent p]; close_file_log
    | exists [checkParentEvent p]; close_file_log ].

Lemma file_transfer fuel p w :
  isDirectory p = false ->
  exists pre post,
    snd (snd (transfer C fuel p (w, []))) = (pre ++ post)%list /\
    PrologueLog p pre /\ FileLog p post /\
    (forall r, fst (transfer C fuel p (w, [])) = Normal r ->
               r = created /\
               post = [headSourceEvent p; copyFileEvent p; updateParentsEvent p;
                       clearFileEvent p; lastUsedEvent p]).
Proof.
  intros Hdir. run_unfold. rewrite Hdir. cbv iota.
  repeat (run_step; cbn [fst snd negb andb app]).
  all: solve [split_file_log p].
Qed.

(** X8.  For a file (a source path that does not end in a separator) the
    outside calls are, in order: the calls of the parent check and
    overwrite check, then the head of the source key, the one copy to
    the destination key, the timestamp propagation, the cache call and
    the last-used call, each made only if the one before it succeeded.
    No listing is sent, nothing is put but the parent marker, and a run
    that ends in success has made all five. *)
Theorem file_copy_calls (fuel : nat) (c : Request)
    (path userId userType : string) (db : World) (p : Plan) (s' : St World) :
  resolve C c path userId userType (db, []) = (Normal p, s') ->
  isDirectory p = false ->
  exists pre post,
    snd (handleCopy C fuel c path userId userType db) = (pre ++ post)%list /\
    PrologueLog p pre /\ FileLog p post /\
    (forall r s'',
       handleCopy_try C fuel c path userId userType (db, []) = (Normal r, s'') ->
       r = created /\
       post = [headSourceEvent p; copyFileEvent p; updateParentsEvent p;
               clearFileEvent p; lastUsedEvent p]).
Proof.
  intros Hres Hdir.
  destruct (file_transfer fuel p db Hdir) as (pre & post & Hlog & Hpre & Hpost & Hok).
  exists pre, post.
  pose proof (resolve_pure C c path userId userType (db, [])) as Hpure.
  rewrite Hres in Hpure. simpl in Hpure. subst s'.
  split; [| split; [exact Hpre | split; [exact Hpost |]]].
  - rewrite handleCopy_unfold, Hres. cbn [fst]. cbv iota.
    rewrite finish_log. exact Hlog.
  - intros r s'' Hrun. apply Hok.
    unfold handleCopy_try, bind in Hrun. rewrite Hres in Hrun.
    rewrite Hrun. reflexivity.
Qed.

(** X9.  For a file whose source key does not answer the head: a 404
    gives the 404 "source file does not exist" and any other failure is
    answered through [handleWebDAVError]; in both cases the head is the
    last outside call, so no copy is sent. *)
Theorem missing_source_file_is_404 (fuel : nat) (c : Request)
    (path userId userType : string) (db w2 w3 : World) (p : Plan)
    (log2 : list Event) (e : Error) :
  resolve C c path userId userType (db, []) = (Normal p, (db, [])) ->
  isDirectory p = false ->
  prologue C p (db, []) = (Normal tt, (w2, log2)) ->
  send C (HeadObjectCommand (bucket_name (s3Config p)) (sourceS3SubPath p)) w2
    = (Err e, w3) ->
  handleCopy C fuel c path userId userType db =
  (Some (if is404 e then sourceFileMissing
         else handleWebDAVError C "COPY" e false false),
   w3, (log2 ++ [headSourceEvent p])%list).
Proof.
  intros Hres Hdir Hpro Hhead.
  rewrite handleCopy_unfold, Hres. cbn [fst]. cbv iota.
  unfold transfer, bind at 1. rewrite Hpro.
  unfold dispatch, copyFile. rewrite Hdir.
  unfold bind, try_catch, s3, call. rewrite Hhead.
  destruct (is404 e); reflexivity.
Qed.

(** Lines 138-309: what follows the parent step. *)
Definition afterParent (fuel : nat) (p : Plan) : M World Response :=
  bind (headDest C (s3Config p) (destS3SubPath p))
    (fun destExists =>
       bind (when (destExists && negb (allowOverwrite p))
               (return_ preconditionFailed))
         (fun _ => dispatch C fuel p)).

Lemma transfer_afterParent fuel p s :
  transfer C fuel p s =
  bind (ensureDestParent C (s3Config p) (destS3SubPath p))
    (fun _ => afterParent fuel p) s.
Proof.
  unfold transfer, prologue, afterParent, bind.
  destruct (ensureDestParent C (s3Config p) (destS3SubPath p) s)
    as [[[] | r | e |] s1]; try reflexivity.
  destruct (headDest C (s3Config p) (destS3SubPath p) s1)
    as [[b | r | e |] s2]; reflexivity.
Qed.

(** X10.  When the parent check reports the parent missing, the marker is
    put, and whatever that put answers (success or any failure) the run
    goes on with the overwrite check from the world the put left. *)
Theorem parent_put_failure_is_swallowed (fuel : nat) (c : Request)
    (path userId userType : string) (db w1 w2 : World) (p : Plan)
    (answer : Result Output) :
  resolve C c path userId userType (db, []) = (Normal p, (db, [])) ->
  Js.includes (destS3SubPath p) "/" = true ->
  checkDirectoryExists C (bucket_name (s3Config p))
    (destParentPathOf (destS3SubPath p)) db = (Ok false, w1) ->
  send C (PutObjectCommand (bucket_name (s3Config p))
            (destParentPathOf (destS3SubPath p)) ""
            (Some "application/x-directory") None) w1 = (answer, w2) ->
  handleCopy C fuel c path userId userType db =
  finish C (afterParent fuel p (w2, [checkParentEvent p; putParentEvent p])).
Proof.
  intros Hres Hinc Hcheck Hput.
  rewrite handleCopy_unfold, Hres. cbn [fst]. cbv iota.
  rewrite transfer_afterParent.
  unfold bind at 1, ensureDestParent, when. rewrite Hinc.
  unfold bind at 1, call. rewrite Hcheck. cbn [negb].
  unfold try_catch, bind at 1, s3, call. rewrite Hput.
  destruct answer; reflexivity.
Qed.

(** X11.  The head of the destination key decides the overwrite check:
    when it fails with 404 the transfer goes on, whatever the Overwrite
    header says; when it fails with anything else the answer is what
    [handleWebDAVError] makes of that failure, and the head is the last
    outside call. *)
Theorem destination_head_failure (fuel : nat) (c : Request)
    (path userId userType : string) (db w1 w2 : World) (p : Plan)
    (log1 : list Event) (e : Error) :
  resolve C c path userId userType (db, []) = (Normal p, (db, [])) ->
  ensureDestParent C (s3Config p) (destS3SubPath p) (db, [])
    = (Normal tt, (w1, log1)) ->
  send C (HeadObjectCommand (bucket_name (s3Config p)) (destS3SubPath p)) w1
    = (Err e, w2) ->
  handleCopy C fuel c path userId userType db =
  if is404 e
  then finish C (dispatch C fuel p (w2, (log1 ++ [headDestEvent p])%list))
  else (Some (handleWebDAVError C "COPY" e false false), w2,
        (log1 ++ [headDestEvent p])%list).
Proof.
  intros Hres Hpar Hhead.
  rewrite handleCopy_unfold, Hres. cbn [fst]. cbv iota.
  rewrite transfer_afterParent. unfold bind at 1. rewrite Hpar.
  unfold afterParent, bind at 1, headDest, try_catch, bind at 1, s3, call.
  rewrite Hhead.
  destruct (is404 e); reflexivity.
Qed.

End MorePaths.

(** ** How a run ends *)

(** The two calls of lines 180/228/259/296 and 300. *)
Definition isBookkeeping (ev : Event) : bool :=
  match ev with
  | EClearCache _ _ _ | EUpdateMountLastUsed _ => true
  | _ => false
  end.

Section Epilogue.
Context {World : Type} (C : Collaborators World).

Lemma bind_Normal_inv {A B} (m : M World A) (k : A -> M World B) s b s' :
  bind m k s = (Normal b, s') ->
  exists a s1, m s = (Normal a, s1) /\ k a s1 = (Normal b, s').
Proof.
  unfold bind. destruct (m s) as [[a | r | e |] s1]; try discriminate.
  intros H. exists a, s1. split; [reflexivity | exact H].
Qed.

Lemma call_Normal_inv {A} ev (f : World -> Result A * World) s a s' :
  call ev f s = (Normal a, s') -> snd s' = (snd s ++ [ev])%list.
Proof.
  destruct s as [w log]. unfold call.
  destruct (f w) as [[x | e] w']; [| discriminate].
  intros [= _ <-]. reflexivity.
Qed.

(** The log grows, and by no cache or last-used call. *)
Definition Quiet (s : St World) (_ : option Response) (s' : St World) : Prop :=
  exists evs, snd s' = (snd s ++ evs)%list /\
              Forall (fun ev => isBookkeeping ev = false) evs.

Lemma Quiet_refl s x : Quiet s x s.
Proof. exists []. split; [now rewrite app_nil_r | constructor]. Qed.

Lemma Quiet_trans s1 s2 s3 x : Quiet s1 None s2 -> Quiet s2 x s3 -> Quiet s1 x s3.
Proof.
  intros (evs1 & H1 & F1) (evs2 & H2 & F2). exists (evs1 ++ evs2)%list. split.
  - rewrite H2, H1, app_assoc. reflexivity.
  - apply Forall_app. split; assumption.
Qed.

Lemma Quiet_call ev w w' log :
  isBookkeeping ev = false -> Quiet (w, log) None (w', (log ++ [ev])%list).
Proof. intros H. exists [ev]. split; [reflexivity | repeat constructor; exact H]. Qed.

Ltac quiet_step :=
  first
    [ keeps_step
    | apply Keeps_call; intros; apply Quiet_call; reflexivity
    | apply Keeps_return; intros; apply Quiet_refl ].

Ltac quiet_start :=
  pose proof (fun s => Quiet_refl s None) as Hr;
  pose proof Quiet_trans as Ht.

Lemma listObjects_Quiet fuel cfg src objects token :
  Keeps Quiet (listObjects C fuel cfg src objects token).
Proof.
  quiet_start. revert objects token.
  induction fuel as [| fuel IH]; intros objects token; simpl.
  - apply Keeps_diverge; assumption.
  - unfold s3. repeat first [quiet_step | apply IH].
Qed.

Lemma copyObjects_Quiet cfg src dst objects :
  Keeps Quiet (copyObjects C cfg src dst objects).
Proof.
  quiet_start. induction objects as [| object rest IH]; simpl.
  - apply Keeps_ret; assumption.
  - unfold s3. repeat first [quiet_step | apply IH].
Qed.

Lemma prologue_Quiet p : Keeps Quiet (prologue C p).
Proof.
  quiet_start. unfold prologue, ensureDestParent, headDest, s3.
  repeat quiet_step.
Qed.

Lemma Quiet_Normal {A} (m : M World A) s a s' :
  Keeps Quiet m -> m s = (Normal a, s') ->
  exists evs, snd s' = (snd s ++ evs)%list /\
              Forall (fun ev => isBookkeeping ev = false) evs.
Proof. intros Hk Hm. specialize (Hk s). rewrite Hm in Hk. exact Hk. Qed.

Lemma copyDirectory_end fuel cfg m d src dst s s' :
  copyDirectory C fuel cfg m d src dst s = (Normal tt, s') ->
  exists evs,
    snd s' = (snd s ++ evs ++ [EClearCache dst true (id m)])%list /\
    Forall (fun ev => isBookkeeping ev = false) evs.
Proof.
  unfold copyDirectory. destruct (String.eqb d "0").
  - intros H. apply bind_Normal_inv in H as (out & s1 & Hput & Hclear).
    apply call_Normal_inv in Hput. apply call_Normal_inv in Hclear.
    exists [ESend (putEmpty cfg dst)]. split.
    + rewrite Hclear, Hput, <- app_assoc. reflexivity.
    + repeat constructor.
  - intros H. apply bind_Normal_inv in H as (objects & s1 & Hlist & H).
    destruct (Quiet_Normal _ _ _ _ (listObjects_Quiet _ _ _ _ _) Hlist)
      as (evs1 & Hlog1 & Hq1).
    destruct (length objects =? 0)%nat.
    + unfold try_catch in H.
      destruct (bind _ _ s1) as [[[] | r | e |] s2] eqn:Hbody.
      * injection H as <-.
        apply bind_Normal_inv in Hbody as (out1 & s3 & Hhead & Hbody).
        apply bind_Normal_inv in Hbody as (out2 & s4 & Hput & Hclear).
        apply call_Normal_inv in Hhead. apply call_Normal_inv in Hput.
        apply call_Normal_inv in Hclear.
        exists (evs1 ++ [ESend (HeadObjectCommand (bucket_name cfg) src);
                         ESend (putEmpty cfg dst)])%list. split.
        -- rewrite Hclear, Hput, Hhead, Hlog1, <- !app_assoc. reflexivity.
        -- apply Forall_app. split; [exact Hq1 | repeat constructor].
      * discriminate.
      * destruct (is404 e); discriminate.
      * discriminate.
    + apply bind_Normal_inv in H as ([] & s2 & Hcopy & H).
      apply bind_Normal_inv in H as ([] & s3 & Hupd & Hclear).
      destruct (Quiet_Normal _ _ _ _ (copyObjects_Quiet _ _ _ _) Hcopy)
        as (evs2 & Hlog2 & Hq2).
      apply call_Normal_inv in Hupd. apply call_Normal_inv in Hclear.
      exists (evs1 ++ evs2 ++
              [EUpdateParentDirectoriesModifiedTime (bucket_name cfg) dst
                 (rootPrefixOf cfg)])%list. split.
      * rewrite Hclear, Hupd, Hlog2, Hlog1, <- !app_assoc. reflexivity.
      * rewrite !Forall_app. repeat split; try assumption. repeat constructor.
Qed.

Lemma copyFile_end cfg m src dst s s' :
  copyFile C cfg m src dst s = (Normal tt, s') ->
  snd s' = (snd s ++ [ESend (HeadObjectCommand (bucket_name cfg) src);
                      ESend (CopyObjectCommand (bucket_name cfg)
                               (copySourceOf cfg src) dst);
                      EUpdateParentDirectoriesModifiedTime (bucket_name cfg) dst
                        (rootPrefixOf cfg);
                      EClearCache dst false (id m)])%list.
Proof.
  unfold copyFile. intros H.
  apply bind_Normal_inv in H as ([] & s1 & Hhead & H).
  apply bind_Normal_inv in H as (out & s2 & Hcopy & H).
  apply bind_Normal_inv in H as ([] & s3 & Hupd & Hclear).
  unfold try_catch in Hhead.
  destruct (bind _ _ s) as [[[] | r | e |] s0] eqn:Hbody; try discriminate.
  - injection Hhead as <-.
    apply bind_Normal_inv in Hbody as (out1 & s4 & Hh & Hret).
    injection Hret as <-.
    apply call_Normal_inv in Hh. apply call_Normal_inv in Hcopy.
    apply call_Normal_inv in Hupd. apply call_Normal_inv in Hclear.
    rewrite Hclear, Hupd, Hcopy, Hh, <- !app_assoc. reflexivity.
  - destruct (is404 e); discriminate.
Qed.

(** X12.  A run that reaches the end of the handler answers 201 with
    [Content-Length: 0], and its last two outside calls are the cache
    call for the destination key, flagged as directory exactly when the
    source path ends in a separator, and the last-used call for the
    mount; neither is made anywhere earlier in the run. *)
Theorem success_ends_with_cache_and_last_used (fuel : nat) (c : Request)
    (path userId userType : string) (db w : World) (r : Response)
    (log : list Event) :
  handleCopy_try C fuel c path userId userType (db, []) = (Normal r, (w, log)) ->
  exists p evs,
    resolve C c path userId userType (db, []) = (Normal p, (db, [])) /\
    r = created /\
    log = (evs ++ [EClearCache (destS3SubPath p) (Js.endsWith path "/")
                     (id (mount p));
                   EUpdateMountLastUsed (id (mount p))])%list /\
    Forall (fun ev => isBookkeeping ev = false) evs.
Proof.
  intros H. unfold handleCopy_try in H.
  apply bind_Normal_inv in H as (p & s1 & Hres & H).
  pose proof (resolve_pure C c path userId userType (db, [])) as Hpure.
  rewrite Hres in Hpure. cbn [snd] in Hpure. subst s1.
  assert (Hflag : isDirectory p = Js.endsWith path "/").
  { destruct (resolve_Normal C _ _ _ _ _ _ _ Hres)
      as (? & ? & ? & ? & _ & _ & _ & _ & _ & _ & _ & _ & Hp).
    rewrite Hp. reflexivity. }
  exists p. unfold transfer in H.
  apply bind_Normal_inv in H as ([] & s2 & Hpro & H).
  destruct (Quiet_Normal _ _ _ _ (prologue_Quiet p) Hpro) as (evs1 & Hlog1 & Hq1).
  cbn [snd app] in Hlog1.
  unfold dispatch in H.
  apply bind_Normal_inv in H as ([] & s3 & Hbranch & H).
  apply bind_Normal_inv in H as ([] & s4 & Hused & Hret).
  injection Hret as <- Hs4. apply call_Normal_inv in Hused.
  rewrite Hs4 in Hused. cbn [snd] in Hused.
  destruct (isDirectory p) eqn:Hdir.
  - apply copyDirectory_end in Hbranch as (evs2 & Hlog2 & Hq2).
    exists (evs1 ++ evs2)%list. split; [exact Hres |]. split; [reflexivity |].
    split.
    + rewrite Hused, Hlog2, Hlog1, <- Hflag, <- !app_assoc. reflexivity.
    + apply Forall_app. split; assumption.
  - apply copyFile_end in Hbranch.
    exists (evs1 ++ [headSourceEvent p; copyFileEvent p; updateParentsEvent p])%list.
    split; [exact Hres |]. split; [reflexivity |]. split.
    + rewrite Hused, Hbranch, Hlog1, <- Hflag, <- !app_assoc. reflexivity.
    + apply Forall_app. split; [exact Hq1 | repeat constructor].
Qed.

End Epilogue.

(** ** The recursive branch *)

Definition listEvent (p : Plan) (token : option string) : Event :=
  ESend (ListObjectsV2Command (bucket_name (s3Config p)) (sourceS3SubPath p)
           token).

Section Recursive.
Context {World : Type} (C : Collaborators World).

Lemma prologue_Normal_log p s s' :
  prologue C p s = (Normal tt, s') ->
  exists pre, snd s' = (snd s ++ pre)%list /\ PrologueLog p pre.
Proof.
  destruct s as [w log].
  unfold prologue, ensureDestParent, headDest, s3, bind, call, when, try_catch,
    ret, return_, throw.
  repeat (run_step; cbn [fst snd negb andb app]).
  all: intros H; try discriminate H; injection H as <-.
  all: first
         [ exists [checkParentEvent p; putParentEvent p; headDestEvent p];
           split; [cbn [snd]; rewrite <- ?app_assoc; reflexivity | constructor]
         | exists [checkParentEvent p; headDestEvent p];
           split; [cbn [snd]; rewrite <- ?app_assoc; reflexivity | constructor]
         | exists [headDestEvent p];
           split; [cbn [snd]; rewrite <- ?app_assoc; reflexivity | constructor] ].
Qed.

Lemma listObjects_Normal_log fuel p objects token s result s' :
  listObjects C fuel (s3Config p) (sourceS3SubPath p) objects token s
    = (Normal result, s') ->
  exists later,
    snd s' = (snd s ++ listEvent p token :: List.map (listEvent p) later)%list /\
    Forall (fun t => Js.truthy t = true) later.
Proof.
  revert objects token s.
  induction fuel as [| fuel IH]; intros objects token s; cbn [listObjects].
  - discriminate.
  - intros H. apply bind_Normal_inv in H as (out & s1 & Hsend & H).
    apply call_Normal_inv in Hsend.
    destruct (Js.truthy (NextContinuationToken out)) eqn:Htoken.
    + apply IH in H as (later & Hlog & Hlater).
      exists (NextContinuationToken out :: later). split.
      * rewrite Hlog, Hsend, <- app_assoc. reflexivity.
      * constructor; assumption.
    + injection H as _ <-. exists []. split; [exact Hsend | constructor].
Qed.

Lemma copyObjects_app cfg src dst (done rest : list S3Object) s :
  copyObjects C cfg src dst (done ++ rest) s =
  bind (copyObjects C cfg src dst done)
       (fun _ => copyObjects C cfg src dst rest) s.
Proof.
  revert s. induction done as [| object done IH]; intros s.
  - reflexivity.
  - cbn [app copyObjects]. unfold bind in *.
    destruct (s3 C _ s) as [[out | r | e |] s1]; try reflexivity.
    apply IH.
Qed.

Lemma copyObjects_Normal_log p objects s s' :
  copyObjects C (s3Config p) (sourceS3SubPath p) (destS3SubPath p) objects s
    = (Normal tt, s') ->
  snd s' = (snd s ++ List.map (copyObjectEvent p) objects)%list.
Proof.
  revert s. induction objects as [| object rest IH]; intros s; cbn [copyObjects].
  - intros [= <-]. cbn. now rewrite app_nil_r.
  - intros H. apply bind_Normal_inv in H as (out & s1 & Hsend & H).
    apply call_Normal_inv in Hsend. apply IH in H.
    rewrite H, Hsend, <- app_assoc. reflexivity.
Qed.

(** X13.  What a successful recursive directory copy has done, in order:
    the parent check and overwrite check; the listings of the source
    prefix, the first without a token and every later one with a
    non-empty token; then, when the listing found nothing, the head of
    the source key and the put of the empty destination object, and
    otherwise one copy for every listed object in listing order followed
    by the timestamp propagation; then the cache call and the last-used
    call. *)
Theorem recursive_copy_calls (fuel : nat) (c : Request)
    (path userId userType : string) (db w : World) (p : Plan) (r : Response)
    (log : list Event) :
  resolve C c path userId userType (db, []) = (Normal p, (db, [])) ->
  isDirectory p = true ->
  depth p <> "0" ->
  handleCopy_try C fuel c path userId userType (db, []) = (Normal r, (w, log)) ->
  exists pre later objects s1 s2,
    prologue C p (db, []) = (Normal tt, s1) /\
    listObjects C fuel (s3Config p) (sourceS3SubPath p) [] None s1
      = (Normal objects, s2) /\
    PrologueLog p pre /\
    Forall (fun t => Js.truthy t = true) later /\
    log = (pre ++ (listEvent p None :: List.map (listEvent p) later) ++
           (if (length objects =? 0)%nat
            then [headSourceEvent p; putDestEvent p]
            else List.map (copyObjectEvent p) objects ++ [updateParentsEvent p]) ++
           [clearDirectoryEvent p; lastUsedEvent p])%list.
Proof.
  intros Hres Hdir Hdepth H.
  unfold handleCopy_try, bind at 1 in H. rewrite Hres in H.
  unfold transfer in H.
  apply bind_Normal_inv in H as ([] & s1 & Hpro & H).
  destruct (prologue_Normal_log _ _ _ Hpro) as (pre & Hlog1 & Hpre).
  cbn [snd app] in Hlog1.
  unfold dispatch in H. rewrite Hdir in H.
  apply bind_Normal_inv in H as ([] & s3 & Hbranch & H).
  apply bind_Normal_inv in H as ([] & s4 & Hused & Hret).
  injection Hret as _ Hs4. apply call_Normal_inv in Hused.
  rewrite Hs4 in Hused. cbn [snd] in Hused.
  unfold copyDirectory in Hbranch.
  rewrite (eqb_false_of_neq _ _ Hdepth) in Hbranch.
  apply bind_Normal_inv in Hbranch as (objects & s2 & Hlist & Hbranch).
  destruct (listObjects_Normal_log _ _ _ _ _ _ _ Hlist) as (later & Hlog2 & Hlater).
  exists pre, later, objects, s1, s2.
  split; [exact Hpro |]. split; [exact Hlist |].
  split; [exact Hpre |]. split; [exact Hlater |].
  destruct (length objects =? 0)%nat.
  - unfold try_catch in Hbranch.
    destruct (bind _ _ s2) as [[[] | r' | e |] s5] eqn:Hbody.
    + injection Hbranch as <-.
      apply bind_Normal_inv in Hbody as (out1 & s6 & Hhead & Hbody).
      apply bind_Normal_inv in Hbody as (out2 & s7 & Hput & Hclear).
      apply call_Normal_inv in Hhead. apply call_Normal_inv in Hput.
      apply call_Normal_inv in Hclear.
      rewrite Hused, Hclear, Hput, Hhead, Hlog2, Hlog1, <- !app_assoc.
      reflexivity.
    + discriminate.
    + destruct (is404 e); discriminate.
    + discriminate.
  - apply bind_Normal_inv in Hbranch as ([] & s5 & Hcopy & Hbranch).
    apply bind_Normal_inv in Hbranch as ([] & s6 & Hupd & Hclear).
    apply copyObjects_Normal_log in Hcopy.
    apply call_Normal_inv in Hupd. apply call_Normal_inv in Hclear.
    rewrite Hused, Hclear, Hupd, Hcopy, Hlog2, Hlog1, <- !app_assoc.
    reflexivity.
Qed.

(** X14.  When a copy of the loop fails, the handler stops there: the
    objects listed before it have been copied, the ones after it are not
    sent, neither the timestamp propagation nor the cache call nor the
    last-used call is made, and the answer is what [handleWebDAVError]
    makes of the failure.  Nothing undoes the copies already made. *)
Theorem failed_copy_stops_the_transfer (fuel : nat) (c : Request)
    (path userId userType : string) (db w3 w4 : World) (p : Plan)
    (s1 s2 : St World) (done rest : list S3Object) (object : S3Object)
    (log3 : list Event) (e : Error) :
  resolve C c path userId userType (db, []) = (Normal p, (db, [])) ->
  isDirectory p = true ->
  depth p <> "0" ->
  prologue C p (db, []) = (Normal tt, s1) ->
  listObjects C fuel (s3Config p) (sourceS3SubPath p) [] None s1
    = (Normal (done ++ object :: rest)%list, s2) ->
  copyObjects C (s3Config p) (sourceS3SubPath p) (destS3SubPath p) done s2
    = (Normal tt, (w3, log3)) ->
  send C (CopyObjectCommand (bucket_name (s3Config p))
            (copySourceOf (s3Config p) (Key object))
            (newKeyOf (sourceS3SubPath p) (destS3SubPath p) object)) w3
    = (Err e, w4) ->
  handleCopy C fuel c path userId userType db =
  (Some (handleWebDAVError C "COPY" e false false), w4,
   (snd s2 ++ List.map (copyObjectEvent p) done ++ [copyObjectEvent p object])%list).
Proof.
  intros Hres Hdir Hdepth Hpro Hlist Hdone Hsend.
  pose proof (copyObjects_Normal_log _ _ _ _ Hdone) as Hlog3.
  cbn [snd] in Hlog3.
  rewrite handleCopy_unfold, Hres. cbn [fst]. cbv iota.
  unfold transfer, bind at 1. rewrite Hpro.
  unfold dispatch. rewrite Hdir. unfold copyDirectory.
  rewrite (eqb_false_of_neq _ _ Hdepth).
  unfold bind at 1 2. rewrite Hlist.
  replace (length (done ++ object :: rest) =? 0)%nat with false
    by (destruct done; reflexivity).
  unfold bind at 1. rewrite copyObjects_app.
  unfold bind at 1. rewrite Hdone.
  cbn [copyObjects]. unfold bind at 1, s3, call. rewrite Hsend.
  cbn [finish]. rewrite Hlog3, <- app_assoc. reflexivity.
Qed.

End Recursive.

(** ** Keys worked out by the handler *)

Section Keys.

Lemma includes_cons c s sub :
  Js.includes (String c s) sub = false -> Js.includes s sub = false.
Proof.
  cbn [Js.includes]. intros H. apply orb_false_iff in H as [_ H]. exact H.
Qed.

Lemma lastIndexOf_absent i s :
  Js.includes s "/" = false -> Js.lastIndexOf_from i s "/" = -1.
Proof.
  revert i. induction s as [| c s IH]; intros i H.
  - reflexivity.
  - cbn [Js.lastIndexOf_from]. rewrite (IH (i + 1) (includes_cons _ _ _ H)).
    cbn [Js.includes] in H. apply orb_false_iff in H as [H _].
    rewrite H. reflexivity.
Qed.

Lemma lastIndexOf_last_separator i a b :
  0 <= i -> Js.includes b "/" = false ->
  Js.lastIndexOf_from i (a ++ "/" ++ b) "/" = i + Z.of_nat (String.length a).
Proof.
  revert i. induction a as [| c a IH]; intros i Hi Hb.
  - change ("" ++ "/" ++ b) with (String "/" b).
    cbn [Js.lastIndexOf_from]. rewrite (lastIndexOf_absent _ _ Hb).
    replace (String.prefix "/" (String "/" b)) with true
      by (symmetry; apply prefix_cons; split; [| destruct b]; reflexivity).
    cbn. lia.
  - change (String c a ++ "/" ++ b) with (String c (a ++ "/" ++ b)).
    cbn [Js.lastIndexOf_from]. rewrite IH by (lia || assumption).
    replace (0 <=? i + 1 + Z.of_nat (String.length a)) with true
      by (symmetry; apply Z.leb_le; lia).
    cbn [String.length]. lia.
Qed.

Lemma substring0_app p r :
  String.substring 0 (String.length p) (p ++ r) = p.
Proof.
  induction p as [| c p IH]; [destruct r; reflexivity |].
  change (String c p ++ r) with (String c (p ++ r)).
  cbn [String.length String.substring]. now rewrite IH.
Qed.

(** X15.  Line 113 cuts a key after its last separator: for a key
    [a/b], where [b] holds no separator, the parent is [a/].  A key that
    ends in a separator ([b] empty, as every directory key does) is
    therefore its own parent. *)
Theorem destParentPath_of_child (a b : string) :
  Js.includes b "/" = false ->
  destParentPathOf (a ++ "/" ++ b) = a ++ "/" /\
  destParentPathOf (a ++ "/") = a ++ "/".
Proof.
  assert (Hcut : forall b', Js.includes b' "/" = false ->
                            destParentPathOf (a ++ "/" ++ b') = a ++ "/").
  { intros b' Hb'. unfold destParentPathOf, Js.lastIndexOf.
    rewrite lastIndexOf_last_separator by (lia || assumption).
    unfold Js.substring.
    rewrite <- (BackendFacts.string_app_assoc a "/" b'), !length_app.
    cbn [String.length].
    replace (Z.to_nat _) with 0%nat by lia.
    replace (Z.to_nat _) with (String.length a + 1)%nat by lia.
    replace (String.length a + 1)%nat with (String.length (a ++ "/"))
      by (rewrite length_app; reflexivity).
    apply substring0_app. }
  intros Hb. split; [apply Hcut; exact Hb |].
  apply (Hcut ""); reflexivity.
Qed.

(** X16.  The loop of lines 237-251 moves every key under the source
    prefix to the destination prefix with the same relative path, so two
    different listed keys are never copied onto one destination key. *)
Theorem copies_do_not_collide (src dst : string) (keys : list string) :
  Forall (fun k => String.prefix src k = true) keys ->
  NoDup keys ->
  NoDup (List.map (fun k => newKeyOf src dst {| Key := k |}) keys) /\
  Forall (fun k => exists rel, k = src ++ rel /\
                               newKeyOf src dst {| Key := k |} = dst ++ rel)
         keys.
Proof.
  intros Hunder Hnodup. split.
  - induction Hnodup as [| k keys Hnotin Hnodup IH]; [constructor |].
    apply Forall_cons in Hunder as [Hk Hunder].
    cbn [List.map]. constructor; [| apply IH; exact Hunder].
    intros Hin. apply list_elem_of_In, in_map_iff in Hin as (k' & Heq & Hin').
    apply Hnotin. apply list_elem_of_In.
    rewrite Forall_forall in Hunder.
    assert (Hk' : String.prefix src k' = true)
      by (apply Hunder, list_elem_of_In; exact Hin').
    rewrite <- (BackendFacts.newKey_inj src dst k' k Hk' Hk Heq). exact Hin'.
  - apply Forall_forall. intros k Hin. rewrite Forall_forall in Hunder.
    destruct (proj1 (prefix_spec _ _) (Hunder k Hin)) as [rel ->].
    exists rel. split; [reflexivity | apply BackendFacts.newKey_of_suffix].
Qed.

Lemma endsWith_app a b : Js.endsWith (a ++ b) b = true.
Proof.
  unfold Js.endsWith. rewrite length_app.
  replace (String.length b <=? String.length a + String.length b)%nat
    with true by (symmetry; apply Nat.leb_le; lia).
  replace (String.length a + String.length b - String.length b)%nat
    with (String.length a) by lia.
  rewrite substring_drop. apply String.eqb_refl.
Qed.

(** X17.  The root prefix handed to the timestamp propagation (lines 254
    and 291) is empty when the configuration has none, and otherwise the
    configured prefix with exactly one separator added when it did not
    end in one: it is either empty or ends in a separator, and it starts
    with the configured prefix. *)
Theorem rootPrefix_is_a_directory_prefix (cfg : S3Config) :
  (rootPrefixOf cfg = "" \/ Js.endsWith (rootPrefixOf cfg) "/" = true) /\
  (forall rp, root_prefix cfg = Some rp ->
              String.prefix rp (rootPrefixOf cfg) = true /\
              (rootPrefixOf cfg = "" <-> rp = "")) /\
  (root_prefix cfg = None -> rootPrefixOf cfg = "").
Proof.
  unfold rootPrefixOf. destruct (root_prefix cfg) as [rp |].
  - destruct (String.eqb rp "") eqn:Hempty.
    + apply String.eqb_eq in Hempty. subst rp.
      split; [left; reflexivity |]. split; [| discriminate].
      intros rp [= <-]. split; [reflexivity | tauto].
    + apply String.eqb_neq in Hempty.
      destruct (Js.endsWith rp "/") eqn:Hends.
      * split; [right; exact Hends |]. split; [| discriminate].
        intros rp' [= <-]. split; [apply prefix_refl | tauto].
      * split; [right; apply endsWith_app |]. split; [| discriminate].
        intros rp' [= <-]. split; [apply prefix_app |].
        split; [| tauto]. intros H. destruct rp; discriminate.
  - split; [left; reflexivity |]. split; [discriminate | reflexivity].
Qed.

End Keys.

(** ** The file branch on the concrete backend *)

Module MoreBackendFacts.
Import Backend.
Import BackendFacts.

(** X18.  On the object store, a file copy that may overwrite and whose
    source object exists ends in 201; afterwards the destination key
    holds the source object, content type included, the source key still
    holds it, and no other key has changed except possibly the parent
    marker of line 113; the destination key has been invalidated in the
    cache and the mount marked as used. *)
Theorem file_copy_reproduces_the_source (fuel : nat) (c : Request)
    (path userId userType : string) (w : Db) (p : Plan) (o : Object) :
  resolve collaborators c path userId userType (w, []) = (Normal p, (w, [])) ->
  bucket_name (s3Config p) = bucket w ->
  isDirectory p = false ->
  allowOverwrite p = true ->
  objects w !! sourceS3SubPath p = Some o ->
  sourceS3SubPath p <> destParentPathOf (destS3SubPath p) ->
  exists w' log,
    handleCopy collaborators fuel c path userId userType w
      = (Some created, w', log) /\
    objects w' !! destS3SubPath p = Some o /\
    objects w' !! sourceS3SubPath p = Some o /\
    (forall j, j <> destS3SubPath p ->
               j <> destParentPathOf (destS3SubPath p) ->
               objects w' !! j = objects w !! j) /\
    invalidated w' = (invalidated w ++ [destS3SubPath p])%list /\
    last_used w' = (last_used w ++ [id (mount p)])%list.
Proof.
  intros Hres Hb Hdir Hallow Hsrc Hneq.
  rewrite handleCopy_unfold, Hres. cbn [fst]. cbv iota.
  destruct (prologue_backend p w Hb) as (o2 & log2 & out & Hpro & Hout & Hframe).
  destruct Hout as [-> | [_ Hno]]; [| congruence].
  unfold transfer, bind at 1. rewrite Hpro.
  unfold dispatch. rewrite Hdir. unfold copyFile.
  unfold bind at 1 2, try_catch, bind at 1.
  rewrite (s3_head_backend (s3Config p) _ (with_objects o2 w) log2 Hb).
  cbn [objects with_objects]. rewrite (Hframe _ Hneq), Hsrc.
  unfold ret at 1. unfold bind at 1, s3, call.
  cbn [send collaborators s3_send].
  change (bucket (with_objects o2 w)) with (bucket w).
  rewrite (send_same_bucket _ _ Hb).
  rewrite (copySource_key (s3Config p) (sourceS3SubPath p) w Hb).
  cbn [objects with_objects]. rewrite (Hframe _ Hneq), Hsrc.
  do 2 eexists. split; [reflexivity |].
  cbn [objects with_objects invalidated last_used updateParents clearCache
       updateLastUsed fst snd].
  split; [apply lookup_insert_eq |].
  split.
  - destruct (String.string_dec (destS3SubPath p) (sourceS3SubPath p)) as [-> | Hd].
    + apply lookup_insert_eq.
    + rewrite lookup_insert_ne by exact Hd. rewrite (Hframe _ Hneq). exact Hsrc.
  - split; [| split; reflexivity].
    intros j Hj Hjp. rewrite lookup_insert_ne by congruence.
    apply Hframe. exact Hjp.
Qed.

End MoreBackendFacts.

(** ** The further properties on the concrete backend *)

Module MoreExamples.
Import Backend.
Import Examples.

(** A store that refuses every command addressed at one key. *)
Definition accessDenied : Error :=
  {| err_name := "AccessDenied"; httpStatusCode := Some 403 |}.

Definition s3_send_denying (denied : string) (cmd : Command) (w : Db)
    : Result Output * Db :=
  let addressed :=
    match cmd with
    | HeadObjectCommand _ key => String.eqb key denied
    | PutObjectCommand _ key _ _ _ => String.eqb key denied
    | CopyObjectCommand _ _ key => String.eqb key denied
    | ListObjectsV2Command _ _ _ => false
    end in
  if addressed then (Err accessDenied, w) else s3_send cmd w.

Definition collaboratorsDenying (denied : string) : Collaborators Db :=
  {| findMountPointByPath := findMount;
     parseDestinationPath := parseDestination;
     normalizeS3SubPath := normalize;
     selectS3Config := selectConfig;
     createS3Client := fun _ _ => Ok tt;
     checkDirectoryExists := directoryExists;
     send := s3_send_denying denied;
     updateParentDirectoriesModifiedTime := updateParents;
     clearCacheAfterWebDAVOperation := clearCache;
     updateMountLastUsed := updateLastUsed;
     handleWebDAVError := webdavError |}.

Definition mountNotFound : MountError :=
  {| me_status := 404; me_message := "mount not found" |}.

Definition notMounted : MountResult :=
  {| mr_error := Some mountNotFound; mr_isRoot := false; mr_mount := None;
     mr_subPath := "" |}.

Definition rootSignal : MountResult :=
  {| mr_error := None; mr_isRoot := true; mr_mount := None; mr_subPath := "" |}.

(** COPY /x/a, a path under no mount. *)
Lemma source_lookup_error_is_answered_witness :
  run 1 (request (Some "/m/b") None None) "/x/a" db1
    = (Some (errorResponse mountNotFound), db1, []) /\
  status (errorResponse mountNotFound) = 404 /\
  body (errorResponse mountNotFound) = Some "mount not found".
Proof.
  apply (source_lookup_error_is_answered collaborators 1
           (request (Some "/m/b") None None) "/x/a" "admin-id" "admin" db1
           notMounted mountNotFound); reflexivity.
Defined.

(** COPY /m/a/x without a Destination header. *)
Lemma missing_destination_is_400_witness :
  run 1 (request None None None) "/m/a/x" db1 = (Some missingDestination, db1, []).
Proof.
  apply (missing_destination_is_400 collaborators 1 (request None None None)
           "/m/a/x" "admin-id" "admin" db1 (found mount1 "/a/x")); reflexivity.
Defined.

(** COPY /m/a/x with Destination /. *)
Lemma root_destination_is_403_witness :
  run 1 (request (Some "/") None None) "/m/a/x" db1
    = (Some rootDestination, db1, []).
Proof.
  apply (root_destination_is_403 collaborators 1 (request (Some "/") None None)
           "/m/a/x" "admin-id" "admin" "/" db1 (found mount1 "/a/x") rootSignal);
    try reflexivity; discriminate.
Defined.

(** COPY /m/a/x with Destination /x/b, a path under no mount. *)
Lemma destination_lookup_error_is_answered_witness :
  run 1 (request (Some "/x/b") None None) "/m/a/x" db1
    = (Some (errorResponse mountNotFound), db1, []).
Proof.
  apply (destination_lookup_error_is_answered collaborators 1
           (request (Some "/x/b") None None) "/m/a/x" "admin-id" "admin" "/x/b"
           db1 (found mount1 "/a/x") notMounted mountNotFound);
    try reflexivity; discriminate.
Defined.

(** COPY / (the virtual root) with Destination /m/b. *)
Lemma source_without_mount_is_a_TypeError_witness :
  run 1 (request (Some "/m/b") None None) "/" db1
    = (Some (webdavError "COPY" TypeError false false), db1, []).
Proof.
  apply (source_without_mount_is_a_TypeError collaborators 1
           (request (Some "/m/b") None None) "/" "admin-id" "admin" "/m/b"
           db1 rootSignal (found mount1 "/b"));
    try reflexivity; discriminate.
Defined.



(** COPY /m/a/x with [Depth: 1]. *)
Lemma rejected_request_changes_nothing_witness :
  exists r,
    run 1 (request (Some "/m/b") (Some "1") None) "/m/a/x" db1 = (Some r, db1, []).
Proof.
  apply (rejected_request_changes_nothing collaborators 1
           (request (Some "/m/b") (Some "1") None) "/m/a/x" "admin-id" "admin" db1).
  intros p. discriminate.
Defined.

(** COPY of the file /m/a/x to /m/b/x. *)
Lemma file_copy_calls_witness :
  exists pre post,
    snd (run 5 (request (Some "/m/b/x") None None) "/m/a/x" db1)
      = (pre ++ post)%list /\
    PrologueLog (plan "infinity" false "a/x" "b/x" true) pre /\
    FileLog (plan "infinity" false "a/x" "b/x" true) post /\
    (forall r s'',
       handleCopy_try collaborators 5 (request (Some "/m/b/x") None None)
         "/m/a/x" "admin-id" "admin" (db1, []) = (Normal r, s'') ->
       r = created /\
       post = [headSourceEvent (plan "infinity" false "a/x" "b/x" true);
               copyFileEvent (plan "infinity" false "a/x" "b/x" true);
               updateParentsEvent (plan "infinity" false "a/x" "b/x" true);
               clearFileEvent (plan "infinity" false "a/x" "b/x" true);
               lastUsedEvent (plan "infinity" false "a/x" "b/x" true)]).
Proof.
  apply (file_copy_calls collaborators 5 (request (Some "/m/b/x") None None)
           "/m/a/x" "admin-id" "admin" db1
           (plan "infinity" false "a/x" "b/x" true) (db1, []));
    reflexivity.
Defined.

(** COPY of the missing file /m/a/y to /m/a/w. *)
Lemma missing_source_file_is_404_witness :
  run 5 (request (Some "/m/a/w") None None) "/m/a/y" db1 =
  (Some sourceFileMissing, db1,
   [ECheckDirectoryExists "bkt" "a/"; ESend (HeadObjectCommand "bkt" "a/w");
    ESend (HeadObjectCommand "bkt" "a/y")]).
Proof.
  apply (missing_source_file_is_404 collaborators 5
           (request (Some "/m/a/w") None None) "/m/a/y" "admin-id" "admin"
           db1 db1 db1 (plan "infinity" false "a/y" "a/w" true)
           [ECheckDirectoryExists "bkt" "a/"; ESend (HeadObjectCommand "bkt" "a/w")]
           (notFound "NotFound"));
    reflexivity.
Defined.

(** COPY of the file /m/a/x to /m/b/x on a store that refuses to write
    the marker [b/]. *)
Lemma parent_put_failure_is_swallowed_witness :
  handleCopy (collaboratorsDenying "b/") 5 (request (Some "/m/b/x") None None)
    "/m/a/x" "admin-id" "admin" db1 =
  finish (collaboratorsDenying "b/")
    (afterParent (collaboratorsDenying "b/") 5
       (plan "infinity" false "a/x" "b/x" true)
       (db1, [ECheckDirectoryExists "bkt" "b/";
              ESend (PutObjectCommand "bkt" "b/" ""
                       (Some "application/x-directory") None)])) /\
  fst (fst (handleCopy (collaboratorsDenying "b/") 5
              (request (Some "/m/b/x") None None)
              "/m/a/x" "admin-id" "admin" db1)) = Some created.
Proof.
  split; [| reflexivity].
  apply (parent_put_failure_is_swallowed (collaboratorsDenying "b/") 5
           (request (Some "/m/b/x") None None) "/m/a/x" "admin-id" "admin"
           db1 db1 db1 (plan "infinity" false "a/x" "b/x" true)
           (Err accessDenied));
    reflexivity.
Defined.

(** COPY of the file /m/a/x to /m/a/w on a store that refuses the head
    of [a/w]. *)
Lemma destination_head_failure_witness :
  handleCopy (collaboratorsDenying "a/w") 5 (request (Some "/m/a/w") None None)
    "/m/a/x" "admin-id" "admin" db1 =
  (Some (webdavError "COPY" accessDenied false false), db1,
   [ECheckDirectoryExists "bkt" "a/"; ESend (HeadObjectCommand "bkt" "a/w")]).
Proof.
  apply (destination_head_failure (collaboratorsDenying "a/w") 5
           (request (Some "/m/a/w") None None) "/m/a/x" "admin-id" "admin"
           db1 db1 db1 (plan "infinity" false "a/x" "a/w" true)
           [ECheckDirectoryExists "bkt" "a/"] accessDenied);
    reflexivity.
Defined.

(** [db1] after the file [a/x] has been copied to [a/w]. *)
Definition db1_file_copied : Db :=
  {| bucket := "bkt"; objects := <["a/w" := file "1"]> store1; maxKeys := 2;
     mounts := mounts db1; s3_configs := s3_configs db1;
     touched := [("a/", "")]; invalidated := ["a/w"]; last_used := ["1"] |}.

(** COPY of the file /m/a/x to /m/a/w. *)
Lemma success_ends_with_cache_and_last_used_witness :
  exists p evs,
    resolve collaborators (request (Some "/m/a/w") None None) "/m/a/x"
      "admin-id" "admin" (db1, []) = (Normal p, (db1, [])) /\
    created = created /\
    [ECheckDirectoryExists "bkt" "a/"; ESend (HeadObjectCommand "bkt" "a/w");
     ESend (HeadObjectCommand "bkt" "a/x");
     ESend (CopyObjectCommand "bkt" "bkt%2Fa%2Fx" "a/w");
     EUpdateParentDirectoriesModifiedTime "bkt" "a/w" "";
     EClearCache "a/w" false "1"; EUpdateMountLastUsed "1"]
    = (evs ++ [EClearCache (destS3SubPath p) (Js.endsWith "/m/a/x" "/")
                 (id (mount p));
               EUpdateMountLastUsed (id (mount p))])%list /\
    Forall (fun ev => isBookkeeping ev = false) evs.
Proof.
  apply (success_ends_with_cache_and_last_used collaborators 5
           (request (Some "/m/a/w") None None) "/m/a/x" "admin-id" "admin"
           db1 db1_file_copied created).
  reflexivity.
Defined.

(** [db1] with the marker [b/], and after [a/] has been copied to [b/]. *)
Definition db1_b : Db := with_objects (<["b/" := marker]> store1) db1.

Definition db1_directory_copied : Db :=
  {| bucket := "bkt";
     objects := <["b/z/x" := file "2"]> (<["b/x" := file "1"]>
                  (<["b/" := marker]> store1));
     maxKeys := 2; mounts := mounts db1; s3_configs := s3_configs db1;
     touched := []; invalidated := ["b/"]; last_used := ["1"] |}.

Definition prologueLog_b : list Event :=
  [ECheckDirectoryExists "bkt" "b/";
   ESend (PutObjectCommand "bkt" "b/" "" (Some "application/x-directory") None);
   ESend (HeadObjectCommand "bkt" "b/")].

Definition listingLog_a : list Event :=
  [ESend (ListObjectsV2Command "bkt" "a/" None);
   ESend (ListObjectsV2Command "bkt" "a/" (Some "++"))].

(** COPY of the directory /m/a/ to /m/b/: two pages, three objects. *)
Lemma recursive_copy_calls_witness :
  exists pre later objects s1 s2,
    prologue collaborators (plan "infinity" true "a/" "b/" true) (db1, [])
      = (Normal tt, s1) /\
    listObjects collaborators 5 config1 "a/" [] None s1 = (Normal objects, s2) /\
    PrologueLog (plan "infinity" true "a/" "b/" true) pre /\
    Forall (fun t => Js.truthy t = true) later /\
    (prologueLog_b ++ listingLog_a ++
     [ESend (CopyObjectCommand "bkt" "bkt%2Fa%2F" "b/");
      ESend (CopyObjectCommand "bkt" "bkt%2Fa%2Fx" "b/x");
      ESend (CopyObjectCommand "bkt" "bkt%2Fa%2Fz%2Fx" "b/z/x");
      EUpdateParentDirectoriesModifiedTime "bkt" "b/" "";
      EClearCache "b/" true "1"; EUpdateMountLastUsed "1"])%list =
    (pre ++ (listEvent (plan "infinity" true "a/" "b/" true) None ::
             List.map (listEvent (plan "infinity" true "a/" "b/" true)) later) ++
     (if (length objects =? 0)%nat
      then [headSourceEvent (plan "infinity" true "a/" "b/" true);
            putDestEvent (plan "infinity" true "a/" "b/" true)]
      else List.map (copyObjectEvent (plan "infinity" true "a/" "b/" true)) objects ++
           [updateParentsEvent (plan "infinity" true "a/" "b/" true)]) ++
     [clearDirectoryEvent (plan "infinity" true "a/" "b/" true);
      lastUsedEvent (plan "infinity" true "a/" "b/" true)])%list.
Proof.
  apply (recursive_copy_calls collaborators 5
           (request (Some "/m/b/") None None) "/m/a/" "admin-id" "admin"
           db1 db1_directory_copied (plan "infinity" true "a/" "b/" true) created).
  - reflexivity.
  - reflexivity.
  - discriminate.
  - reflexivity.
Defined.

(** COPY of the directory /m/a/ to /m/b/ on a store that refuses to
    write [b/x]: [a/] has been copied, [a/z/x] is never sent, and the
    copy of [a/] stays. *)
Lemma failed_copy_stops_the_transfer_witness :
  handleCopy (collaboratorsDenying "b/x") 5 (request (Some "/m/b/") None None)
    "/m/a/" "admin-id" "admin" db1 =
  (Some (webdavError "COPY" accessDenied false false), db1_b,
   ((prologueLog_b ++ listingLog_a) ++
    List.map (copyObjectEvent (plan "infinity" true "a/" "b/" true))
      [{| Key := "a/" |}] ++
    [copyObjectEvent (plan "infinity" true "a/" "b/" true) {| Key := "a/x" |}])%list).
Proof.
  apply (failed_copy_stops_the_transfer (collaboratorsDenying "b/x") 5
           (request (Some "/m/b/") None None) "/m/a/" "admin-id" "admin"
           db1 db1_b db1_b (plan "infinity" true "a/" "b/" true)
           (db1_b, prologueLog_b) (db1_b, (prologueLog_b ++ listingLog_a)%list)
           [{| Key := "a/" |}] [{| Key := "a/z/x" |}] {| Key := "a/x" |}
           ((prologueLog_b ++ listingLog_a) ++
            [ESend (CopyObjectCommand "bkt" "bkt%2Fa%2F" "b/")])%list
           accessDenied).
  - reflexivity.
  - reflexivity.
  - discriminate.
  - reflexivity.
  - reflexivity.
  - reflexivity.
  - reflexivity.
Defined.

(** COPY /m/a/ to /m/b/ with [Depth: 0]. *)
Lemma depth0_never_propagates_witness :
  Forall (fun ev => isUpdateParents ev = false)
         (snd (run 5 (request (Some "/m/b/") (Some "0") None) "/m/a/" db1)).
Proof.
  apply (depth0_never_propagates collaborators 5
           (request (Some "/m/b/") (Some "0") None) "/m/a/" "admin-id" "admin" db1);
    reflexivity.
Defined.

(** The key [a/x] and the directory key [a/]. *)
Lemma destParentPath_of_child_witness :
  destParentPathOf ("a" ++ "/" ++ "x") = "a" ++ "/" /\
  destParentPathOf ("a" ++ "/") = "a" ++ "/".
Proof. apply (destParentPath_of_child "a" "x"). reflexivity. Defined.

(** The keys of [store1] moved from [a/] to [b/]. *)
Lemma copies_do_not_collide_witness :
  NoDup (List.map (fun k => newKeyOf "a/" "b/" {| Key := k |})
           ["a/"; "a/x"; "a/z/x"]) /\
  Forall (fun k => exists rel, k = "a/" ++ rel /\
                               newKeyOf "a/" "b/" {| Key := k |} = "b/" ++ rel)
         ["a/"; "a/x"; "a/z/x"].
Proof.
  apply (copies_do_not_collide "a/" "b/" ["a/"; "a/x"; "a/z/x"]).
  - repeat constructor.
  - repeat constructor; cbn; rewrite ?elem_of_cons, ?elem_of_nil;
      intuition discriminate.
Defined.

(** COPY of the file /m/a/x to /m/a/w on the store. *)
Lemma file_copy_reproduces_the_source_witness :
  exists w' log,
    run 5 (request (Some "/m/a/w") None None) "/m/a/x" db1
      = (Some created, w', log) /\
    objects w' !! "a/w" = Some (file "1") /\
    objects w' !! "a/x" = Some (file "1") /\
    (forall j, j <> "a/w" -> j <> destParentPathOf "a/w" ->
               objects w' !! j = objects db1 !! j) /\
    invalidated w' = (invalidated db1 ++ ["a/w"])%list /\
    last_used w' = (last_used db1 ++ ["1"])%list.
Proof.
  apply (MoreBackendFacts.file_copy_reproduces_the_source 5
           (request (Some "/m/a/w") None None) "/m/a/x" "admin-id" "admin"
           db1 (plan "infinity" false "a/x" "a/w" true) (file "1"));
    try reflexivity.
  intros H. vm_compute in H. discriminate H.
Defined.

End MoreExamples.

(** * The file service of the frontend

    [fileService.js] wraps the HTTP client of the frontend.  The client
    ([get], [post], [put], [del]), the browser's XMLHttpRequest, the
    authentication store and the caller's callbacks are collaborators;
    every call to one of them is logged.  The client answers with an
    object, the envelope of the API.  Progress events only feed the
    caller's [onProgress] and never settle the upload, and the console
    output has no effect on the result; neither is part of the model. *)

Module FileService.

(** ** Values and objects *)

(** A JavaScript value as it occurs in upload options, query parameters
    and request bodies.  Numbers are the integers. *)
Inductive Value :=
| VUndefined
| VNull
| VBool (b : bool)
| VNumber (n : Z)
| VString (s : string)
| VStrings (items : list string).     (* an array of strings *)

Definition truthy (v : Value) : bool :=
  match v with
  | VUndefined | VNull => false
  | VBool b => b
  | VNumber n => negb (n =? 0)
  | VString s => negb (String.eqb s "")
  | VStrings _ => true
  end.

(** A string or [undefined] / [null]. *)
Definition ofOption (v : option string) : Value :=
  match v with
  | Some s => VString s
  | None => VUndefined
  end.

(** An object used as a dictionary; a missing key reads [undefined]. *)
Definition Dict : Type := gmap string Value.

Definition field (o : Dict) (k : string) : Value := default VUndefined (o !! k).

(** A [File]: the three properties the service reads. *)
Record File := {
  name : option string;
  type : option string;
  size : Z }.

(** [String(n)] for an integer. *)
Definition toString (n : Z) : string := pretty n.

(** ** [getAccurateMimeType] *)

Definition toLowerUnit (c : ascii) : ascii :=
  let n := nat_of_ascii c in
  if ((65 <=? n) && (n <=? 90))%nat then ascii_of_nat (n + 32) else c.

Fixpoint toLowerCase (s : string) : string :=
  match s with
  | EmptyString => EmptyString
  | String c rest => String (toLowerUnit c) (toLowerCase rest)
  end.

Definition markdownExtensions : list string :=
  ["md"; "markdown"; "mdown"; "mkd"; "mdwn"; "mdtxt"; "mdtext"; "rmd"].

(** [/\.(md|markdown|mdown|mkd|mdwn|mdtxt|mdtext|rmd)$/i.test(s)]: the
    string ends, letter case aside, in a dot and one of the extensions. *)
Definition testMarkdown (s : string) : bool :=
  existsb (fun ext => Js.endsWith (toLowerCase s) ("." ++ ext)) markdownExtensions.

(** Lines 17-25. *)
Definition getAccurateMimeType (file : File) : string :=
  if Js.truthy (name file) && testMarkdown (default "" (name file))
  then "text/markdown"
  else Js.or_else (type file) "application/octet-stream".

(** ** Promises *)

(** What a promise is rejected with: an [Error] made by this file, or a
    value thrown by a collaborator, of which only [.message] is read. *)
Inductive Exn :=
| NewError (message : string)
| Foreign (message : option string) (tag : nat).

Definition messageOf (e : Exn) : option string :=
  match e with
  | NewError m => Some m
  | Foreign m _ => m
  end.

Inductive Settled (A : Type) :=
| Fulfilled (a : A)
| Rejected (e : Exn).
Arguments Fulfilled {A} a.
Arguments Rejected {A} e.

(** ** What goes over the wire *)

Inductive FormEntry :=
| FileEntry (f : File)
| ValueEntry (v : Value).

Inductive Payload :=
| Json (fields : list (string * Value))
| Form (entries : list (string * FormEntry)).

(** The [data] of a presign reply (line 167). *)
Record PresignData := {
  upload_url : string;
  file_id : option string;
  storage_path : Value;
  s3_url : Value;
  slug : Value;
  provider_type : option string;
  contentType : option string }.

(** The envelope the API answers with. *)
Record Reply := {
  success : bool;
  message : option string;
  data : option PresignData }.

(** How the XMLHttpRequest of lines 178-258 ends: exactly one of its
    [load], [error] and [abort] events. *)
Inductive XhrOutcome :=
| XhrLoad (status : Z) (statusText : string) (etag : option string)
| XhrError
| XhrAbort.

Record AuthStore := {
  isAdmin : bool;
  authType : option string;
  apiKey : option string }.

Inductive Call :=
| CGet (url : string) (params : option Dict)
| CPost (url : string) (data : Payload) (headers : option (list (string * Value)))
| CPut (url : string) (data : Payload)
| CDel (url : string) (data : Payload)
| CXhrPut (url : string) (headers : list (string * string))
| COnXhrReady
| COnFileIdReady (fileId : string)
| CUseAuthStore.

(** The collaborators: the client of ["../client"], the browser and the
    authentication store.  The third argument of [post] is the [headers]
    of its configuration, when one is passed. *)
Record Client (W : Type) := {
  get : string -> option Dict -> W -> Settled Reply * W;
  post : string -> Payload -> option (list (string * Value)) -> W ->
         Settled Reply * W;
  put : string -> Payload -> W -> Settled Reply * W;
  del : string -> Payload -> W -> Settled Reply * W;
  xhrPut : string -> list (string * string) -> File -> W -> XhrOutcome * W;
  useAuthStore : W -> Settled AuthStore * W }.
Arguments get {W}.
Arguments post {W}.
Arguments put {W}.
Arguments del {W}.
Arguments xhrPut {W}.
Arguments useAuthStore {W}.

(** The caller's callbacks; [None] is a value that is not a function. *)
Record Callbacks (W : Type) := {
  onXhrReady : option (W -> Settled unit * W);
  onFileIdReady : option (string -> W -> Settled unit * W) }.
Arguments onXhrReady {W}.
Arguments onFileIdReady {W}.

Section Async.
Context {W : Type}.

Definition State : Type := W * list Call.
Definition Async (A : Type) : Type := State -> Settled A * State.

Definition fulfil {A} (a : A) : Async A := fun s => (Fulfilled a, s).
Definition reject {A} (e : Exn) : Async A := fun s => (Rejected e, s).

(** [const a = await m; k a] *)
Definition andThen {A B} (m : Async A) (k : A -> Async B) : Async B :=
  fun s =>
    match m s with
    | (Fulfilled a, s') => k a s'
    | (Rejected e, s') => (Rejected e, s')
    end.

(** [try { m } catch (error) { h error }] *)
Definition tryCatch {A} (m : Async A) (h : Exn -> Async A) : Async A :=
  fun s =>
    match m s with
    | (Rejected e, s') => h e s'
    | settled => settled
    end.

(** A call to a collaborator: logged, then performed. *)
Definition invoke {A} (c : Call) (f : W -> Settled A * W) : Async A :=
  fun s =>
    let '(w, log) := s in
    let '(r, w') := f w in
    (r, (w', (log ++ [c])%list)).

End Async.

Arguments State W : clear implicits.
Arguments Async W A : clear implicits.

Declare Scope async_scope.
Delimit Scope async_scope with async.
Notation "x <- m ;; k" := (andThen m (fun x => k))
  (at level 100, m at next level, right associativity) : async_scope.
Notation "'do' m ;; k" := (andThen m (fun _ => k))
  (at level 100, m at next level, right associativity) : async_scope.

(** [`${v}`] of a string or [undefined]. *)
Definition interpolate (v : option string) : string := default "undefined" v.

(** The [replace] of line 214: every double-quote unit is removed. *)
Fixpoint removeQuotes (s : string) : string :=
  match s with
  | EmptyString => EmptyString
  | String c rest =>
      if Ascii.eqb c "034" then removeQuotes rest
      else String c (removeQuotes rest)
  end.

Definition slugTaken : string := "链接后缀已被占用".

(** Line 325: [{ limit, offset, ...options }], after the defaults of line
    324 (a parameter that is [undefined] takes its default; options that
    are [null] or [undefined] spread to nothing). *)
Definition filesParams (limit offset : Value) (options : option Dict) : Dict :=
  let limit := match limit with VUndefined => VNumber 50 | v => v end in
  let offset := match offset with VUndefined => VNumber 0 | v => v end in
  let options := default ∅ options in
  options ∪ <["limit" := limit]> (<["offset" := offset]> ∅).


Section Service.
Context {W : Type} (C : Client W).
Local Open Scope async_scope.

(** Lines 33-60. *)
Definition uploadForm (file : File) (options : Dict) : list (string * FormEntry) :=
  let optional (k : string) :=
    if truthy (field options k) then [(k, ValueEntry (field options k))] else [] in
  ([("file", FileEntry file);
    ("mimetype", ValueEntry (VString (getAccurateMimeType file)))] ++
   optional "s3_config_id" ++ optional "slug" ++ optional "path" ++
   optional "remark" ++ optional "password" ++ optional "expires_in" ++
   optional "max_views")%list.

Definition uploadFile (file : File) (options : Dict) : Async W Reply :=
  let formData := Form (uploadForm file options) in
  let headers := Some [("Content-Type", VUndefined)] in
  invoke (CPost "upload" formData headers) (post C "upload" formData headers).

(** Lines 76-88. *)
Definition presignRequest (options : Dict) : Payload :=
  Json (List.map (fun k => (k, field options k))
          ["s3_config_id"; "filename"; "mimetype"; "path"; "slug"; "size";
           "remark"; "password"; "expires_in"; "max_views"; "use_proxy"]).

(** Lines 73-100. *)
Definition getUploadPresignedUrl (options : Dict) : Async W Reply :=
  tryCatch
    (let data := presignRequest options in
     invoke (CPost "s3/presign" data None) (post C "s3/presign" data None))
    (fun error =>
       if Js.truthy (messageOf error) &&
          Js.includes (default "" (messageOf error)) slugTaken
       then reject (NewError "链接后缀已被占用，请尝试其他后缀")
       else reject (NewError ("获取预签名URL失败: " ++ interpolate (messageOf error)))).

(** Lines 107-109. *)
Definition completeFileUpload (data : Payload) : Async W Reply :=
  invoke (CPost "s3/commit" data None) (post C "s3/commit" data None).

(** Lines 354-356; the mode defaults to ["both"]. *)
Definition batchDeleteFiles (ids : list string) (deleteMode : option string)
    : Async W Reply :=
  let deleteMode := default "both" deleteMode in
  let data := Json [("ids", VStrings ids);
                    ("delete_mode", VString deleteMode)] in
  invoke (CDel "files/batch-delete" data) (del C "files/batch-delete" data).

(** The options object of lines 127-139. *)
Definition presignOptions (file : File) (options : Dict) : Dict :=
  list_to_map
    [("s3_config_id", field options "s3_config_id");
     ("filename", ofOption (name file));
     ("mimetype", VString (getAccurateMimeType file));
     ("path", field options "path");
     ("slug", field options "slug");
     ("size", VNumber (size file));
     ("remark", field options "remark");
     ("password", field options "password");
     ("expires_in", field options "expires_in");
     ("max_views", field options "max_views");
     ("use_proxy", field options "use_proxy")].

(** Lines 141-161: a reply without [success]. *)
Definition refusal (message : option string) : Exn :=
  if Js.truthy message then
    let m := default "" message in
    if Js.includes m slugTaken then NewError "链接后缀已被占用，请尝试其他后缀"
    else if Js.includes m "存储空间不足" || Js.includes m "insufficient storage" ||
            Js.includes m "exceed" || Js.includes m "容量"
    then NewError ("存储空间不足: " ++ m)
    else NewError m
  else NewError "获取预签名URL失败".

(** Lines 124-165: up to the point where [fileId] is assigned. *)
Definition obtainUpload (file : File) (options : Dict) : Async W PresignData :=
  presignedData <- getUploadPresignedUrl (presignOptions file options) ;;
  if negb (success presignedData) then reject (refusal (message presignedData))
  else
    match data presignedData with
    | None => reject (NewError "获取预签名URL失败：服务器未返回有效数据")
    | Some d => fulfil d
    end.

(** The request headers of lines 242-254. *)
Definition uploadHeaders (d : PresignData) (accurateMimeType : string)
    : list (string * string) :=
  ("Content-Type", Js.or_else (contentType d) accurateMimeType) ::
  (if bool_decide (provider_type d = Some "Backblaze B2")
   then [("X-Bz-Content-Sha1", "do_not_verify");
         ("X-Requested-With", "XMLHttpRequest")]
   else []).

(** Line 214. *)
Definition uploadEtag (etag : option string) : option string :=
  if Js.truthy etag then Some (removeQuotes (default "" etag)) else None.

(** Lines 178-258: the promise around the XMLHttpRequest. *)
Definition uploadToStorage (file : File) (cb : Callbacks W) (d : PresignData)
    (accurateMimeType : string) : Async W (option string) :=
  do match onXhrReady cb with
     | Some f => invoke COnXhrReady f
     | None => fulfil tt
     end ;;
  let headers := uploadHeaders d accurateMimeType in
  fun s =>
    let '(w, log) := s in
    let '(outcome, w') := xhrPut C (upload_url d) headers file w in
    let s' := (w', (log ++ [CXhrPut (upload_url d) headers])%list) in
    match outcome with
    | XhrLoad status statusText etag =>
        if (200 <=? status) && (status <? 300)
        then (Fulfilled (uploadEtag etag), s')
        else (Rejected (NewError ("上传失败: " ++ toString status ++ " " ++ statusText)),
              s')
    | XhrError => (Rejected (NewError "上传过程中发生网络错误"), s')
    | XhrAbort => (Rejected (NewError "上传被取消"), s')
    end.

(** The metadata of lines 261-275. *)
Definition commitRequest (file : File) (options : Dict) (d : PresignData)
    (etag : option string) : Payload :=
  Json [("file_id", ofOption (file_id d));
        ("s3_config_id", field options "s3_config_id");
        ("storage_path", storage_path d);
        ("s3_url", s3_url d);
        ("filename", ofOption (name file));
        ("mimetype",
         VString (Js.or_else (contentType d) (getAccurateMimeType file)));
        ("size", VString (toString (size file)));
        ("etag", match etag with Some e => VString e | None => VNull end);
        ("slug", slug d);
        ("remark", field options "remark");
        ("password", field options "password");
        ("expires_in", field options "expires_in");
        ("max_views", field options "max_views")].

(** Lines 167-284: from the assignment of [fileId] to the end of the
    [try] block. *)
Definition transferAndCommit (file : File) (options : Dict) (cb : Callbacks W)
    (d : PresignData) : Async W Reply :=
  let fileId := file_id d in
  do match onFileIdReady cb with
     | Some f =>
         if Js.truthy fileId
         then invoke (COnFileIdReady (default "" fileId)) (f (default "" fileId))
         else fulfil tt
     | None => fulfil tt
     end ;;
  etag <- uploadToStorage file cb d (getAccurateMimeType file) ;;
  completeFileUpload (commitRequest file options d etag).

(** Line 297. *)
Definition mayDelete (authStore : AuthStore) : bool :=
  isAdmin authStore ||
  (bool_decide (authType authStore = Some "apikey") && Js.truthy (apiKey authStore)).

(** Lines 289-307: the file record is deleted when there is one and the
    user holds a credential; what goes wrong here is swallowed. *)
Definition removeRecord (fileId : option string) : Async W unit :=
  if Js.truthy fileId then
    tryCatch
      (authStore <- invoke CUseAuthStore (useAuthStore C) ;;
       if mayDelete authStore
       then do batchDeleteFiles [default "" fileId] None ;; fulfil tt
       else fulfil tt)
      (fun deleteError => fulfil tt)
  else fulfil tt.

(** Lines 120-311. *)
Definition directUploadFile (file : File) (options : Dict) (cb : Callbacks W)
    : Async W Reply :=
  fun s =>
    match obtainUpload file options s with
    | (Rejected error, s1) =>
        (* [fileId] is still [null] *)
        (Rejected error, snd (removeRecord None s1))
    | (Fulfilled d, s1) =>
        match transferAndCommit file options cb d s1 with
        | (Fulfilled completeData, s2) => (Fulfilled completeData, s2)
        | (Rejected error, s2) =>
            (Rejected error, snd (removeRecord (file_id d) s2))
        end
    end.

(** Lines 324-327. *)
Definition getFiles (limit offset : Value) (options : option Dict)
    : Async W Reply :=
  let params := filesParams limit offset options in
  invoke (CGet "files" (Some params)) (get C "files" (Some params)).

(** Lines 334-336. *)
Definition getFile (id : string) : Async W Reply :=
  invoke (CGet ("files/" ++ id) None) (get C ("files/" ++ id) None).

(** Lines 344-346. *)
Definition updateFile (id : string) (metadata : Payload) : Async W Reply :=
  invoke (CPut ("files/" ++ id) metadata) (put C ("files/" ++ id) metadata).

(** Lines 367-369. *)
Definition getPublicFile (slug : string) : Async W Reply :=
  invoke (CGet ("public/files/" ++ slug) None)
         (get C ("public/files/" ++ slug) None).

(** Lines 377-379. *)
Definition verifyFilePassword (slug : string) (password : Value) : Async W Reply :=
  let data := Json [("password", password)] in
  invoke (CPost ("public/files/" ++ slug ++ "/verify") data None)
         (post C ("public/files/" ++ slug ++ "/verify") data None).

End Service.

End FileService.

(** ** Properties of the file service *)

Module FileServiceFacts.
Import FileService.

(** *** The MIME type *)

Lemma toLowerCase_app (a b : string) :
  toLowerCase (a ++ b) = toLowerCase a ++ toLowerCase b.
Proof.
  induction a as [| c a IH]; [reflexivity |].
  change (String c a ++ b) with (String c (a ++ b)).
  cbn [toLowerCase]. rewrite IH. reflexivity.
Qed.

Lemma or_else_nonempty (v : option string) (dflt : string) :
  dflt <> "" -> Js.or_else v dflt <> "".
Proof.
  intros Hd. unfold Js.or_else. destruct v as [s |]; [| exact Hd].
  destruct (String.eqb s "") eqn:He; [exact Hd |].
  apply String.eqb_neq. exact He.
Qed.

Lemma getAccurateMimeType_nonempty (file : File) : getAccurateMimeType file <> "".
Proof.
  unfold getAccurateMimeType.
  destruct (Js.truthy (name file) && testMarkdown (default "" (name file))).
  - discriminate.
  - apply or_else_nonempty. discriminate.
Qed.

(** X20.  A file whose name ends in a dot and one of the eight Markdown
    extensions, in any letter case, is given the type [text/markdown],
    whatever type the browser reports for it. *)
Theorem markdown_extension_wins (base ext : string) (browserType : option string)
    (bytes : Z) :
  In (toLowerCase ext) markdownExtensions ->
  getAccurateMimeType
    {| name := Some (base ++ "." ++ ext); type := browserType; size := bytes |}
  = "text/markdown".
Proof.
  intros Hext. unfold getAccurateMimeType. cbn [name type].
  assert (Htruthy : Js.truthy (Some (base ++ "." ++ ext)) = true).
  { apply truthy_nonempty. destruct base; discriminate. }
  rewrite Htruthy. cbn [andb from_option].
  assert (Htest : testMarkdown (base ++ "." ++ ext) = true).
  { unfold testMarkdown. apply existsb_exists.
    exists (toLowerCase ext). split; [exact Hext |].
    rewrite <- BackendFacts.string_app_assoc, toLowerCase_app.
    rewrite toLowerCase_app.
    change (toLowerCase ".") with ".".
    rewrite BackendFacts.string_app_assoc.
    apply endsWith_app. }
  cbn [Datatypes.id]. rewrite Htest. reflexivity.
Qed.

(** X21.  The type handed to the backend is never empty: it is
    [text/markdown], the browser's type when that is not empty, or
    [application/octet-stream]; and of two files with the same name and
    browser type it is the same, whatever their sizes. *)
Theorem mime_type_is_never_empty (file : File) :
  getAccurateMimeType file <> "" /\
  (getAccurateMimeType file = "text/markdown" \/
   type file = Some (getAccurateMimeType file) \/
   (Js.truthy (type file) = false /\
    getAccurateMimeType file = "application/octet-stream")).
Proof.
  split; [apply getAccurateMimeType_nonempty |].
  unfold getAccurateMimeType.
  destruct (Js.truthy (name file) && testMarkdown (default "" (name file)));
    [left; reflexivity | right].
  unfold Js.or_else, Js.truthy. destruct (type file) as [t |].
  - destruct (String.eqb t ""); [right; split; reflexivity | left; reflexivity].
  - right. split; reflexivity.
Qed.

(** *** Runs of the service *)

Section Runs.
Context {W : Type} (C : Client W).

Definition isDelete (c : Call) : bool :=
  match c with
  | CDel _ _ => true
  | _ => false
  end.

(** Every run of [m] adds calls that satisfy [P] to the log. *)
Definition Adds {A} (P : Call -> Prop) (m : Async W A) : Prop :=
  forall s, exists calls,
    snd (snd (m s)) = (snd s ++ calls)%list /\ Forall P calls.

Lemma Adds_fulfil {A} P (a : A) : Adds P (fulfil a).
Proof. intros s. exists []. split; [now rewrite app_nil_r | constructor]. Qed.

Lemma Adds_reject {A} P e : Adds P (@reject W A e).
Proof. intros s. exists []. split; [now rewrite app_nil_r | constructor]. Qed.

Lemma Adds_invoke {A} (P : Call -> Prop) c (f : W -> Settled A * W) :
  P c -> Adds P (invoke c f).
Proof.
  intros Hc [w log]. exists [c]. unfold invoke.
  destruct (f w) as [r w']. split; [reflexivity | repeat constructor; exact Hc].
Qed.

Lemma Adds_andThen {A B} P (m : Async W A) (k : A -> Async W B) :
  Adds P m -> (forall a, Adds P (k a)) -> Adds P (andThen m k).
Proof.
  intros Hm Hk s. unfold andThen.
  destruct (Hm s) as (calls1 & Hlog1 & HP1).
  destruct (m s) as [[a | e] s1]; cbn [snd] in *.
  - destruct (Hk a s1) as (calls2 & Hlog2 & HP2).
    exists (calls1 ++ calls2)%list. split.
    + rewrite Hlog2, Hlog1, app_assoc. reflexivity.
    + apply Forall_app. split; assumption.
  - exists calls1. split; assumption.
Qed.

Lemma Adds_tryCatch {A} P (m : Async W A) (h : Exn -> Async W A) :
  Adds P m -> (forall e, Adds P (h e)) -> Adds P (tryCatch m h).
Proof.
  intros Hm Hh s. unfold tryCatch.
  destruct (Hm s) as (calls1 & Hlog1 & HP1).
  destruct (m s) as [[a | e] s1]; cbn [snd] in *.
  - exists calls1. split; assumption.
  - destruct (Hh e s1) as (calls2 & Hlog2 & HP2).
    exists (calls1 ++ calls2)%list. split.
    + rewrite Hlog2, Hlog1, app_assoc. reflexivity.
    + apply Forall_app. split; assumption.
Qed.

Ltac adds_step :=
  first
    [ apply Adds_andThen; [| intros ?]
    | apply Adds_tryCatch; [| intros ?]
    | apply Adds_fulfil
    | apply Adds_reject
    | apply Adds_invoke; reflexivity
    | match goal with
      | |- Adds _ (match ?x with _ => _ end) => destruct x
      | |- Adds _ (if ?x then _ else _) => destruct x
      end ].

Definition notDelete (c : Call) : Prop := isDelete c = false.

Lemma obtainUpload_no_delete file options :
  Adds notDelete (obtainUpload C file options).
Proof. unfold obtainUpload, getUploadPresignedUrl. repeat adds_step. Qed.

Lemma uploadToStorage_no_delete file cb d accurate :
  Adds notDelete (uploadToStorage C file cb d accurate).
Proof.
  unfold uploadToStorage. apply Adds_andThen; [repeat adds_step | intros _].
  intros [w log]. destruct (xhrPut C _ _ file w) as [outcome w'].
  exists [CXhrPut (upload_url d) (uploadHeaders d accurate)].
  split; [| repeat constructor].
  destruct outcome as [status statusText etag | |]; try reflexivity.
  destruct ((200 <=? status) && (status <? 300)); reflexivity.
Qed.

Lemma transferAndCommit_no_delete file options cb d :
  Adds notDelete (transferAndCommit C file options cb d).
Proof.
  unfold transferAndCommit, completeFileUpload.
  apply Adds_andThen; [repeat adds_step | intros _].
  apply Adds_andThen; [apply uploadToStorage_no_delete | intros etag].
  repeat adds_step.
Qed.

Definition deleteCall (fileId : string) : Call :=
  CDel "files/batch-delete"
    (Json [("ids", VStrings [fileId]); ("delete_mode", VString "both")]).

(** The calls of lines 289-307. *)
Lemma removeRecord_calls fileId s :
  snd (snd (removeRecord C fileId s)) = snd s \/
  snd (snd (removeRecord C fileId s)) = (snd s ++ [CUseAuthStore])%list \/
  exists fid,
    fileId = Some fid /\ fid <> "" /\
    snd (snd (removeRecord C fileId s)) =
    (snd s ++ [CUseAuthStore; deleteCall fid])%list.
Proof.
  destruct s as [w log]. unfold removeRecord.
  destruct fileId as [fid |]; [| left; reflexivity].
  unfold Js.truthy. destruct (String.eqb fid "") eqn:Hfid; [left; reflexivity |].
  apply String.eqb_neq in Hfid. cbn [negb].
  unfold tryCatch, andThen, invoke, batchDeleteFiles, fulfil.
  destruct (useAuthStore C w) as [[a | e] w1]; [| right; left; reflexivity].
  destruct (mayDelete a); [| right; left; reflexivity].
  right. right. exists fid. split; [reflexivity |]. split; [exact Hfid |].
  cbv zeta. cbn [from_option Datatypes.id]. unfold invoke.
  match goal with
  | |- context [del C ?url ?data w1] =>
      destruct (del C url data w1) as [[r | e] w2]
  end; cbn [snd]; rewrite <- app_assoc; reflexivity.
Qed.

Lemma filter_no_delete calls :
  Forall notDelete calls -> List.filter isDelete calls = [].
Proof.
  induction 1 as [| c calls Hc _ IH]; [reflexivity |].
  cbn [List.filter]. rewrite Hc. exact IH.
Qed.

(** X22.  Whatever the collaborators do, a direct upload sends at most
    one delete: none when it is fulfilled, and when it is rejected none
    or, as its last call, one batch delete in mode [both] of the single
    non-empty file id. *)
Theorem record_is_deleted_at_most_once (file : File) (options : Dict)
    (cb : Callbacks W) (s : State W) :
  exists calls,
    snd (snd (directUploadFile C file options cb s)) = (snd s ++ calls)%list /\
    (List.filter isDelete calls = [] \/
     exists fid before e,
       fid <> "" /\
       fst (directUploadFile C file options cb s) = Rejected e /\
       calls = (before ++ [deleteCall fid])%list /\
       List.filter isDelete before = []).
Proof.
  unfold directUploadFile.
  destruct (obtainUpload_no_delete file options s) as (calls1 & Hlog1 & Hq1).
  destruct (obtainUpload C file options s) as [[d | e] s1]; cbn [snd] in Hlog1.
  - destruct (transferAndCommit_no_delete file options cb d s1)
      as (calls2 & Hlog2 & Hq2).
    destruct (transferAndCommit C file options cb d s1) as [[r | e] s2];
      cbn [snd] in Hlog2.
    + exists (calls1 ++ calls2)%list. cbn [snd]. split.
      * rewrite Hlog2, Hlog1, app_assoc. reflexivity.
      * left. apply filter_no_delete, Forall_app. split; assumption.
    + cbn [fst snd].
      destruct (removeRecord_calls (file_id d) s2)
        as [Hlog3 | [Hlog3 | (fid & Hfid & Hne & Hlog3)]].
      * exists (calls1 ++ calls2)%list. split.
        -- rewrite Hlog3, Hlog2, Hlog1, app_assoc. reflexivity.
        -- left. apply filter_no_delete, Forall_app. split; assumption.
      * exists (calls1 ++ calls2 ++ [CUseAuthStore])%list. split.
        -- rewrite Hlog3, Hlog2, Hlog1, <- !app_assoc. reflexivity.
        -- left. apply filter_no_delete. rewrite !Forall_app.
           repeat split; try assumption. repeat constructor.
      * exists (calls1 ++ calls2 ++ [CUseAuthStore; deleteCall fid])%list. split.
        -- rewrite Hlog3, Hlog2, Hlog1, <- !app_assoc. reflexivity.
        -- right. exists fid, (calls1 ++ calls2 ++ [CUseAuthStore])%list, e.
           split; [exact Hne |]. split; [reflexivity |]. split.
           ++ rewrite <- !app_assoc. reflexivity.
           ++ apply filter_no_delete. rewrite !Forall_app.
              repeat split; try assumption. repeat constructor.
  - exists calls1. cbn [snd removeRecord Js.truthy fulfil]. split; [exact Hlog1 |].
    left. apply filter_no_delete. exact Hq1.
Qed.

(** The client with another authentication store and another [del]. *)
Definition withCleanup (auth : W -> Settled AuthStore * W)
    (del' : string -> Payload -> W -> Settled Reply * W) : Client W :=
  {| get := get C; post := post C; put := put C; del := del';
     xhrPut := xhrPut C; useAuthStore := auth |}.

(** X23.  What a direct upload settles with does not depend on the
    authentication store or on the delete of the file record: the value
    or the error of the upload itself comes out, whether the record was
    deleted, could not be deleted, or the attempt to delete it threw. *)
Theorem cleanup_never_changes_the_result (file : File) (options : Dict)
    (cb : Callbacks W) (s : State W)
    (auth : W -> Settled AuthStore * W)
    (del' : string -> Payload -> W -> Settled Reply * W) :
  fst (directUploadFile (withCleanup auth del') file options cb s) =
  fst (directUploadFile C file options cb s).
Proof.
  unfold directUploadFile.
  change (obtainUpload (withCleanup auth del') file options s)
    with (obtainUpload C file options s).
  destruct (obtainUpload C file options s) as [[d | e] s1]; [| reflexivity].
  change (transferAndCommit (withCleanup auth del') file options cb d s1)
    with (transferAndCommit C file options cb d s1).
  destruct (transferAndCommit C file options cb d s1) as [[r | e] s2];
    reflexivity.
Qed.

Definition presignCall (file : File) (options : Dict) : Call :=
  CPost "s3/presign" (presignRequest (presignOptions file options)) None.

(** X24.  When the presign request itself fails, the upload is rejected
    with a new error: the fixed text about the slug when the failure's
    message mentions that the slug is taken, and otherwise the failure's
    message (the text [undefined] when it has none) behind a fixed
    prefix.  The presign request is the only call: nothing is uploaded,
    committed or deleted, and no callback runs. *)
Theorem presign_failure_is_wrapped (file : File) (options : Dict)
    (cb : Callbacks W) (w w1 : W) (log : list Call) (e : Exn) :
  post C "s3/presign" (presignRequest (presignOptions file options)) None w
    = (Rejected e, w1) ->
  directUploadFile C file options cb (w, log) =
  (Rejected
     (NewError
        (match messageOf e with
         | Some m =>
             if Js.includes m slugTaken
             then "链接后缀已被占用，请尝试其他后缀"
             else "获取预签名URL失败: " ++ m
         | None => "获取预签名URL失败: undefined"
         end)),
   (w1, (log ++ [presignCall file options])%list)).
Proof.
  intros Hpost.
  unfold directUploadFile, obtainUpload, getUploadPresignedUrl.
  unfold andThen, tryCatch, invoke. rewrite Hpost.
  destruct (messageOf e) as [m |]; cbn [Js.truthy from_option Datatypes.id andb].
  - destruct (String.eqb m "") eqn:Hm; cbn [negb andb].
    + apply String.eqb_eq in Hm. subst m. reflexivity.
    + destruct (Js.includes m slugTaken); reflexivity.
  - reflexivity.
Qed.

Lemma refusal_has_a_message (m : option string) :
  exists text, refusal m = NewError text /\ text <> "".
Proof.
  unfold refusal, Js.truthy. destruct m as [m |].
  - destruct (String.eqb m "") eqn:Hm; cbn [negb].
    + eexists. split; [reflexivity | discriminate].
    + apply String.eqb_neq in Hm. cbn [from_option Datatypes.id].
      destruct (Js.includes m slugTaken);
        [eexists; split; [reflexivity | discriminate] |].
      destruct (_ || _); eexists; (split; [reflexivity |]);
        [discriminate | exact Hm].
  - eexists. split; [reflexivity | discriminate].
Qed.

(** X25.  When the backend answers the presign request without
    [success], the upload is rejected with a new error that carries a
    non-empty message, and the presign request is the only call: nothing
    is uploaded or committed, and no delete is sent even when the reply
    names a file id, since the id is only taken from a successful
    reply. *)
Theorem refused_upload_deletes_nothing (file : File) (options : Dict)
    (cb : Callbacks W) (w w1 : W) (log : list Call) (reply : Reply) :
  post C "s3/presign" (presignRequest (presignOptions file options)) None w
    = (Fulfilled reply, w1) ->
  success reply = false ->
  directUploadFile C file options cb (w, log) =
  (Rejected (refusal (message reply)),
   (w1, (log ++ [presignCall file options])%list)) /\
  exists text, refusal (message reply) = NewError text /\ text <> "".
Proof.
  intros Hpost Hno. split; [| apply refusal_has_a_message].
  unfold directUploadFile, obtainUpload, getUploadPresignedUrl.
  unfold andThen, tryCatch, invoke. rewrite Hpost, Hno. reflexivity.
Qed.

(** X26.  When the upload fails after the file id is known (a callback
    threw, the storage did not answer 2xx, the network failed, the upload
    was cancelled, or the commit failed), the authentication store is
    asked, and with an administrator or an API key the one record of
    that id is deleted; the upload is then rejected with the error of
    the failure, whatever the delete answered. *)
Theorem failed_upload_removes_the_record (file : File) (options : Dict)
    (cb : Callbacks W) (s s1 : State W) (w2 w3 w4 : W) (log2 : list Call)
    (d : PresignData) (fid : string) (e : Exn) (a : AuthStore)
    (answer : Settled Reply) :
  obtainUpload C file options s = (Fulfilled d, s1) ->
  file_id d = Some fid ->
  fid <> "" ->
  transferAndCommit C file options cb d s1 = (Rejected e, (w2, log2)) ->
  useAuthStore C w2 = (Fulfilled a, w3) ->
  del C "files/batch-delete"
    (Json [("ids", VStrings [fid]); ("delete_mode", VString "both")]) w3
    = (answer, w4) ->
  directUploadFile C file options cb s =
  (Rejected e,
   if mayDelete a
   then (w4, (log2 ++ [CUseAuthStore; deleteCall fid])%list)
   else (w3, (log2 ++ [CUseAuthStore])%list)).
Proof.
  intros Hobtain Hfid Hne Hfail Hauth Hdel.
  unfold directUploadFile. rewrite Hobtain, Hfail, Hfid.
  unfold removeRecord. rewrite (truthy_nonempty _ Hne).
  unfold tryCatch, andThen at 1, invoke at 1. rewrite Hauth.
  destruct (mayDelete a); [| reflexivity].
  unfold andThen, batchDeleteFiles, invoke. cbv zeta.
  cbn [from_option Datatypes.id]. rewrite Hdel.
  destruct answer; cbn [snd]; rewrite <- app_assoc; reflexivity.
Qed.

Lemma andThen_Fulfilled_inv {A B} (m : Async W A) (k : A -> Async W B) s b s' :
  andThen m k s = (Fulfilled b, s') ->
  exists a s1, m s = (Fulfilled a, s1) /\ k a s1 = (Fulfilled b, s').
Proof.
  unfold andThen. destruct (m s) as [[a | e] s1]; [| discriminate].
  intros H. exists a, s1. split; [reflexivity | exact H].
Qed.

(** X27.  A direct upload is fulfilled only when the presign request was
    answered with [success] and data, the storage answered the upload
    with a status from 200 to 299, and the commit was fulfilled; it is
    fulfilled with the reply of the commit.  The upload and the commit
    are the last two calls; the commit carries the ETag of the storage
    with every double quote removed, and the same content type as the
    upload was sent with. *)
Theorem fulfilled_upload_was_committed (file : File) (options : Dict)
    (cb : Callbacks W) (w w' : W) (log log' : list Call) (r : Reply) :
  directUploadFile C file options cb (w, log) = (Fulfilled r, (w', log')) ->
  exists reply d w1 w2 w3 before status statusText etag,
    post C "s3/presign" (presignRequest (presignOptions file options)) None w
      = (Fulfilled reply, w1) /\
    success reply = true /\ data reply = Some d /\
    xhrPut C (upload_url d) (uploadHeaders d (getAccurateMimeType file)) file w2
      = (XhrLoad status statusText etag, w3) /\
    200 <= status < 300 /\
    post C "s3/commit" (commitRequest file options d (uploadEtag etag)) None w3
      = (Fulfilled r, w') /\
    log' = (before ++
            [CXhrPut (upload_url d) (uploadHeaders d (getAccurateMimeType file));
             CPost "s3/commit" (commitRequest file options d (uploadEtag etag))
               None])%list.
Proof.
  intros H. unfold directUploadFile in H.
  destruct (obtainUpload C file options (w, log)) as [[d | e] s1] eqn:Hobtain;
    [| discriminate].
  destruct (transferAndCommit C file options cb d s1) as [[r' | e] s2] eqn:Htr;
    [| discriminate].
  injection H as -> ->.
  unfold obtainUpload in Hobtain.
  apply andThen_Fulfilled_inv in Hobtain as (reply & s0 & Hpre & Hchecks).
  unfold getUploadPresignedUrl, tryCatch, invoke in Hpre.
  destruct (post C "s3/presign" _ None w) as [[reply' | e] w1] eqn:Hpost.
  2:{ destruct (Js.truthy (messageOf e) && _); discriminate. }
  injection Hpre as -> <-.
  destruct (success reply) eqn:Hsuccess; [| discriminate].
  cbn [negb] in Hchecks.
  destruct (data reply) as [d' |] eqn:Hdata; [| discriminate].
  injection Hchecks as -> <-.
  unfold transferAndCommit in Htr.
  apply andThen_Fulfilled_inv in Htr as ([] & [w2a log2a] & _ & Htr).
  apply andThen_Fulfilled_inv in Htr as (etag' & s3 & Hup & Hcommit).
  unfold uploadToStorage in Hup.
  apply andThen_Fulfilled_inv in Hup as ([] & [w2 log2] & _ & Hxhr).
  destruct (xhrPut C (upload_url d) (uploadHeaders d (getAccurateMimeType file))
              file w2) as [outcome w3] eqn:Hput.
  destruct outcome as [status statusText etag | |]; try discriminate.
  destruct ((200 <=? status) && (status <? 300)) eqn:Hstatus; [| discriminate].
  injection Hxhr as <- <-.
  unfold completeFileUpload, invoke in Hcommit.
  destruct (post C "s3/commit" _ None w3) as [answer w4] eqn:Hpost2.
  injection Hcommit as -> -> <-.
  apply andb_true_iff in Hstatus as [Hlo Hhi].
  exists reply, d, w1, w2, w3, log2, status, statusText, etag.
  split; [reflexivity |]. split; [exact Hsuccess |]. split; [exact Hdata |].
  split; [exact Hput |]. split; [lia |]. split; [exact Hpost2 |].
  rewrite <- app_assoc. reflexivity.
Qed.

End Runs.

(** *** The ETag, the query and the form *)

Lemma includes_removeQuotes (s : string) :
  Js.includes (removeQuotes s) (String "034" "") = false.
Proof.
  induction s as [| c s IH]; [reflexivity |].
  cbn [removeQuotes]. destruct (Ascii.eqb c "034") eqn:Hc; [exact IH |].
  cbn [Js.includes String.prefix]. rewrite IH.
  destruct (ascii_dec "034" c) as [<- | _]; [discriminate | reflexivity].
Qed.

(** X28.  The ETag handed to the commit never holds a double quote, and
    it is missing exactly when the storage sent no ETag header or an
    empty one. *)
Theorem committed_etag_has_no_quotes (header : option string) :
  match uploadEtag header with
  | Some etag => Js.includes etag (String "034" "") = false /\
                 Js.truthy header = true
  | None => header = None \/ header = Some ""
  end.
Proof.
  unfold uploadEtag, Js.truthy. destruct header as [h |].
  - destruct (String.eqb h "") eqn:Hh; cbn [negb].
    + right. apply String.eqb_eq in Hh. now subst h.
    + split; [apply includes_removeQuotes | reflexivity].
  - left. reflexivity.
Qed.

(** X29.  In the query of the file list the caller's options win: an
    option named [limit] or [offset] replaces the paging argument of
    that name; without such an option the argument is sent, or its
    default (50 and 0) when it is [undefined]; every other option is
    passed through, and nothing else is sent. *)
Theorem options_override_paging (limit offset : Value) (options : option Dict) :
  (forall k v, default ∅ options !! k = Some v ->
               filesParams limit offset options !! k = Some v) /\
  (default ∅ options !! "limit" = None ->
   filesParams limit offset options !! "limit" =
   Some (match limit with VUndefined => VNumber 50 | v => v end)) /\
  (default ∅ options !! "offset" = None ->
   filesParams limit offset options !! "offset" =
   Some (match offset with VUndefined => VNumber 0 | v => v end)) /\
  (forall k, k <> "limit" -> k <> "offset" ->
             filesParams limit offset options !! k = default ∅ options !! k).
Proof.
  unfold filesParams, Dict in *. cbv zeta. repeat split.
  - intros k v Hk. apply lookup_union_Some_l. exact Hk.
  - intros Hk. rewrite lookup_union_r by exact Hk. apply lookup_insert_eq.
  - intros Hk. rewrite lookup_union_r by exact Hk.
    rewrite lookup_insert_ne by discriminate. apply lookup_insert_eq.
  - intros k Hl Ho.
    destruct (default ∅ options !! k) as [v |] eqn:Hk.
    + apply lookup_union_Some_l. exact Hk.
    + rewrite lookup_union_r by exact Hk.
      rewrite !lookup_insert_ne by congruence. apply lookup_empty.
Qed.


End FileServiceFacts.

(** ** The file service against a small backend *)

Module FileServiceExamples.
Import FileService.
Import FileServiceFacts.

(** The backend keeps the ids of its file records.  A presign request
    is answered as told and, when the answer names a file id, records
    it; the upload ends as told; a commit is acknowledged; a batch
    delete removes the ids it names. *)
Definition acknowledged : Reply :=
  {| success := true; message := None; data := None |}.

Definition recordedId (answer : Settled Reply) : list string :=
  match answer with
  | Fulfilled {| data := Some {| file_id := Some fileId |} |} => [fileId]
  | _ => []
  end.

Definition sampleClient (presign : Settled Reply) (upload : XhrOutcome)
    (auth : AuthStore) : Client (list string) :=
  {| get := fun _ _ records => (Fulfilled acknowledged, records);
     post := fun url _ _ records =>
       if String.eqb url "s3/presign"
       then (presign, (records ++ recordedId presign)%list)
       else (Fulfilled acknowledged, records);
     put := fun _ _ records => (Fulfilled acknowledged, records);
     del := fun _ data records =>
       match data with
       | Json (("ids", VStrings ids) :: _) =>
           (Fulfilled acknowledged,
            List.filter (fun r => negb (existsb (String.eqb r) ids)) records)
       | _ => (Rejected (Foreign (Some "bad request") 400), records)
       end;
     xhrPut := fun _ _ _ records => (upload, records);
     useAuthStore := fun records => (Fulfilled auth, records) |}.

Definition noCallbacks : Callbacks (list string) :=
  {| onXhrReady := None; onFileIdReady := None |}.

Definition notes : File :=
  {| name := Some "notes.MD"; type := Some "application/octet-stream";
     size := 12 |}.

Definition slot : PresignData :=
  {| upload_url := "https://s3.example/put"; file_id := Some "f1";
     storage_path := VString "notes.MD"; s3_url := VString "https://s3.example/notes.MD";
     slug := VString "abc"; provider_type := None; contentType := None |}.

Definition granted : Settled Reply :=
  Fulfilled {| success := true; message := None; data := Some slot |}.

Definition admin : AuthStore :=
  {| isAdmin := true; authType := None; apiKey := None |}.

(** The header value ["e7"] with its quotes. *)
Definition quotedEtag : string := String "034" ("e7" ++ String "034" "").

Lemma markdown_extension_wins_witness :
  getAccurateMimeType notes = "text/markdown".
Proof.
  apply (markdown_extension_wins "notes" "MD" (Some "application/octet-stream") 12).
  left. reflexivity.
Defined.

(** The client is offline. *)
Lemma presign_failure_is_wrapped_witness :
  directUploadFile
    (sampleClient (Rejected (Foreign (Some "Network Error") 0)) XhrError admin)
    notes ∅ noCallbacks ([], []) =
  (Rejected (NewError "获取预签名URL失败: Network Error"),
   ([], [presignCall notes ∅])).
Proof.
  apply (presign_failure_is_wrapped
           (sampleClient (Rejected (Foreign (Some "Network Error") 0)) XhrError admin)
           notes ∅ noCallbacks [] [] [] (Foreign (Some "Network Error") 0)).
  reflexivity.
Defined.

(** The backend refuses for lack of space, and yet names a file id. *)
Definition refused : Reply :=
  {| success := false; message := Some "insufficient storage";
     data := Some slot |}.

Lemma refused_upload_deletes_nothing_witness :
  directUploadFile (sampleClient (Fulfilled refused) XhrError admin)
    notes ∅ noCallbacks ([], []) =
  (Rejected (refusal (Some "insufficient storage")),
   (["f1"], [presignCall notes ∅])) /\
  exists text,
    refusal (Some "insufficient storage") = NewError text /\ text <> "".
Proof.
  apply (refused_upload_deletes_nothing
           (sampleClient (Fulfilled refused) XhrError admin)
           notes ∅ noCallbacks [] ["f1"] [] refused);
    reflexivity.
Defined.

(** The storage answers the upload with 403; the user is an
    administrator: the record [f1] is gone afterwards. *)
Lemma failed_upload_removes_the_record_witness :
  directUploadFile (sampleClient granted (XhrLoad 403 "Forbidden" None) admin)
    notes ∅ noCallbacks ([], []) =
  (Rejected (NewError "上传失败: 403 Forbidden"),
   ([], [presignCall notes ∅;
         CXhrPut "https://s3.example/put" [("Content-Type", "text/markdown")];
         CUseAuthStore; deleteCall "f1"])).
Proof.
  apply (failed_upload_removes_the_record
           (sampleClient granted (XhrLoad 403 "Forbidden" None) admin)
           notes ∅ noCallbacks ([], []) (["f1"], [presignCall notes ∅])
           ["f1"] ["f1"] []
           [presignCall notes ∅;
            CXhrPut "https://s3.example/put" [("Content-Type", "text/markdown")]]
           slot "f1" (NewError "上传失败: 403 Forbidden") admin
           (Fulfilled acknowledged));
    try reflexivity; discriminate.
Defined.

(** The storage answers 200 with a quoted ETag. *)
Lemma fulfilled_upload_was_committed_witness :
  exists reply d w1 w2 w3 before status statusText etag,
    post (sampleClient granted (XhrLoad 200 "OK" (Some quotedEtag)) admin)
      "s3/presign" (presignRequest (presignOptions notes ∅)) None []
      = (Fulfilled reply, w1) /\
    success reply = true /\ data reply = Some d /\
    xhrPut (sampleClient granted (XhrLoad 200 "OK" (Some quotedEtag)) admin)
      (upload_url d) (uploadHeaders d (getAccurateMimeType notes)) notes w2
      = (XhrLoad status statusText etag, w3) /\
    200 <= status < 300 /\
    post (sampleClient granted (XhrLoad 200 "OK" (Some quotedEtag)) admin)
      "s3/commit" (commitRequest notes ∅ d (uploadEtag etag)) None w3
      = (Fulfilled acknowledged, ["f1"]) /\
    [presignCall notes ∅;
     CXhrPut "https://s3.example/put" [("Content-Type", "text/markdown")];
     CPost "s3/commit" (commitRequest notes ∅ slot (Some "e7")) None] =
    (before ++
     [CXhrPut (upload_url d) (uploadHeaders d (getAccurateMimeType notes));
      CPost "s3/commit" (commitRequest notes ∅ d (uploadEtag etag)) None])%list.
Proof.
  apply (fulfilled_upload_was_committed
           (sampleClient granted (XhrLoad 200 "OK" (Some quotedEtag)) admin)
           notes ∅ noCallbacks [] ["f1"] []).
  reflexivity.
Defined.

End FileServiceExamples.
